(** * Trainer-lodge scraper: wikitext parser, change detector, changelog

    A shallow embedding of [scraper/scrape_lodge.py]: the functions
    [parse_wikitext], [parse_tier_content], [compare_data] and the
    changelog part of [save_data], together with the pieces of the Python
    runtime they call ([str] methods, the [re] patterns, [sorted],
    [json.dumps]).

    Conventions.
    - A Python [str] is a [string]; one [ascii] stands for one code point
      in the range 0..255.  Text with code points above 255 is outside the
      model.
    - A [dict] keyed by strings is a [gmap string _]; no function modelled
      here observes the insertion order of a dict (every traversal whose
      order matters goes through [sorted] or [sort_keys=True]).
    - A raised exception is the [Raise] case of [result]. *)

From Stdlib Require Import Strings.String Strings.Ascii Numbers.DecimalString ZArith.
From stdpp Require Import base option list gmap sets strings sorting.

#[local] Set Warnings "-clear-no-such-hyp,-register-all".

(** ** Exceptions *)

(** [NoneKey] is not a Python exception: it marks the one place where
    the model's typing of dict keys is narrower than Python's (see
    [Re.group1_key]). *)
Inductive exn : Type :=
  | KeyError (key : string)
  | IndexError
  | AttributeError
  | NoneKey.

Inductive result (A : Type) : Type :=
  | Ok (a : A)
  | Raise (e : exn).
Arguments Ok {A} a.
Arguments Raise {A} e.

#[global] Instance result_ret : MRet result := λ A a, Ok a.
#[global] Instance result_bind : MBind result := λ A B f m,
  match m with Ok a => f a | Raise e => Raise e end.

(** [for x in l: s = body(s, x)], where the body may raise. *)
Fixpoint for_each {S A : Type} (body : S → A → result S)
    (l : list A) (s : S) : result S :=
  match l with
  | [] => Ok s
  | x :: l' => s' ← body s x; for_each body l' s'
  end.

(** ** Python [str] *)

Module Str.

(** [str.isspace] on one code point below 256 (it is also the class
    [\s] of [re] for [str] patterns). *)
Definition isspace (c : ascii) : bool :=
  let n := nat_of_ascii c in
  ((9 <=? n) && (n <=? 13)) || ((28 <=? n) && (n <=? 32))
  || (n =? 133) || (n =? 160).

(** The class [\d] of [re] for [str] patterns, below 256. *)
Definition isdecimal (c : ascii) : bool :=
  let n := nat_of_ascii c in (48 <=? n) && (n <=? 57).

Fixpoint lstrip (s : string) : string :=
  match s with
  | String c s' => if isspace c then lstrip s' else s
  | EmptyString => EmptyString
  end.

Fixpoint rstrip (s : string) : string :=
  match s with
  | String c s' =>
      let r := rstrip s' in
      if isspace c && String.eqb r "" then "" else String c r
  | EmptyString => EmptyString
  end.

Definition strip (s : string) : string := rstrip (lstrip s).

(** [s.startswith(p)] *)
Definition startswith (p s : string) : bool := String.prefix p s.

(** [sub in s] *)
Fixpoint contains (sub s : string) : bool :=
  String.prefix sub s
  || match s with
     | String _ s' => contains sub s'
     | EmptyString => false
     end.

(** [s[a:b]] and [s[a:]] for indices [0 <= a], [0 <= b]. *)
Definition slice (a b : nat) (s : string) : string :=
  String.substring a (b - a) s.
Definition slice_from (a : nat) (s : string) : string :=
  String.substring a (String.length s - a) s.

(** [s.split(sep)] for a non-empty separator: cut at every occurrence
    of [sep], leftmost first and without overlap.  [skip] counts the
    characters of a separator still to be passed over, [acc] holds the
    current piece in reverse. *)
Fixpoint split_go (sep : string) (skip : nat) (acc : string) (s : string)
    : list string :=
  match s with
  | EmptyString => [String.rev acc]
  | String c s' =>
      match skip with
      | S k => split_go sep k acc s'
      | O =>
          if String.prefix sep s
          then String.rev acc :: split_go sep (String.length sep - 1) "" s'
          else split_go sep 0 (String c acc) s'
      end
  end.
Definition split (sep s : string) : list string := split_go sep 0 "" s.

(** [sep.join(l)] *)
Definition join (sep : string) (l : list string) : string :=
  String.concat sep l.

(** ["{}".format(n)] for a non-negative integer. *)
Definition of_nat (n : nat) : string :=
  NilZero.string_of_uint (Nat.to_uint n).

(** [sorted(xs)] on strings (code-point order). *)
Definition sorted (l : list string) : list string :=
  merge_sort String.le l.

End Str.

(** ** The fragment of [re] used by the scraper *)

Module Re.

(** Quantifiers occur in the source patterns only over a single
    character class, so [Star], [Plus] and [Opt] take a class. *)
Inductive regex : Type :=
  | Lit (s : string)
  | Star (p : ascii → bool)
  | Plus (p : ascii → bool)
  | Opt (p : ascii → bool)
  | Seq (r1 r2 : regex)
  | Alt (r1 r2 : regex)
  | Grp (r : regex).

(** The rest of the subject after a match, and the text of group 1. *)
Definition outcome : Type := string * option string.

(** Greedy [p*]: the longest run first, then each shorter one. *)
Fixpoint star_outs (p : ascii → bool) (s : string) : list string :=
  match s with
  | String c s' => if p c then star_outs p s' ++ [s] else [s]
  | EmptyString => [EmptyString]
  end.

Definition consumed (s rest : string) : string :=
  String.substring 0 (String.length s - String.length rest) s.

(** All ways [r] matches a prefix of [s], in the order a backtracking
    matcher tries them; the first is the match [re] reports. *)
Fixpoint outcomes (r : regex) (s : string) (cap : option string)
    : list outcome :=
  match r with
  | Lit l =>
      if String.prefix l s
      then [(String.substring (String.length l)
               (String.length s - String.length l) s, cap)]
      else []
  | Star p => (λ rest, (rest, cap)) <$> star_outs p s
  | Plus p =>
      match s with
      | String c s' =>
          if p c then (λ rest, (rest, cap)) <$> star_outs p s' else []
      | EmptyString => []
      end
  | Opt p =>
      match s with
      | String c s' => if p c then [(s', cap); (s, cap)] else [(s, cap)]
      | EmptyString => [(s, cap)]
      end
  | Seq r1 r2 =>
      o ← outcomes r1 s cap; outcomes r2 o.1 o.2
  | Alt r1 r2 => outcomes r1 s cap ++ outcomes r2 s cap
  | Grp r1 =>
      (λ o : outcome, (o.1, Some (consumed s o.1))) <$> outcomes r1 s cap
  end.

(** A match object: [m.start()], [m.end()], [m.group(1)] ([None] when
    the group took no part in the match). *)
Record Match : Type := mkMatch {
  m_start : nat;
  m_end : nat;
  m_group1 : option string
}.

(** The match of [r] that begins exactly at offset [pos], where [s] is
    the subject from [pos] on. *)
Definition match_at (r : regex) (pos : nat) (s : string) : option Match :=
  match outcomes r s None with
  | o :: _ =>
      Some (mkMatch pos (pos + (String.length s - String.length o.1)) o.2)
  | [] => None
  end.

(** [re.match(r, s)] *)
Definition match_ (r : regex) (s : string) : option Match := match_at r 0 s.

(** [re.search(r, s)]: the match at the leftmost offset that has one. *)
Fixpoint search_from (r : regex) (pos : nat) (s : string) : option Match :=
  match match_at r pos s with
  | Some m => Some m
  | None =>
      match s with
      | String _ s' => search_from r (S pos) s'
      | EmptyString => None
      end
  end.
Definition search (r : regex) (s : string) : option Match :=
  search_from r 0 s.

(** [list(r.finditer(s))]: matches from left to right without overlap;
    after a match the scan resumes at its end.  [skip] counts the
    characters of the last match still to be passed over.  (The special
    treatment [re] gives to empty matches is not modelled: no pattern of
    the scraper matches the empty string.) *)
Fixpoint finditer_from (r : regex) (pos skip : nat) (s : string)
    : list Match :=
  match s with
  | String _ s' =>
      match skip with
      | S k => finditer_from r (S pos) k s'
      | O =>
          match match_at r pos s with
          | Some m => m :: finditer_from r (S pos) (m_end m - pos - 1) s'
          | None => finditer_from r (S pos) 0 s'
          end
      end
  | EmptyString =>
      match skip with
      | S _ => []
      | O => option_list (match_at r pos s)
      end
  end.
Definition finditer (r : regex) (s : string) : list Match :=
  finditer_from r 0 0 s.

(** [m.group(1)] followed by a [str] method call: [None] has no
    such method. *)
Definition group1_str (m : Match) : result string :=
  match m_group1 m with
  | Some g => Ok g
  | None => Raise AttributeError
  end.

(** [m.group(1)] used as a dict key.  Python would accept [None] as
    a key; the model keeps string keys and marks that case with
    [NoneKey], and [finditer_group] shows it never arises for a pattern
    whose every branch goes through the group. *)
Definition group1_key (m : Match) : result string :=
  match m_group1 m with
  | Some g => Ok g
  | None => Raise NoneKey
  end.

(** Every match of [r] sets group 1. *)
Fixpoint always_captures (r : regex) : bool :=
  match r with
  | Grp _ => true
  | Seq r1 r2 => always_captures r1 || always_captures r2
  | Alt r1 r2 => always_captures r1 && always_captures r2
  | _ => false
  end.

End Re.

(** ** Data model *)

(** [{category: [entry, ...]}] and [{tier: {category: [entry, ...]}}] *)
Abbreviation Categories := (gmap string (list string)).
Abbreviation Tiers := (gmap string (gmap string (list string))).

(** One trainer's record, [{"name": ..., "tiers": ...}].  A record read
    back from the data file may lack the ["tiers"] key, which the code
    allows for with [.get("tiers", {})]. *)
Record Trainer : Type := mkTrainer {
  name : string;
  tiers : option Tiers
}.

(** [{trainer name: record}] *)
Abbreviation Dataset := (gmap string Trainer).

(** [d[k]] *)
Definition getitem {V : Type} (d : gmap string V) (k : string) : result V :=
  match d !! k with
  | Some v => Ok v
  | None => Raise (KeyError k)
  end.

(** [l[i]] for [0 <= i] *)
Definition list_getitem {A : Type} (l : list A) (i : nat) : result A :=
  match l !! i with
  | Some x => Ok x
  | None => Raise IndexError
  end.

(** [d.get(k, {})] and [d.get(k, [])] *)
Definition get_or_empty `{Empty V} (d : gmap string V) (k : string) : V :=
  default ∅ (d !! k).
Definition get_or_nil {A : Type} (d : gmap string (list A)) (k : string)
    : list A :=
  default [] (d !! k).

(** [rec.get("tiers", {})] *)
Definition get_tiers (t : Trainer) : Tiers := default ∅ (tiers t).

(** ** Wikitext parser *)

Local Infix "~>" := Re.Seq (at level 45, right associativity).

Definition is_quote (c : ascii) : bool :=
  Ascii.eqb c "034"%char || Ascii.eqb c "'"%char.
Definition not_newline (c : ascii) : bool := negb (Ascii.eqb c "010"%char).

(** [r"===\s*(Interesting|Exciting|Super Exciting)\s*==="] *)
Definition tier_pattern : Re.regex :=
  Re.Lit "===" ~> Re.Star Str.isspace
  ~> Re.Grp (Re.Alt (Re.Lit "Interesting")
               (Re.Alt (Re.Lit "Exciting") (Re.Lit "Super Exciting")))
  ~> Re.Star Str.isspace ~> Re.Lit "===".

(** [r"==\s*Scrapbook"] *)
Definition scrapbook_pattern : Re.regex :=
  Re.Lit "==" ~> Re.Star Str.isspace ~> Re.Lit "Scrapbook".

(** [r'!colspan=["\']?\d+["\']?\|(.+)'] *)
Definition cat_pattern : Re.regex :=
  Re.Lit "!colspan=" ~> Re.Opt is_quote ~> Re.Plus Str.isdecimal
  ~> Re.Opt is_quote ~> Re.Lit "|" ~> Re.Grp (Re.Plus not_newline).

Definition NL : string := String "010"%char "".

(** Truth value of [current_category], which is [None] or a [str]. *)
Definition truthy (cur : option string) : bool :=
  match cur with
  | Some c => negb (String.eqb c "")
  | None => false
  end.

(** [categories[cat].append(t)] *)
Definition append_topic (categories : Categories) (cat t : string)
    : result Categories :=
  topics ← getitem categories cat;
  Ok (<[cat := topics ++ [t]]> categories).

(** The first test of the loop body of [parse_tier_content], on the
    stripped line. *)
Definition is_table_markup (line : string) : bool :=
  String.eqb line "" || String.eqb line "|-" || String.eqb line "|}"
  || Str.startswith "{|" line.

(** The state carried by the loop of [parse_tier_content]. *)
Definition tier_state : Type := Categories * option string.

(** One iteration of the loop of [parse_tier_content]; every [continue]
    returns the state as it is. *)
Definition tier_line (st : tier_state) (line : string) : result tier_state :=
  let '(categories, current_category) := st in
  let line := Str.strip line in
  if is_table_markup line then Ok st
  else
    match Re.match_ cat_pattern line with
    | Some cat_match =>
        g ← Re.group1_str cat_match;
        let current_category := Str.strip g in
        let current_category :=
          if Str.contains "Pok" current_category then "Pokemon"
          else current_category in
        Ok (<[current_category := []]> categories, Some current_category)
    | None =>
        if truthy current_category && Str.startswith "|" line
           && negb (Str.startswith "{|" line)
        then
          let cat := default "" current_category in
          let raw := Str.strip (Str.slice_from 1 line) in
          if String.eqb raw "" || Str.startswith "class=" raw
             || Str.startswith "style=" raw
          then Ok st
          else if Str.contains "||" raw then
            categories' ←
              for_each (λ cats t,
                  let t := Str.strip t in
                  if negb (String.eqb t "") then append_topic cats cat t
                  else Ok cats)
                (Str.split "||" raw) categories;
            Ok (categories', current_category)
          else
            categories' ← append_topic categories cat raw;
            Ok (categories', current_category)
        else Ok st
    end.

Definition parse_tier_content (content : string) : result Categories :=
  st ← for_each tier_line (Str.split NL content) (∅, None);
  Ok st.1.

(** [list(enumerate(l))] *)
Definition enumerate {A : Type} (l : list A) : list (nat * A) :=
  imap (λ i x, (i, x)) l.

(** The [if]/[else] of [parse_wikitext] that sets [end]: the start of
    the next tier header, else the start of the Scrapbook header after
    [start], else the end of the page. *)
Definition tier_end (wikitext : string) (tier_matches : list Re.Match)
    (i start : nat) : result nat :=
  if i + 1 <? length tier_matches then
    next ← list_getitem tier_matches (i + 1);
    Ok (Re.m_start next)
  else
    match Re.search scrapbook_pattern (Str.slice_from start wikitext) with
    | Some scrapbook => Ok (start + Re.m_start scrapbook)
    | None => Ok (String.length wikitext)
    end.

(** One iteration of the loop of [parse_wikitext] over
    [enumerate(tier_matches)]; the state is [result["tiers"]]. *)
Definition parse_tier (wikitext : string) (tier_matches : list Re.Match)
    (result_tiers : Tiers) (im : nat * Re.Match) : result Tiers :=
  let '(i, m) := im in
  tier_name ← Re.group1_key m;
  let start := Re.m_end m in
  end_ ← tier_end wikitext tier_matches i start;
  let tier_content := Str.slice start end_ wikitext in
  categories ← parse_tier_content tier_content;
  if bool_decide (categories ≠ ∅)
  then Ok (<[tier_name := categories]> result_tiers)
  else Ok result_tiers.

Definition parse_wikitext (wikitext trainer_name : string) : result Trainer :=
  let tier_matches := Re.finditer tier_pattern wikitext in
  result_tiers ←
    for_each (parse_tier wikitext tier_matches) (enumerate tier_matches) ∅;
  Ok (mkTrainer trainer_name (Some result_tiers)).

(** ** [json.dumps(tiers, sort_keys=True)] *)

Module Json.

Definition hex_digit (n : nat) : ascii :=
  ascii_of_nat (if n <? 10 then 48 + n else 87 + n).

(** One character of a string literal, with [ensure_ascii] on (the
    default): printable ASCII as it is, the short escapes, and
    [\u00xx] for the rest. *)
Definition escape_char (c : ascii) : string :=
  let n := nat_of_ascii c in
  if n =? 34 then "\" +:+ String c ""
  else if n =? 92 then "\\"
  else if n =? 10 then "\n"
  else if n =? 13 then "\r"
  else if n =? 9 then "\t"
  else if n =? 8 then "\b"
  else if n =? 12 then "\f"
  else if (32 <=? n) && (n <=? 126) then String c ""
  else "\u00" +:+ String (hex_digit (n / 16)) (String (hex_digit (n mod 16)) "").

Fixpoint escape (s : string) : string :=
  match s with
  | String c s' => escape_char c +:+ escape s'
  | EmptyString => EmptyString
  end.

Definition quote : string := String "034"%char "".

Definition dumps_str (s : string) : string := quote +:+ escape s +:+ quote.

Definition dumps_list (l : list string) : string :=
  "[" +:+ Str.join ", " (dumps_str <$> l) +:+ "]".

(** Order of the items of a dict under [sort_keys]: by key. *)
Definition key_le {V : Type} : relation (string * V) :=
  λ a b, String.le a.1 b.1.
#[global] Instance key_le_dec {V : Type} : RelDecision (@key_le V).
Proof. intros a b. unfold key_le. apply _. Defined.

Definition sorted_items {V : Type} (d : gmap string V) : list (string * V) :=
  merge_sort key_le (map_to_list d).

Definition dumps_dict {V : Type} (dumps_value : V → string)
    (d : gmap string V) : string :=
  "{" +:+ Str.join ", "
            ((λ kv : string * V,
                dumps_str kv.1 +:+ ": " +:+ dumps_value kv.2)
             <$> sorted_items d) +:+ "}".

Definition dumps (tiers : Tiers) : string :=
  dumps_dict (dumps_dict dumps_list) tiers.

End Json.

(** ** Change detector *)

(** A change record, [{"type": ..., "trainer": ..., "details": ...}];
    the ["type"] field is the constructor. *)
Inductive Change : Type :=
  | new_trainer (trainer details : string)
  | removed_trainer (trainer : string)
  | modified_trainer (trainer details : string).

Definition change_trainer (c : Change) : string :=
  match c with
  | new_trainer t _ | removed_trainer t | modified_trainer t _ => t
  end.

(** [list(d.keys())], [list(d.values())] *)
Definition keys {V : Type} (d : gmap string V) : list string :=
  (map_to_list d).*1.
Definition values {V : Type} (d : gmap string V) : list V :=
  (map_to_list d).*2.

(** [sorted(s)] for a set of strings *)
Definition sorted_set (s : gset string) : list string :=
  Str.sorted (elements s).

(** Truth value of a list. *)
Definition nonempty {A : Type} (l : list A) : bool :=
  match l with [] => false | _ :: _ => true end.

(** [sum(sum(len(items) for items in cats.values())
         for cats in tiers.values())] *)
Definition topic_count (tiers : Tiers) : nat :=
  sum_list ((λ cats : Categories, sum_list (length <$> values cats))
            <$> values tiers).

(** Body of the loop over [sorted(new_names - old_names)]. *)
Definition new_trainer_step (new_data : Dataset) (changes : list Change)
    (name : string) : result (list Change) :=
  rec ← getitem new_data name;
  let tiers := get_tiers rec in
  let topic_count := topic_count tiers in
  Ok (changes ++
        [new_trainer name
           (Str.of_nat (size tiers) +:+ " tiers, " +:+
            Str.of_nat topic_count +:+ " topics")]).

(** Body of the loop over [sorted(old_names - new_names)]. *)
Definition removed_trainer_step (changes : list Change) (name : string)
    : result (list Change) :=
  Ok (changes ++ [removed_trainer name]).

(** Body of the loop over [all_cat_names]. *)
Definition category_step (tier_name : string) (old_cats new_cats : Categories)
    (details : list string) (cat_name : string) : list string :=
  let old_topics : gset string := list_to_set (get_or_nil old_cats cat_name) in
  let new_topics : gset string := list_to_set (get_or_nil new_cats cat_name) in
  let added := sorted_set (new_topics ∖ old_topics) in
  let removed := sorted_set (old_topics ∖ new_topics) in
  let details :=
    if nonempty added
    then details ++ ["+[" +:+ tier_name +:+ "/" +:+ cat_name +:+ "]: "
                     +:+ Str.join ", " added]
    else details in
  if nonempty removed
  then details ++ ["-[" +:+ tier_name +:+ "/" +:+ cat_name +:+ "]: "
                   +:+ Str.join ", " removed]
  else details.

(** Body of the loop over [all_tier_names]. *)
Definition tier_step (old_tiers new_tiers : Tiers) (details : list string)
    (tier_name : string) : list string :=
  let old_cats := get_or_empty old_tiers tier_name in
  let new_cats := get_or_empty new_tiers tier_name in
  let all_cat_names :=
    sorted_set (list_to_set (keys old_cats ++ keys new_cats)) in
  foldl (category_step tier_name old_cats new_cats) details all_cat_names.

(** The [details] list built for one trainer present in both datasets. *)
Definition trainer_details (old_tiers new_tiers : Tiers) : list string :=
  let all_tier_names :=
    sorted_set (list_to_set (keys old_tiers ++ keys new_tiers)) in
  foldl (tier_step old_tiers new_tiers) [] all_tier_names.

(** Body of the loop over [sorted(old_names & new_names)]. *)
Definition modified_trainer_step (old_data new_data : Dataset)
    (changes : list Change) (name : string) : result (list Change) :=
  old_rec ← getitem old_data name;
  new_rec ← getitem new_data name;
  let old_tiers := get_tiers old_rec in
  let new_tiers := get_tiers new_rec in
  if String.eqb (Json.dumps old_tiers) (Json.dumps new_tiers)
  then Ok changes
  else
    let details := trainer_details old_tiers new_tiers in
    if nonempty details
    then Ok (changes ++ [modified_trainer name (Str.join "; " details)])
    else Ok changes.

Definition compare_data (old_data new_data : Dataset) : result (list Change) :=
  let changes := [] in
  let old_names : gset string := list_to_set (keys old_data) in
  let new_names : gset string := list_to_set (keys new_data) in
  changes ← for_each (new_trainer_step new_data)
              (sorted_set (new_names ∖ old_names)) changes;
  changes ← for_each removed_trainer_step
              (sorted_set (old_names ∖ new_names)) changes;
  for_each (modified_trainer_step old_data new_data)
    (sorted_set (old_names ∩ new_names)) changes.

(** ** Snapshot store *)

(** The ["_metadata"] record of the data file. *)
Record Metadata : Type := mkMetadata {
  last_updated : string;
  md_trainer_count : nat;
  total_topics : nat;
  source : string;
  scraper_version : string;
  errors : list string
}.

(** One entry of [changelog["updates"]]. *)
Record ChangelogEntry : Type := mkEntry {
  date : string;
  trainer_count : nat;
  change_count : nat;
  changes : list Change
}.

(** The changelog document, [{"updates": [...]}]. *)
Record Changelog : Type := mkChangelog {
  updates : list ChangelogEntry
}.

(** The data document is a dict written in insertion order: the
    metadata first, then the trainers. *)
Inductive OutputValue : Type :=
  | OutMetadata (m : Metadata)
  | OutTrainer (t : Trainer).

Abbreviation Output := (list (string * OutputValue)).

(** [d[k] = v] on a dict that keeps insertion order: an existing key
    keeps its place. *)
Fixpoint setitem {V : Type} (d : list (string * V)) (k : string) (v : V)
    : list (string * V) :=
  match d with
  | [] => [(k, v)]
  | (k', v') :: d' =>
      if String.eqb k' k then (k, v) :: d' else (k', v') :: setitem d' k v
  end.

(** What one call of [save_data] writes to [DATA_FILE] and to
    [CHANGELOG_FILE]; the second is also the state in which the call
    leaves the [changelog] object it was given. *)
Record Saved : Type := mkSaved {
  data_file : Output;
  changelog_file : Changelog
}.

(** [save_data]; [now] is the time stamp the call reads from the clock. *)
Definition save_data (now : string) (new_data : Dataset)
    (changes : list Change) (changelog : Changelog) (errors : list string)
    : result Saved :=
  let total_topics :=
    sum_list ((λ trainer, topic_count (get_tiers trainer))
              <$> values new_data) in
  let output : Output :=
    [("_metadata",
      OutMetadata
        (mkMetadata now (size new_data) total_topics
           "pokemon-masters-ex-game.fandom.com" "2.0"
           (if nonempty errors then errors else [])))] in
  output ←
    for_each (λ output name,
        rec ← getitem new_data name;
        Ok (setitem output name (OutTrainer rec)))
      (Str.sorted (keys new_data)) output;
  let changelog :=
    if nonempty changes then
      let inserted :=
        mkEntry now (size new_data) (length changes) changes
        :: updates changelog in
      mkChangelog (take 50 inserted)
    else changelog in
  Ok (mkSaved output changelog).

(** One run's arguments to [save_data]. *)
Record Run : Type := mkRun {
  run_now : string;
  run_data : Dataset;
  run_changes : list Change;
  run_errors : list string
}.

(** The entry a run with changes puts in the changelog. *)
Definition run_entry (r : Run) : ChangelogEntry :=
  mkEntry (run_now r) (size (run_data r)) (length (run_changes r))
    (run_changes r).

(** Successive runs: each is given the changelog the previous one
    stored. *)
Definition save_runs (runs : list Run) (changelog : Changelog)
    : result Changelog :=
  for_each (λ changelog r,
      saved ← save_data (run_now r) (run_data r) (run_changes r) changelog
                (run_errors r);
      Ok (changelog_file saved))
    runs changelog.

(** ** Loading the stored documents *)

(** [load_existing_data]; the argument is the parsed content of
    [DATA_FILE], or [None] when the file does not exist or cannot be read
    as a JSON object.  The dict comprehension keeps the order of the
    document. *)
Definition load_existing_data (file : option Output) : Output :=
  match file with
  | None => []
  | Some data => filter (λ kv, kv.1 ≠ "_metadata") data
  end.

(** The content of [CHANGELOG_FILE] as [json.load] yields it.  Nothing
    checks its shape, so it need not be a dict with a list under
    ["updates"]; of a document of another shape only the shape is kept,
    which decides what [save_data] does with it. *)
Inductive ChangelogDoc : Type :=
  | LogUpdates (changelog : Changelog)
      (** a dict whose ["updates"] is a list *)
  | LogUpdatesNotList
      (** a dict whose ["updates"] is a value of another type *)
  | LogNoUpdates
      (** a dict without ["updates"] *)
  | LogNotDict.
      (** a list, a string, a number, a boolean or [null] *)

(** [load_changelog]; the argument is the parsed content of
    [CHANGELOG_FILE], or [None] when the file does not exist or cannot
    be parsed.  What was parsed is returned as it is. *)
Definition load_changelog (file : option ChangelogDoc) : ChangelogDoc :=
  match file with
  | None => LogUpdates (mkChangelog [])
  | Some changelog => changelog
  end.

(** ** HTTP request with retry *)

Definition MAX_RETRIES : nat := 3.
Definition RETRY_DELAY : nat := 5.

(** What [api_request] reads of a response: [resp.status_code], the
    ["content-type"] header when there is one, and the value of
    [resp.json()], [None] when that call raises.  [J] is the type of
    decoded JSON values. *)
Record Response (J : Type) : Type := mkResponse {
  status_code : nat;
  content_type : option string;
  json_body : option J
}.
Arguments mkResponse {J} _ _ _.
Arguments status_code {J} _.
Arguments content_type {J} _.
Arguments json_body {J} _.

(** The outcome of one call of [scraper.get]. *)
Inductive GetResult (J : Type) : Type :=
  | GetRaises
  | GetReturns (resp : Response J).
Arguments GetRaises {J}.
Arguments GetReturns {J} resp.

(** What a call of [api_request] does besides returning: the pauses it
    takes, in order and in seconds, the number of requests it sends and
    the number of times it replaces the scraper. *)
Record Effects : Type := mkEffects {
  sleeps : list nat;
  requests : nat;
  new_scrapers : nat
}.

Definition sleep (seconds : nat) (w : Effects) : Effects :=
  mkEffects (sleeps w ++ [seconds]) (requests w) (new_scrapers w).
Definition request (w : Effects) : Effects :=
  mkEffects (sleeps w) (S (requests w)) (new_scrapers w).
Definition create_scraper (w : Effects) : Effects :=
  mkEffects (sleeps w) (requests w) (S (new_scrapers w)).

(** [if attempt < retries - 1: time.sleep(RETRY_DELAY * (attempt + 1))] *)
Definition backoff (retries attempt : nat) (w : Effects) : Effects :=
  if attempt <? retries - 1 then sleep (RETRY_DELAY * (attempt + 1)) w else w.

(** The loop of [api_request] over the attempts still to make.  [get i]
    is the outcome of the request of attempt [i]; the first component of
    the result is [data], [None] standing for the final
    [return None, scraper].  A body that decodes to [null] is returned
    as [Some] of it: the same Python value, told apart here only by the
    number of requests sent.  ([time.sleep] and the creation of a scraper
    are taken not to raise.) *)
Fixpoint api_request_loop {J : Type} (get : nat → GetResult J) (retries : nat)
    (attempts : list nat) (w : Effects) : option J * Effects :=
  match attempts with
  | [] => (None, w)
  | attempt :: rest =>
      let w := request w in
      match get attempt with
      | GetRaises =>
          api_request_loop get retries rest (backoff retries attempt w)
      | GetReturns resp =>
          if negb (status_code resp =? 200) then
            api_request_loop get retries rest (backoff retries attempt w)
          else if negb (Str.contains "json" (default "" (content_type resp)))
          then
            api_request_loop get retries rest
              (if attempt <? retries - 1
               then sleep (RETRY_DELAY * (attempt + 1)) (create_scraper w)
               else w)
          else
            match json_body resp with
            | Some data => (Some data, w)
            | None =>
                api_request_loop get retries rest (backoff retries attempt w)
            end
      end
  end.

Definition api_request {J : Type} (get : nat → GetResult J) (retries : nat)
    : option J * Effects :=
  api_request_loop get retries (seq 0 retries) (mkEffects [] 0 0).

(** ** Decoded JSON *)

(** A value returned by [resp.json()].  Numbers are integers here: a
    float takes part in the code modelled below only through being zero
    or not. *)
Inductive JSON : Type :=
  | JNull
  | JBool (b : bool)
  | JNum (n : Z)
  | JStr (s : string)
  | JArr (items : list JSON)
  | JObj (fields : gmap string JSON).

(** An exception no handler catches: the run ends with it. *)
Inductive Uncaught : Type :=
  | UncaughtTypeError
  | UncaughtAttributeError
  | UncaughtFrom (e : exn).

Inductive outcome (A : Type) : Type :=
  | Done (a : A)
  | Crash (u : Uncaught).
Arguments Done {A} a.
Arguments Crash {A} u.

#[global] Instance outcome_ret : MRet outcome := λ A a, Done a.
#[global] Instance outcome_bind : MBind outcome := λ A B f m,
  match m with Done a => f a | Crash u => Crash u end.

(** A call of a modelled function from the coordinator: what it raises
    is not caught. *)
Definition uncaught {A : Type} (r : result A) : outcome A :=
  match r with Ok a => Done a | Raise e => Crash (UncaughtFrom e) end.

Fixpoint for_each_run {S A : Type} (body : S → A → outcome S)
    (l : list A) (s : S) : outcome S :=
  match l with
  | [] => Done s
  | x :: l' => s' ← body s x; for_each_run body l' s'
  end.

(** Truth value of [data], the first component of what [api_request]
    returns: [None], or a decoded value ([null] decodes to [None]). *)
Definition json_truthy (j : JSON) : bool :=
  match j with
  | JNull => false
  | JBool b => b
  | JNum n => negb (n =? 0)%Z
  | JStr s => negb (String.eqb s "")
  | JArr items => nonempty items
  | JObj fields => negb (size fields =? 0)
  end.
Definition data_truthy (data : option JSON) : bool :=
  match data with Some j => json_truthy j | None => false end.

(** [j.get(k, default)]: only a dict has the method. *)
Definition json_get (j : JSON) (k : string) (default : JSON) : outcome JSON :=
  match j with
  | JObj fields => Done (from_option id default (fields !! k))
  | _ => Crash UncaughtAttributeError
  end.

(** [j[k]] under [try: ... except (KeyError, TypeError)]: [None] when
    either is raised (a missing key; a value that is not a dict). *)
Definition json_getitem (j : JSON) (k : string) : option JSON :=
  match j with
  | JObj fields => fields !! k
  | _ => None
  end.

(** [k in j] *)
Definition json_in (k : string) (j : JSON) : outcome bool :=
  match j with
  | JObj fields => Done (bool_decide (is_Some (fields !! k)))
  | JArr items =>
      Done (existsb (λ x, match x with
                          | JStr s => String.eqb s k
                          | _ => false
                          end) items)
  | JStr s => Done (Str.contains k s)
  | JNull | JBool _ | JNum _ => Crash UncaughtTypeError
  end.

(** [for member in j]: the items of a list, the keys of a dict, the
    characters of a string. *)
Definition json_iter (j : JSON) : outcome (list JSON) :=
  match j with
  | JArr items => Done items
  | JObj fields => Done (JStr <$> keys fields)
  | JStr s => Done ((λ c, JStr (String c "")) <$> list_ascii_of_string s)
  | JNull | JBool _ | JNum _ => Crash UncaughtTypeError
  end.

(** ** Discovery of trainers *)

Definition HARDCODED_TRAINERS : list string :=
  ["Acerola"; "Adaman"; "Arven"; "Ball Guy"; "Blue"; "Brendan";
   "Calem"; "Carmine"; "Cheren"; "Cynthia"; "Dawn"; "Diantha";
   "Elesa"; "Giovanni"; "Gladion"; "Gloria"; "Grimsley"; "Hilda";
   "Iono"; "Irida"; "Iris"; "Jasmine"; "Kabu"; "Lacey"; "Lana";
   "Lance"; "Larry"; "Leaf"; "Lear"; "Leon"; "Lillie"; "Lusamine";
   "Marnie"; "May"; "Morty"; "N"; "Penny"; "Piers";
   "Professor Sycamore"; "Raihan"; "Rika"; "Rosa"; "Serena";
   "Shauna"; "Silver"; "Skyla"; "Steven"; "Volkner"; "Volo"; "Wally"].

Definition SKIP_PAGES : gset string :=
  {[ "Trainer Lodge"; "Trainer Lodge/Expeditions";
     "Trainer Lodge/Lodge Exchange"; "Trainer Lodge/Redecorate" ]}.

(** [s.replace(old, new)] for a non-empty [old]: every occurrence,
    leftmost first and without overlap, as [s.split(old)] finds them. *)
Definition str_replace (old new s : string) : string :=
  Str.join new (Str.split old s).

(** Body of the loop of [discover_trainers] over [members]. *)
Definition discover_member (wiki_trainers : list string) (member : JSON)
    : outcome (list string) :=
  title ← json_get member "title" (JStr "");
  match title with
  | JStr title =>
      if Str.startswith "Trainer Lodge/" title
         && negb (bool_decide (title ∈ SKIP_PAGES))
      then
        let name := str_replace "Trainer Lodge/" "" title in
        if (0 <? String.length name) && (String.length name <? 50)
        then Done (wiki_trainers ++ [name])
        else Done wiki_trainers
      else Done wiki_trainers
  | _ => Crash UncaughtAttributeError
  end.

(** [discover_trainers]; [data] is what its call of [api_request]
    returned. *)
Definition discover_trainers (data : option JSON) : outcome (list string) :=
  match data with
  | Some data =>
      if negb (json_truthy data) then Done []
      else
        query ← json_get data "query" (JObj ∅);
        members ← json_get query "categorymembers" (JArr []);
        members ← json_iter members;
        for_each_run discover_member members []
  | None => Done []
  end.

(** ** The run *)

(** [sorted(set(HARDCODED_TRAINERS + wiki_trainers))] without the three
    names of [skip_names]. *)
Definition skip_names : gset string :=
  {[ "Expeditions"; "Lodge Exchange"; "Redecorate" ]}.

Definition all_trainers (wiki_trainers : list string) : list string :=
  filter (λ t, t ∉ skip_names)
    (sorted_set (list_to_set (HARDCODED_TRAINERS ++ wiki_trainers))).

(** The state of the scraping loop of [main]: [new_data] and [errors]. *)
Definition scrape_state : Type := Dataset * list string.

(** [data["parse"]["wikitext"]["*"]] under its [try]: [None] when
    [KeyError] or [TypeError] is raised. *)
Definition response_wikitext (data : JSON) : option JSON :=
  match json_getitem data "parse" with
  | Some parse =>
      match json_getitem parse "wikitext" with
      | Some wikitext => json_getitem wikitext "*"
      | None => None
      end
  | None => None
  end.

(** Body of the scraping loop of [main]; [data] is what the call of
    [api_request] for the page of [name] returned. *)
Definition scrape_trainer (data : option JSON) (st : scrape_state)
    (name : string) : outcome scrape_state :=
  let '(new_data, errors) := st in
  match data with
  | Some data =>
      if negb (json_truthy data) then Done (new_data, errors ++ [name])
      else
        has_error ← json_in "error" data;
        if (has_error : bool) then
          error ← match data with
                  | JObj fields =>
                      Done (from_option id JNull (fields !! "error"))
                  | _ => Crash UncaughtTypeError
                  end;
          _ ← json_get error "info" (JStr "unknown");
          Done (new_data, errors ++ [name])
        else
          match response_wikitext data with
          | None => Done (new_data, errors ++ [name])
          | Some (JStr wikitext) =>
              trainer_result ← uncaught (parse_wikitext wikitext name);
              result_tiers ←
                match tiers trainer_result with
                | Some t => Done t
                | None => Crash (UncaughtFrom (KeyError "tiers"))
                end;
              let tier_count := size result_tiers in
              if 0 <? tier_count
              then Done (<[name := trainer_result]> new_data, errors)
              else Done (new_data, errors ++ [name])
          | Some _ => Crash UncaughtTypeError
          end
  | None => Done (new_data, errors ++ [name])
  end.

(** [existing_data] as [compare_data] reads it.  A value that is not a
    trainer record can only be a metadata record under another key, a
    dict without ["tiers"]; [compare_data] reads nothing else of it. *)
Definition existing_dataset (existing_data : Output) : Dataset :=
  list_to_map
    ((λ kv : string * OutputValue,
        (kv.1, match kv.2 with
               | OutTrainer t => t
               | OutMetadata _ => mkTrainer "" None
               end)) <$> existing_data).

(** [changelog["updates"]] followed by [.insert]: [KeyError] on a dict
    without the key, [AttributeError] on a value that is not a list,
    [TypeError] on a document that is not a dict. *)
Definition updates_list (changelog : ChangelogDoc) : outcome Changelog :=
  match changelog with
  | LogUpdates changelog => Done changelog
  | LogUpdatesNotList => Crash UncaughtAttributeError
  | LogNoUpdates => Crash (UncaughtFrom (KeyError "updates"))
  | LogNotDict => Crash UncaughtTypeError
  end.

(** [save_data] as [main] calls it, on the changelog as it was loaded:
    the data document is built as in [save_data] above; the changelog is
    touched only when there are changes, and is written back as it is
    otherwise.  The result is the pair of documents written; a [Crash]
    tells nothing of what was written before it. *)
Definition save_data_doc (now : string) (new_data : Dataset)
    (changes : list Change) (changelog : ChangelogDoc) (errors : list string)
    : outcome (Output * ChangelogDoc) :=
  let total_topics :=
    sum_list ((λ trainer, topic_count (get_tiers trainer))
              <$> values new_data) in
  let output : Output :=
    [("_metadata",
      OutMetadata
        (mkMetadata now (size new_data) total_topics
           "pokemon-masters-ex-game.fandom.com" "2.0"
           (if nonempty errors then errors else [])))] in
  output ←
    uncaught
      (for_each (λ output name,
           rec ← getitem new_data name;
           Ok (setitem output name (OutTrainer rec)))
         (Str.sorted (keys new_data)) output);
  changelog ←
    (if nonempty changes then
       stored ← updates_list changelog;
       let inserted :=
         mkEntry now (size new_data) (length changes) changes
         :: updates stored in
       Done (LogUpdates (mkChangelog (take 50 inserted)))
     else Done changelog);
  Done (output, changelog).

(** What a run finds: the two stored documents, the clock, and the
    answers to its requests, attempt by attempt, for the category page
    and for each trainer page. *)
Record World : Type := mkWorld {
  stored_data : option Output;
  stored_changelog : option ChangelogDoc;
  clock : string;
  category_answers : nat → GetResult JSON;
  page_answers : string → nat → GetResult JSON
}.

(** What a run leaves: the two documents it writes and its exit code;
    with them the values of [new_data], [errors] and [changes] at the
    end of the run. *)
Record RunResult : Type := mkRunResult {
  run_data_file : Output;
  run_changelog_file : ChangelogDoc;
  run_new_data : Dataset;
  run_errors_list : list string;
  run_changes_list : list Change;
  exit_code : nat
}.

(** [main].  The test [len(errors) > total * 0.5] is taken over the
    integers as [total < 2 * len(errors)]: halving a list length is exact
    in floating point. *)
Definition main (w : World) : outcome RunResult :=
  let existing_data := load_existing_data (stored_data w) in
  let changelog := load_changelog (stored_changelog w) in
  wiki_trainers ←
    discover_trainers (api_request (category_answers w) MAX_RETRIES).1;
  let all_trainers := all_trainers wiki_trainers in
  let total := length all_trainers in
  st ← for_each_run
         (λ st name,
            scrape_trainer (api_request (page_answers w name) MAX_RETRIES).1
              st name)
         all_trainers (∅, []);
  let '(new_data, errors) := st in
  changes ← uncaught (compare_data (existing_dataset existing_data) new_data);
  saved ← save_data_doc (clock w) new_data changes changelog errors;
  Done (mkRunResult saved.1 saved.2 new_data errors changes
          (if total <? 2 * length errors then 1 else 0)).

(** ** Notions used in the statements *)

(** *** Parser *)

(** The category a line opens, when it is a category header: the
    conditions and the normalisation are those of [tier_line]. *)
Definition header_name (line : string) : option string :=
  let line := Str.strip line in
  if is_table_markup line then None
  else
    match Re.match_ cat_pattern line with
    | Some cat_match =>
        match Re.m_group1 cat_match with
        | Some g =>
            let c := Str.strip g in
            Some (if Str.contains "Pok" c then "Pokemon" else c)
        | None => None
        end
    | None => None
    end.

(** The entries a line adds to the active category, when it is a topic
    line: again the conditions of [tier_line]. *)
Definition line_topics (line : string) : list string :=
  let line := Str.strip line in
  if is_table_markup line then []
  else if Str.startswith "|" line && negb (Str.startswith "{|" line) then
    let raw := Str.strip (Str.slice_from 1 line) in
    if String.eqb raw "" || Str.startswith "class=" raw
       || Str.startswith "style=" raw
    then []
    else if Str.contains "||" raw
    then filter (λ t, t ≠ "") (Str.strip <$> Str.split "||" raw)
    else [raw]
  else [].

(** The loop state is consistent when the active category is a key. *)
Definition tier_inv (st : tier_state) : Prop :=
  ∀ c, st.2 = Some c → is_Some (st.1 !! c).

(** Topics added to the active category, if there is one. *)
Definition extend_topics (categories : Categories) (cur : option string)
    (ts : list string) : Categories :=
  if truthy cur then
    let cat := default "" cur in
    match categories !! cat with
    | Some topics => <[cat := topics ++ ts]> categories
    | None => categories
    end
  else categories.

(** The tier name and the content the loop of [parse_wikitext] works on
    at one match. *)
Definition section_of (wikitext : string) (tier_matches : list Re.Match)
    (im : nat * Re.Match) : option (string * string) :=
  match Re.m_group1 im.2, tier_end wikitext tier_matches im.1 (Re.m_end im.2) with
  | Some tier_name, Ok end_ =>
      Some (tier_name, Str.slice (Re.m_end im.2) end_ wikitext)
  | _, _ => None
  end.


(** *** More on the parser *)

(** The three tier labels of [tier_pattern]. *)
Definition tier_names : list string :=
  ["Interesting"; "Exciting"; "Super Exciting"].

(** [r] has no capture group. *)
Fixpoint no_group (r : Re.regex) : bool :=
  match r with
  | Re.Grp _ => false
  | Re.Seq r1 r2 | Re.Alt r1 r2 => no_group r1 && no_group r2
  | _ => true
  end.

(** Every entry of every category is non-empty and stripped. *)
Definition clean_entries (categories : Categories) : Prop :=
  ∀ c topics t, categories !! c = Some topics → t ∈ topics →
                t ≠ "" ∧ Str.strip t = t.

(** *** Change detector *)

(** The entry list [compare_data] reads for a (tier, category) pair: a
    missing tier or category counts as the empty list. *)
Definition topics_of (t : Tiers) (tier_name cat_name : string) : list string :=
  get_or_nil (get_or_empty t tier_name) cat_name.

(** The two sides hold the same entries in every category, as sets. *)
Definition set_equal_topics (old_tiers new_tiers : Tiers) : Prop :=
  ∀ tier_name cat_name,
    list_to_set (topics_of old_tiers tier_name cat_name)
    =@{gset string} list_to_set (topics_of new_tiers tier_name cat_name).

(** Same tiers, same categories in each tier, and in each category the
    same entries as sets. *)
Definition same_as_sets (old_tiers new_tiers : Tiers) : Prop :=
  dom old_tiers = dom new_tiers ∧
  ∀ tier_name old_cats new_cats,
    old_tiers !! tier_name = Some old_cats →
    new_tiers !! tier_name = Some new_cats →
    dom old_cats = dom new_cats ∧
    ∀ cat_name old_topics new_topics,
      old_cats !! cat_name = Some old_topics →
      new_cats !! cat_name = Some new_topics →
      list_to_set old_topics =@{gset string} list_to_set new_topics.

Definition is_modified (c : Change) : bool :=
  match c with modified_trainer _ _ => true | _ => false end.

(** What [compare_data] can see of a dataset. *)
Definition tiers_view (data : Dataset) : gmap string Tiers := get_tiers <$> data.

(** *** More on the change detector *)

Definition is_new (c : Change) : bool :=
  match c with new_trainer _ _ => true | _ => false end.

Definition is_removed (c : Change) : bool :=
  match c with removed_trainer _ => true | _ => false end.

(** The ["details"] text of a [new_trainer] record. *)
Definition new_summary (tiers : Tiers) : string :=
  Str.of_nat (size tiers) +:+ " tiers, " +:+
  Str.of_nat (topic_count tiers) +:+ " topics".

(** *** Reading back an escaped character *)

Definition hex_value (c : ascii) : nat :=
  let n := nat_of_ascii c in
  if n <? 58 then n - 48 else n - 87.

(** The character at the head of the output of [Json.escape], and the
    rest; [None] where a string literal ends. *)
Definition unescape_char (s : string) : option (ascii * string) :=
  match s with
  | String a rest =>
      if Ascii.eqb a "\"%char then
        match rest with
        | String b rest' =>
            if Ascii.eqb b "u"%char then
              match rest' with
              | String _ (String _ (String h1 (String h2 rest''))) =>
                  Some (ascii_of_nat (16 * hex_value h1 + hex_value h2), rest'')
              | _ => None
              end
            else if Ascii.eqb b "n"%char then Some ("010"%char, rest')
            else if Ascii.eqb b "r"%char then Some ("013"%char, rest')
            else if Ascii.eqb b "t"%char then Some ("009"%char, rest')
            else if Ascii.eqb b "b"%char then Some ("008"%char, rest')
            else if Ascii.eqb b "f"%char then Some ("012"%char, rest')
            else Some (b, rest')
        | EmptyString => None
        end
      else if Ascii.eqb a "034"%char then None
      else Some (a, rest)
  | EmptyString => None
  end.

(** An encoder whose output can be told from whatever follows it. *)
Definition self_delimiting {A : Type} (enc : A → string) : Prop :=
  ∀ x y r1 r2, enc x +:+ r1 = enc y +:+ r2 → x = y ∧ r1 = r2.

Definition starts_with_quote {A : Type} (enc : A → string) : Prop :=
  ∀ x, ∃ rest, enc x = String "034"%char rest.

(** *** Snapshot store *)

(** The changelog [save_data] stores. *)
Definition next_changelog (now : string) (new_data : Dataset)
    (changes : list Change) (changelog : Changelog) : Changelog :=
  if nonempty changes
  then mkChangelog
         (take 50 (mkEntry now (size new_data) (length changes) changes
                   :: updates changelog))
  else changelog.

(** The metadata record [save_data] builds. *)
Definition run_metadata (now : string) (new_data : Dataset)
    (errors : list string) : Metadata :=
  mkMetadata now (size new_data)
    (sum_list ((λ trainer, topic_count (get_tiers trainer)) <$> values new_data))
    "pokemon-masters-ex-game.fandom.com" "2.0" errors.

(** The trainers of a dataset as entries of the data document, in
    sorted order of the names. *)
Definition trainer_entries (new_data : Dataset) : Output :=
  omap (λ trainer, rec ← new_data !! trainer; Some (trainer, OutTrainer rec))
    (Str.sorted (keys new_data)).

Definition has_changes (r : Run) : bool := nonempty (run_changes r).

(** *** Requests *)

(** The body of a response [api_request] accepts: status 200, a content
    type that mentions ["json"], and a body that decodes. *)
Definition accepted {J : Type} (g : GetResult J) : option J :=
  match g with
  | GetRaises => None
  | GetReturns resp =>
      if (status_code resp =? 200)
         && Str.contains "json" (default "" (content_type resp))
      then json_body resp
      else None
  end.

(** The first attempt of a list that is accepted, with its body. *)
Fixpoint first_accepted {J : Type} (get : nat → GetResult J)
    (attempts : list nat) : option (nat * J) :=
  match attempts with
  | [] => None
  | i :: rest =>
      match accepted (get i) with
      | Some data => Some (i, data)
      | None => first_accepted get rest
      end
  end.

(** The pause after failed attempt [i]. *)
Definition delay (i : nat) : nat := RETRY_DELAY * (i + 1).

(** The Python value of the first component of what [api_request]
    returns: the decoded body, which is [None] for the body [null], or
    the [None] of the last line when every attempt failed. *)
Definition returned_value (data : option JSON) : JSON := default JNull data.

(** *** Discovery and the run *)

(** The members [discover_trainers] goes through:
    [data.get("query", {}).get("categorymembers", [])], iterated. *)
Definition category_members (data : JSON) : outcome (list JSON) :=
  query ← json_get data "query" (JObj ∅);
  members ← json_get query "categorymembers" (JArr []);
  json_iter members.

(** [member] is a dict whose ["title"] is the string [title]. *)
Definition member_title (member : JSON) (title : string) : Prop :=
  ∃ fields, member = JObj fields ∧ fields !! "title" = Some (JStr title).

(** A member of the category listing as the wiki sends it: a dict whose
    ["title"], when present, is a string. *)
Definition member_ok (member : JSON) : Prop :=
  ∃ fields, member = JObj fields
            ∧ ∀ title, fields !! "title" = Some title → ∃ t, title = JStr t.

(** What the scraping loop does with one trainer: the record it stores,
    or [None] when it files the name under [errors]. *)
Definition scrape_result (data : option JSON) (name : string)
    : outcome (option Trainer) :=
  match scrape_trainer data (∅, []) name with
  | Done st => Done (st.1 !! name)
  | Crash u => Crash u
  end.

Definition scrape_failed (data : option JSON) (name : string) : bool :=
  match scrape_result data name with
  | Done None => true
  | _ => false
  end.

(** ** Sample data *)

Definition one_trainer (trainer : string) (topics : list string) : Dataset :=
  {[ trainer :=
       mkTrainer trainer (Some {[ "Interesting" := {[ "Pokemon" := topics ]} ]}) ]}.

Definition sample_run (i : nat) : Run :=
  mkRun (Str.of_nat i) ∅ [removed_trainer (Str.of_nat i)] [].

Definition e_acute : string := String "233"%char "".


(** The answer of the wiki to the category query, for given titles. *)
Definition category_listing (titles : list string) : JSON :=
  JObj {[ "query" :=
            JObj {[ "categorymembers" :=
                      JArr ((λ t, JObj {[ "title" := JStr t ]}) <$> titles) ]} ]}.

(** The wiki as a run finds it when only the page of Iris is served. *)
Definition iris_page : JSON :=
  JObj {[ "parse" :=
            JObj {[ "wikitext" :=
                      JObj {[ "*" :=
                                JStr ("=== Interesting ===" +:+ NL +:+
                                      "!colspan=2|Food" +:+ NL +:+ "|Curry") ]} ]} ]}.

Definition sample_world : World :=
  mkWorld None None "2024-01-01 00:00 UTC"
    (λ _, GetRaises)
    (λ name attempt,
       if String.eqb name "Iris" && (attempt =? 1)
       then GetReturns (mkResponse 200 (Some "application/json") (Some iris_page))
       else GetRaises).

(** The world the next run finds after a run: the documents that run
    wrote, and the same answers from the wiki. *)
Definition next_world (w : World) (r : RunResult) (now : string) : World :=
  mkWorld (Some (run_data_file r)) (Some (run_changelog_file r))
    now (category_answers w) (page_answers w).

(** A wiki that answers no request. *)
Definition dead_world (file : option Output) (log : option ChangelogDoc)
    (now : string) : World :=
  mkWorld file log now (λ _, GetRaises) (λ _ _, GetRaises).

(** A wiki that answers no request, a stored trainer, and a stored
    changelog that is the empty dict. *)
Definition dead_world_no_updates : World :=
  dead_world (Some (trainer_entries (one_trainer "Iris" ["Curry"])))
    (Some LogNoUpdates) "2024-01-02 00:00 UTC".

(** * Properties *)

(** ** The runtime model on small inputs *)

Example strip_both_ends : Str.strip (NL +:+ "  a b " +:+ NL) = "a b".
Proof. reflexivity. Qed.

Example strip_blank : Str.strip "   " = "".
Proof. reflexivity. Qed.

Example split_leftmost : Str.split "||" "a|||b" = ["a"; "|b"].
Proof. reflexivity. Qed.

Example split_trailing : Str.split "||" "a||" = ["a"; ""].
Proof. reflexivity. Qed.

Example split_empty : Str.split NL "" = [""].
Proof. reflexivity. Qed.

Example contains_case_sensitive :
  Str.contains "Pok" "Sync Pokemon" = true ∧ Str.contains "Pok" "pokemon" = false.
Proof. split; reflexivity. Qed.

Example sorted_code_points : Str.sorted ["b"; "a"; "B"; "ab"] = ["B"; "a"; "ab"; "b"].
Proof. reflexivity. Qed.

Example finditer_tiers :
  Re.finditer tier_pattern "x=== Super Exciting ===y===Exciting==== Other ==="
  = [Re.mkMatch 1 23 (Some "Super Exciting"); Re.mkMatch 24 38 (Some "Exciting")].
Proof. vm_compute. reflexivity. Qed.

Example search_scrapbook :
  Re.m_start <$> Re.search scrapbook_pattern "abc ==  Scrapbook ==" = Some 4.
Proof. vm_compute. reflexivity. Qed.

Example match_header :
  Re.m_group1 <$> Re.match_ cat_pattern "!colspan='12'| Food " = Some (Some " Food ")
  ∧ Re.match_ cat_pattern "!colspan=|Food" = None
  ∧ Re.match_ cat_pattern "x!colspan=2|Food" = None
  ∧ Re.match_ cat_pattern "!colspan=2|" = None.
Proof. repeat split; vm_compute; reflexivity. Qed.

Example dumps_empty : Json.dumps ∅ = "{}".
Proof. vm_compute. reflexivity. Qed.

Example dumps_nested :
  Json.dumps {[ "T" := {[ "b" := ["x"; "y"]; "a" := [] ]} ]}
  = "{" +:+ Json.quote +:+ "T" +:+ Json.quote +:+ ": {"
    +:+ Json.quote +:+ "a" +:+ Json.quote +:+ ": [], "
    +:+ Json.quote +:+ "b" +:+ Json.quote +:+ ": ["
    +:+ Json.quote +:+ "x" +:+ Json.quote +:+ ", "
    +:+ Json.quote +:+ "y" +:+ Json.quote +:+ "]}}".
Proof. vm_compute. reflexivity. Qed.

Example escape_special :
  Json.escape ("a\b" +:+ e_acute +:+ NL +:+ String "127"%char "")
  = "a\\b\u00e9\n\u007f".
Proof. vm_compute. reflexivity. Qed.

(** The equality test of [compare_data] is sensitive to the order of the
    entries. *)
Example dumps_order_sensitive :
  Json.dumps {[ "T" := {[ "c" := ["x"; "y"] ]} ]}
  ≠ Json.dumps {[ "T" := {[ "c" := ["y"; "x"] ]} ]}.
Proof. vm_compute. discriminate. Qed.

Example parse_sample_page :
  parse_wikitext
    ("intro" +:+ NL +:+ "=== Interesting ===" +:+ NL +:+
     "{| class=wikitable" +:+ NL +:+
     "!colspan='2'|Pok" +:+ e_acute +:+ "mon" +:+ NL +:+
     "|-" +:+ NL +:+ "|Pikachu||Eevee" +:+ NL +:+ "|-" +:+ NL +:+
     "!colspan=2| Food " +:+ NL +:+ "| style=x" +:+ NL +:+ "|}" +:+ NL +:+
     "==== Notes ====" +:+ NL +:+
     "=== Exciting ===" +:+ NL +:+ "== Scrapbook ==" +:+ NL +:+ "|x")
    "Acerola"
  = Ok (mkTrainer "Acerola"
          (Some {[ "Interesting" :=
                     {[ "Pokemon" := ["Pikachu"; "Eevee"]; "Food" := [] ]} ]})).
Proof. vm_compute. reflexivity. Qed.

(** New trainers first, then removed ones, then modified ones, each
    group in the order of the names. *)
Example compare_data_order :
  compare_data
    (one_trainer "B" ["X"] ∪ one_trainer "A" ["X"] ∪ one_trainer "Z" ["X"])
    (one_trainer "B" ["Y"] ∪ one_trainer "D" ["P"; "Q"] ∪ one_trainer "C" [])
  = Ok [new_trainer "C" "1 tiers, 0 topics";
        new_trainer "D" "1 tiers, 2 topics";
        removed_trainer "A"; removed_trainer "Z";
        modified_trainer "B" "+[Interesting/Pokemon]: Y; -[Interesting/Pokemon]: X"].
Proof. vm_compute. reflexivity. Qed.

Lemma sorted_is_sorted (l : list string) :
  Sorted String.le (Str.sorted l) ∧ Str.sorted l ≡ₚ l.
Proof.
  split; [apply (Sorted_merge_sort String.le)|apply merge_sort_Permutation].
Qed.

(** ** Loops *)

Section for_each_facts.
Context {S A : Type} (body : S → A → result S).

Lemma for_each_app (l1 l2 : list A) (s : S) :
  for_each body (l1 ++ l2) s = s' ← for_each body l1 s; for_each body l2 s'.
Proof.
  revert s. induction l1 as [|x l1 IH]; intros s; simpl; [done|].
  destruct (body s x) as [s'|e]; simpl; [apply IH|done].
Qed.

(** A loop whose every iteration leaves the state alone. *)
Lemma for_each_skip (l : list A) (s : S) :
  (∀ x, x ∈ l → body s x = Ok s) → for_each body l s = Ok s.
Proof.
  induction l as [|x l IH]; intros Hskip; simpl; [done|].
  rewrite Hskip by left. simpl. apply IH. intros y Hy. apply Hskip. by right.
Qed.

(** A loop whose every iteration succeeds and keeps [P]. *)
Lemma for_each_invariant (P : S → Prop) (l : list A) (s : S) :
  P s →
  (∀ s x, x ∈ l → P s → ∃ s', body s x = Ok s' ∧ P s') →
  ∃ s', for_each body l s = Ok s' ∧ P s'.
Proof.
  revert s. induction l as [|x l IH]; intros s HP Hstep; simpl; [eauto|].
  destruct (Hstep s x) as (s1 & -> & HP1); [by left|done|]. simpl.
  apply IH; [done|]. intros s2 y Hy. apply Hstep. by right.
Qed.
End for_each_facts.

Lemma foldl_skip {S A : Type} (f : S → A → S) (l : list A) (s : S) :
  (∀ x, f s x = s) → foldl f s l = s.
Proof. intros Hf. induction l as [|x l IH]; simpl; [done|]. by rewrite Hf. Qed.

(** ** [sorted], [keys], sets *)

Lemma elem_of_sorted (x : string) (l : list string) : x ∈ Str.sorted l ↔ x ∈ l.
Proof. unfold Str.sorted. by rewrite merge_sort_Permutation. Qed.

Lemma elem_of_sorted_set (x : string) (s : gset string) :
  x ∈ sorted_set s ↔ x ∈ s.
Proof. unfold sorted_set. by rewrite elem_of_sorted, elem_of_elements. Qed.

Lemma sorted_set_empty : sorted_set ∅ = [].
Proof. unfold sorted_set. by rewrite elements_empty. Qed.

Lemma elem_of_keys {V : Type} (d : gmap string V) (k : string) :
  k ∈ keys d ↔ is_Some (d !! k).
Proof.
  unfold keys. rewrite list_elem_of_fmap. split.
  - intros ([k' v] & -> & Hkv). apply elem_of_map_to_list in Hkv. eauto.
  - intros [v Hv]. exists (k, v). split; [done|]. by apply elem_of_map_to_list.
Qed.

Lemma elem_of_names {V : Type} (d : gmap string V) (k : string) :
  k ∈ (list_to_set (keys d) : gset string) ↔ is_Some (d !! k).
Proof. by rewrite elem_of_list_to_set, elem_of_keys. Qed.

Lemma getitem_Some {V : Type} (d : gmap string V) (k : string) (v : V) :
  d !! k = Some v → getitem d k = Ok v.
Proof. unfold getitem. by intros ->. Qed.

(** ** Change detector *)

Lemma category_step_set_equal tier_name (old_cats new_cats : Categories)
    details cat_name :
  list_to_set (get_or_nil old_cats cat_name)
  =@{gset string} list_to_set (get_or_nil new_cats cat_name) →
  category_step tier_name old_cats new_cats details cat_name = details.
Proof.
  intros Heq. unfold category_step. rewrite Heq.
  by rewrite difference_diag_L, sorted_set_empty.
Qed.

Lemma trainer_details_set_equal (old_tiers new_tiers : Tiers) :
  set_equal_topics old_tiers new_tiers →
  trainer_details old_tiers new_tiers = [].
Proof.
  intros Heq. unfold trainer_details. apply foldl_skip. intros tier_name.
  unfold tier_step. apply foldl_skip. intros cat_name.
  apply category_step_set_equal, Heq.
Qed.

(** Every record of the result is accounted for by one of the three
    loops; in particular [compare_data] raises nothing. *)
Lemma compare_data_Forall (P : Change → Prop) (old_data new_data : Dataset) :
  (∀ trainer details,
     old_data !! trainer = None → is_Some (new_data !! trainer) →
     P (new_trainer trainer details)) →
  (∀ trainer,
     is_Some (old_data !! trainer) → new_data !! trainer = None →
     P (removed_trainer trainer)) →
  (∀ trainer o n,
     old_data !! trainer = Some o → new_data !! trainer = Some n →
     Json.dumps (get_tiers o) ≠ Json.dumps (get_tiers n) →
     trainer_details (get_tiers o) (get_tiers n) ≠ [] →
     P (modified_trainer trainer
          (Str.join "; " (trainer_details (get_tiers o) (get_tiers n))))) →
  ∃ changes, compare_data old_data new_data = Ok changes ∧ Forall P changes.
Proof.
  intros Hnew Hremoved Hmodified. unfold compare_data.
  destruct (for_each_invariant (new_trainer_step new_data) (Forall P)
    (sorted_set (list_to_set (keys new_data) ∖ list_to_set (keys old_data))) [])
    as (changes1 & -> & HP1); [done| |].
  { intros changes trainer Hin HP.
    apply elem_of_sorted_set, elem_of_difference in Hin as [Hn Ho].
    rewrite elem_of_names in Hn. rewrite elem_of_names in Ho.
    destruct Hn as [n Hn]. unfold new_trainer_step.
    rewrite (getitem_Some _ _ _ Hn). simpl. eexists; split; [done|].
    apply Forall_app; split; [done|]. apply Forall_singleton, Hnew; [|eauto].
    by apply eq_None_not_Some. }
  simpl.
  destruct (for_each_invariant removed_trainer_step (Forall P)
    (sorted_set (list_to_set (keys old_data) ∖ list_to_set (keys new_data)))
    changes1) as (changes2 & -> & HP2); [done| |].
  { intros changes trainer Hin HP.
    apply elem_of_sorted_set, elem_of_difference in Hin as [Ho Hn].
    rewrite elem_of_names in Hn. rewrite elem_of_names in Ho.
    unfold removed_trainer_step. eexists; split; [done|].
    apply Forall_app; split; [done|]. apply Forall_singleton, Hremoved; [done|].
    by apply eq_None_not_Some. }
  simpl.
  apply for_each_invariant; [done|].
  intros changes trainer Hin HP.
  apply elem_of_sorted_set, elem_of_intersection in Hin as [Ho Hn].
  rewrite elem_of_names in Hn. rewrite elem_of_names in Ho.
  destruct Ho as [o Ho], Hn as [n Hn]. unfold modified_trainer_step.
  rewrite (getitem_Some _ _ _ Ho), (getitem_Some _ _ _ Hn).
  cbn [mbind result_bind].
  destruct (String.eqb_spec (Json.dumps (get_tiers o)) (Json.dumps (get_tiers n)))
    as [|Hdumps]; [eauto|].
  destruct (trainer_details (get_tiers o) (get_tiers n)) as [|d details] eqn:Hd;
    cbn [nonempty]; [eauto|].
  eexists; split; [done|]. apply Forall_app; split; [done|].
  apply Forall_singleton. rewrite <- Hd. apply Hmodified; try done.
  by rewrite Hd.
Qed.

Lemma for_each_ext {S A : Type} (f g : S → A → result S) (l : list A) (s : S) :
  (∀ s x, f s x = g s x) → for_each f l s = for_each g l s.
Proof.
  intros Hfg. revert s. induction l as [|x l IH]; intros s; simpl; [done|].
  rewrite Hfg. destruct (g s x); simpl; auto.
Qed.

Lemma tiers_view_lookup (data data' : Dataset) (k : string) :
  tiers_view data' = tiers_view data →
  get_tiers <$> data' !! k = get_tiers <$> data !! k.
Proof. unfold tiers_view. intros Hv. by rewrite <- !lookup_fmap, Hv. Qed.

Lemma tiers_view_names (data data' : Dataset) :
  tiers_view data' = tiers_view data →
  list_to_set (keys data') =@{gset string} list_to_set (keys data).
Proof.
  intros Hv. apply set_eq. intros k. rewrite !elem_of_names.
  rewrite <- (fmap_is_Some get_tiers (data' !! k)).
  rewrite <- (fmap_is_Some get_tiers (data !! k)).
  by rewrite (tiers_view_lookup _ _ _ Hv).
Qed.

Lemma tiers_view_getitem {B : Type} (data data' : Dataset) (k : string)
    (f : Tiers → result B) :
  tiers_view data' = tiers_view data →
  (rec ← getitem data' k; f (get_tiers rec))
  = (rec ← getitem data k; f (get_tiers rec)).
Proof.
  intros Hv. pose proof (tiers_view_lookup _ _ k Hv) as Hk. unfold getitem.
  destruct (data' !! k), (data !! k); simplify_eq/=; [|done]. by rewrite Hk.
Qed.

Lemma compare_data_tiers_view (old_data new_data old_data' new_data' : Dataset) :
  tiers_view old_data' = tiers_view old_data →
  tiers_view new_data' = tiers_view new_data →
  compare_data old_data' new_data' = compare_data old_data new_data.
Proof.
  intros Hold Hnew. unfold compare_data.
  rewrite (tiers_view_names _ _ Hold), (tiers_view_names _ _ Hnew).
  rewrite (for_each_ext (new_trainer_step new_data') (new_trainer_step new_data)).
  2:{ intros changes trainer. unfold new_trainer_step.
      apply (tiers_view_getitem _ _ _
        (λ t, Ok (changes ++
           [new_trainer trainer
              (Str.of_nat (size t) +:+ " tiers, " +:+
               Str.of_nat (topic_count t) +:+ " topics")])) Hnew). }
  destruct (for_each (new_trainer_step new_data) _ _) as [changes1|]; [|done].
  cbn [mbind result_bind].
  destruct (for_each removed_trainer_step _ _) as [changes2|]; [|done].
  cbn [mbind result_bind].
  apply for_each_ext. intros changes trainer. unfold modified_trainer_step.
  rewrite (tiers_view_getitem _ _ trainer
    (λ t_old, new_rec ← getitem new_data' trainer;
       if String.eqb (Json.dumps t_old) (Json.dumps (get_tiers new_rec))
       then Ok changes
       else if nonempty (trainer_details t_old (get_tiers new_rec))
         then Ok (changes ++ [modified_trainer trainer
                (Str.join "; " (trainer_details t_old (get_tiers new_rec)))])
         else Ok changes) Hold).
  destruct (getitem old_data trainer) as [old_rec|]; [|done].
  cbn [mbind result_bind].
  apply (tiers_view_getitem _ _ trainer
    (λ t_new,
       if String.eqb (Json.dumps (get_tiers old_rec)) (Json.dumps t_new)
       then Ok changes
       else if nonempty (trainer_details (get_tiers old_rec) t_new)
         then Ok (changes ++ [modified_trainer trainer
                (Str.join "; " (trainer_details (get_tiers old_rec) t_new))])
         else Ok changes) Hnew).
Qed.

Lemma same_as_sets_topics (old_tiers new_tiers : Tiers) :
  same_as_sets old_tiers new_tiers → set_equal_topics old_tiers new_tiers.
Proof.
  intros [Hdom Htier] tier_name cat_name. unfold topics_of, get_or_empty.
  destruct (old_tiers !! tier_name) as [old_cats|] eqn:Ho,
           (new_tiers !! tier_name) as [new_cats|] eqn:Hn; simpl.
  - destruct (Htier _ _ _ Ho Hn) as [Hdom' Hcat]. unfold get_or_nil.
    destruct (old_cats !! cat_name) as [old_topics|] eqn:Hoc,
             (new_cats !! cat_name) as [new_topics|] eqn:Hnc; simpl.
    + eauto.
    + apply (elem_of_dom_2 (D := gset string)) in Hoc. rewrite Hdom' in Hoc.
      apply elem_of_dom in Hoc as [? ?]. congruence.
    + apply (elem_of_dom_2 (D := gset string)) in Hnc. rewrite <- Hdom' in Hnc.
      apply elem_of_dom in Hnc as [? ?]. congruence.
    + done.
  - apply (elem_of_dom_2 (D := gset string)) in Ho. rewrite Hdom in Ho.
    apply elem_of_dom in Ho as [? ?]. congruence.
  - apply (elem_of_dom_2 (D := gset string)) in Hn. rewrite <- Hdom in Hn.
    apply elem_of_dom in Hn as [? ?]. congruence.
  - done.
Qed.

(** No record of the result names a trainer of both datasets whose
    entries agree as sets. *)
Lemma compare_data_silent (old_data new_data : Dataset) (trainer : string)
    (o n : Trainer) :
  old_data !! trainer = Some o → new_data !! trainer = Some n →
  set_equal_topics (get_tiers o) (get_tiers n) →
  ∃ changes, compare_data old_data new_data = Ok changes
             ∧ Forall (λ c, change_trainer c ≠ trainer) changes.
Proof.
  intros Ho Hn Heq. apply compare_data_Forall.
  - intros t details Hnone _; simpl; intros ->. congruence.
  - intros t _ Hnone; simpl; intros ->. congruence.
  - intros t o' n' Ho' Hn' _ Hdetails; simpl; intros ->. simplify_eq.
    by apply Hdetails, trainer_details_set_equal.
Qed.

(** C2. Comparing a dataset with itself yields the empty list of
    changes, for every dataset. *)
Theorem compare_data_same (data : Dataset) : compare_data data data = Ok [].
Proof.
  destruct (compare_data_Forall (λ _, False) data data) as (changes & -> & HF).
  - intros t details Hnone [r Hr]. congruence.
  - intros t [r Hr] Hnone. congruence.
  - intros t o n Ho Hn Hdumps _. by simplify_eq.
  - destruct changes as [|c changes]; [done|]. by apply Forall_cons in HF as [[] _].
Qed.

(** C3. With old ["A"] holding [Interesting/Pokemon = ["X"]] and new
    ["A"] holding [["X","Y"]], the result is exactly one record: ["A"]
    modified, with detail ["+[Interesting/Pokemon]: Y"]. *)
Theorem compare_data_added_topic :
  compare_data
    {[ "A" := mkTrainer "A" (Some {[ "Interesting" := {[ "Pokemon" := ["X"] ]} ]}) ]}
    {[ "A" := mkTrainer "A" (Some {[ "Interesting" := {[ "Pokemon" := ["X"; "Y"] ]} ]}) ]}
  = Ok [modified_trainer "A" "+[Interesting/Pokemon]: Y"].
Proof. vm_compute. reflexivity. Qed.

(** C4. A trainer of both datasets whose old and new records have the
    same tiers, the same categories and set-equal entry lists (so that
    they differ at most in the order of entries) gets no change record
    at all. *)
Theorem compare_data_order_invisible (old_data new_data : Dataset)
    (trainer : string) (o n : Trainer) :
  old_data !! trainer = Some o → new_data !! trainer = Some n →
  same_as_sets (get_tiers o) (get_tiers n) →
  ∃ changes, compare_data old_data new_data = Ok changes
             ∧ ∀ c, c ∈ changes → change_trainer c ≠ trainer.
Proof.
  intros Ho Hn Hsame.
  destruct (compare_data_silent old_data new_data trainer o n)
    as (changes & Hc & HF); auto using same_as_sets_topics.
  exists changes. split; [done|]. by apply Forall_forall.
Qed.

(** C9. A trainer of both datasets whose old and new entry lists are
    equal as sets in every category gets no change record, whatever the
    number of times an entry is repeated on either side. *)
Theorem compare_data_multiplicity_invisible (old_data new_data : Dataset)
    (trainer : string) (o n : Trainer) :
  old_data !! trainer = Some o → new_data !! trainer = Some n →
  (∀ tier_name cat_name,
     list_to_set (topics_of (get_tiers o) tier_name cat_name)
     =@{gset string} list_to_set (topics_of (get_tiers n) tier_name cat_name)) →
  ∃ changes, compare_data old_data new_data = Ok changes
             ∧ ∀ c, c ∈ changes → change_trainer c ≠ trainer.
Proof.
  intros Ho Hn Heq.
  destruct (compare_data_silent old_data new_data trainer o n)
    as (changes & Hc & HF); [done..|].
  exists changes. split; [done|]. by apply Forall_forall.
Qed.

(** C10. [compare_data] reads the records only through their ["tiers"]
    field: datasets with the same tiers give the same result, whatever
    their other fields; and when every trainer of both datasets has the
    same tiers on both sides, the result holds no [modified_trainer]
    record. *)
Theorem compare_data_reads_only_tiers
    (old_data new_data old_data' new_data' : Dataset) :
  tiers_view old_data' = tiers_view old_data →
  tiers_view new_data' = tiers_view new_data →
  compare_data old_data' new_data' = compare_data old_data new_data
  ∧ ((∀ trainer o n,
        old_data !! trainer = Some o → new_data !! trainer = Some n →
        get_tiers o = get_tiers n) →
     ∃ changes, compare_data old_data' new_data' = Ok changes
                ∧ ∀ c, c ∈ changes → is_modified c = false).
Proof.
  intros Hold Hnew. rewrite (compare_data_tiers_view _ _ _ _ Hold Hnew).
  split; [done|]. intros Hsame.
  destruct (compare_data_Forall (λ c, is_modified c = false) old_data new_data)
    as (changes & Hc & HF); [done|done| |].
  - intros t o n Ho Hn Hdumps _. destruct Hdumps. by rewrite (Hsame _ _ _ Ho Hn).
  - exists changes. split; [done|]. by apply Forall_forall.
Qed.

Lemma one_trainer_lookup (trainer : string) (topics : list string) :
  one_trainer trainer topics !! trainer
  = Some (mkTrainer trainer (Some {[ "Interesting" := {[ "Pokemon" := topics ]} ]})).
Proof. apply lookup_singleton_eq. Qed.

Lemma compare_data_order_invisible_witness :
  ∃ changes,
    compare_data (one_trainer "A" ["X"; "Y"]) (one_trainer "A" ["Y"; "X"])
    = Ok changes
    ∧ ∀ c, c ∈ changes → change_trainer c ≠ "A".
Proof.
  eapply compare_data_order_invisible; [apply one_trainer_lookup..|].
  unfold get_tiers; simpl.
  split; [by rewrite !dom_singleton_L|].
  intros tier_name old_cats new_cats [_ <-]%lookup_singleton_Some
    [_ <-]%lookup_singleton_Some.
  split; [by rewrite !dom_singleton_L|].
  intros cat_name old_topics new_topics [_ <-]%lookup_singleton_Some
    [_ <-]%lookup_singleton_Some.
  set_solver.
Defined.

Lemma compare_data_multiplicity_invisible_witness :
  ∃ changes,
    compare_data (one_trainer "A" ["X"; "X"]) (one_trainer "A" ["X"])
    = Ok changes
    ∧ ∀ c, c ∈ changes → change_trainer c ≠ "A".
Proof.
  eapply compare_data_multiplicity_invisible; [apply one_trainer_lookup..|].
  intros tier_name cat_name.
  unfold topics_of, get_or_empty, get_or_nil, get_tiers. simpl.
  destruct (decide (tier_name = "Interesting")) as [->|];
    [rewrite !lookup_singleton_eq|by rewrite !lookup_singleton_ne]. simpl.
  destruct (decide (cat_name = "Pokemon")) as [->|];
    [rewrite !lookup_singleton_eq|by rewrite !lookup_singleton_ne]. simpl.
  set_solver.
Defined.

Lemma compare_data_reads_only_tiers_witness :
  compare_data {[ "A" := mkTrainer "old name" None ]}
               {[ "A" := mkTrainer "new name" (Some ∅) ]}
  = compare_data {[ "A" := mkTrainer "A" (Some ∅) ]}
                 {[ "A" := mkTrainer "A" (Some ∅) ]}
  ∧ ∃ changes,
      compare_data {[ "A" := mkTrainer "old name" None ]}
                   {[ "A" := mkTrainer "new name" (Some ∅) ]} = Ok changes
      ∧ ∀ c, c ∈ changes → is_modified c = false.
Proof.
  destruct (compare_data_reads_only_tiers
    {[ "A" := mkTrainer "A" (Some ∅) ]} {[ "A" := mkTrainer "A" (Some ∅) ]}
    {[ "A" := mkTrainer "old name" None ]}
    {[ "A" := mkTrainer "new name" (Some ∅) ]}) as [Heq Hmod].
  - unfold tiers_view. by rewrite !map_fmap_singleton.
  - unfold tiers_view. by rewrite !map_fmap_singleton.
  - split; [exact Heq|]. apply Hmod.
    intros trainer o n [_ <-]%lookup_singleton_Some [_ <-]%lookup_singleton_Some.
    done.
Defined.

(** ** Snapshot store *)

Lemma save_data_changelog now (new_data : Dataset) changes changelog errors :
  ∃ output,
    save_data now new_data changes changelog errors
    = Ok (mkSaved output (next_changelog now new_data changes changelog)).
Proof.
  unfold save_data.
  match goal with
  | |- context [for_each ?body ?l ?s] =>
      destruct (for_each_invariant body (λ _, True) l s) as (output & -> & _)
  end; [done| |by eexists].
  intros output trainer Hin _.
  apply elem_of_sorted, elem_of_keys in Hin as [rec Hrec].
  rewrite (getitem_Some _ _ _ Hrec). by eexists.
Qed.

Lemma take_app_take {A : Type} (n : nat) (l k : list A) :
  take n (l ++ take n k) = take n (l ++ k).
Proof. rewrite !take_app, take_take. do 2 f_equal. lia. Qed.

Lemma save_runs_updates (runs : list Run) (changelog : Changelog) :
  Forall (λ r, run_changes r ≠ []) runs → runs ≠ [] →
  save_runs runs changelog
  = Ok (mkChangelog
          (take 50 (reverse (run_entry <$> runs) ++ updates changelog))).
Proof.
  revert changelog. induction runs as [|r runs IH]; intros changelog Hne Hruns;
    [done|].
  apply Forall_cons in Hne as [Hr Hne]. unfold save_runs. cbn [for_each].
  destruct (save_data_changelog (run_now r) (run_data r) (run_changes r)
    changelog (run_errors r)) as [output ->].
  cbn [mbind result_bind changelog_file].
  unfold next_changelog. destruct (run_changes r) as [|c cs] eqn:Hcs; [done|].
  cbn [nonempty]. rewrite <- Hcs. fold (run_entry r).
  destruct runs as [|r' runs'].
  - reflexivity.
  - fold (save_runs (r' :: runs') (mkChangelog (take 50 (run_entry r :: updates changelog)))).
    rewrite IH by done. cbn [updates].
    rewrite take_app_take, (fmap_cons _ r), (reverse_cons _ (run_entry r)).
    by rewrite <- app_assoc.
Qed.

(** C5. A call of [save_data] with a non-empty change list stores the
    old history with the new entry put in front and cut to its first 50
    entries, so the newest entry is first and the oldest are dropped;
    and 60 successive runs with changes, from any history, leave exactly
    50 entries: those of the last 50 runs, the most recent first. *)
Theorem save_data_changelog_cap :
  (∀ now (new_data : Dataset) changes changelog errors,
     changes ≠ [] →
     ∃ saved,
       save_data now new_data changes changelog errors = Ok saved
       ∧ updates (changelog_file saved)
         = take 50 (mkEntry now (size new_data) (length changes) changes
                    :: updates changelog)
       ∧ head (updates (changelog_file saved))
         = Some (mkEntry now (size new_data) (length changes) changes)
       ∧ length (updates (changelog_file saved))
         = min 50 (S (length (updates changelog))))
  ∧ (∀ runs changelog,
       length runs = 60 → Forall (λ r, run_changes r ≠ []) runs →
       ∃ stored,
         save_runs runs changelog = Ok stored
         ∧ length (updates stored) = 50
         ∧ updates stored = reverse (run_entry <$> drop 10 runs)).
Proof.
  split.
  - intros now new_data changes changelog errors Hne.
    destruct (save_data_changelog now new_data changes changelog errors)
      as [output ->].
    eexists; split; [done|]. cbn [changelog_file]. unfold next_changelog.
    destruct changes; [done|]. cbn [nonempty updates].
    split; [done|]. split; [done|]. by rewrite length_take.
  - intros runs changelog Hlen Hne.
    rewrite save_runs_updates; [|done|by destruct runs].
    eexists; split; [done|]. cbn [updates].
    rewrite take_app_le by (rewrite length_reverse, length_fmap; lia).
    rewrite take_reverse, length_fmap, Hlen, <- fmap_drop.
    split; [|done]. rewrite length_reverse, length_fmap, length_drop. lia.
Qed.

Lemma save_data_changelog_cap_witness :
  (∃ saved,
     save_data "2024-01-01 00:00 UTC" ∅ [removed_trainer "A"] (mkChangelog []) []
     = Ok saved
     ∧ updates (changelog_file saved)
       = [mkEntry "2024-01-01 00:00 UTC" 0 1 [removed_trainer "A"]])
  ∧ ∃ stored,
      save_runs (sample_run <$> seq 0 60) (mkChangelog []) = Ok stored
      ∧ length (updates stored) = 50
      ∧ head (updates stored) = Some (run_entry (sample_run 59)).
Proof.
  destruct save_data_changelog_cap as [Hone Hruns]. split.
  - destruct (Hone "2024-01-01 00:00 UTC" ∅ [removed_trainer "A"]
      (mkChangelog []) []) as (saved & Hs & Hu & _); [done|].
    exists saved. split; [exact Hs|]. rewrite Hu. reflexivity.
  - destruct (Hruns (sample_run <$> seq 0 60) (mkChangelog []))
      as (stored & Hs & Hlen & Hu).
    + reflexivity.
    + apply Forall_fmap, Forall_forall. intros i _. discriminate.
    + exists stored. split; [exact Hs|]. split; [exact Hlen|].
      rewrite Hu. reflexivity.
Defined.

(** ** Patterns *)

Lemma outcomes_keep_group (r : Re.regex) (s : string) (cap : option string)
    (o : Re.outcome) :
  o ∈ Re.outcomes r s cap → is_Some cap → is_Some o.2.
Proof.
  revert s cap o. induction r as [l|p|p|p|r1 IH1 r2 IH2|r1 IH1 r2 IH2|r IH];
    intros s cap o Hin Hcap; simpl in Hin.
  - destruct (String.prefix l s); [|by apply elem_of_nil in Hin].
    by apply list_elem_of_singleton in Hin as ->.
  - by apply list_elem_of_fmap in Hin as (rest & -> & _).
  - destruct s as [|c s]; [by apply elem_of_nil in Hin|].
    destruct (p c); [|by apply elem_of_nil in Hin].
    by apply list_elem_of_fmap in Hin as (rest & -> & _).
  - destruct s as [|c s]; [by apply list_elem_of_singleton in Hin as ->|].
    destruct (p c).
    + by apply elem_of_cons in Hin as [->| ->%list_elem_of_singleton].
    + by apply list_elem_of_singleton in Hin as ->.
  - apply list_elem_of_bind in Hin as (o1 & Hin2 & Hin1). eauto.
  - apply elem_of_app in Hin as [Hin|Hin]; eauto.
  - apply list_elem_of_fmap in Hin as (o1 & -> & _). simpl. eauto.
Qed.

Lemma outcomes_group (r : Re.regex) (s : string) (cap : option string)
    (o : Re.outcome) :
  Re.always_captures r → o ∈ Re.outcomes r s cap → is_Some o.2.
Proof.
  revert s cap o. induction r as [l|p|p|p|r1 IH1 r2 IH2|r1 IH1 r2 IH2|r IH];
    intros s cap o Hr Hin; simpl in Hr; try done; simpl in Hin.
  - apply list_elem_of_bind in Hin as (o1 & Hin2 & Hin1).
    apply orb_True in Hr as [Hr|Hr]; [|eauto].
    eapply outcomes_keep_group; eauto.
  - apply andb_True in Hr as [Hr1 Hr2].
    apply elem_of_app in Hin as [Hin|Hin]; eauto.
  - apply list_elem_of_fmap in Hin as (o1 & -> & _). simpl. eauto.
Qed.

Lemma match_at_group (r : Re.regex) (pos : nat) (s : string) (m : Re.Match) :
  Re.always_captures r → Re.match_at r pos s = Some m → is_Some (Re.m_group1 m).
Proof.
  intros Hr. unfold Re.match_at.
  destruct (Re.outcomes r s None) as [|o os] eqn:Ho; [done|].
  intros [= <-]. simpl. apply (outcomes_group r s None); [done|].
  rewrite Ho. by left.
Qed.

Lemma finditer_group (r : Re.regex) (s : string) (m : Re.Match) :
  Re.always_captures r → m ∈ Re.finditer r s → is_Some (Re.m_group1 m).
Proof.
  intros Hr. unfold Re.finditer. generalize 0 at 1. generalize 0.
  induction s as [|c s IH]; intros skip pos; simpl.
  - destruct skip; [|by intros ?%elem_of_nil].
    destruct (Re.match_at r pos "") as [m'|] eqn:Hm; simpl;
      [|by intros ?%elem_of_nil].
    intros ->%list_elem_of_singleton. by eapply match_at_group.
  - destruct skip as [|k]; [|by apply IH].
    destruct (Re.match_at r pos (String c s)) as [m'|] eqn:Hm; [|by apply IH].
    intros [->|Hin]%elem_of_cons; [by eapply match_at_group|by eapply IH].
Qed.

(** ** Lines of a tier *)

Lemma cat_pattern_captures : Re.always_captures cat_pattern.
Proof. done. Qed.

Lemma tier_pattern_captures : Re.always_captures tier_pattern.
Proof. done. Qed.

Lemma prefix_head (a b : ascii) (p s : string) :
  String.prefix (String a p) (String b s) = true → a = b.
Proof.
  change (String.prefix (String a p) (String b s))
    with (if ascii_dec a b then String.prefix p s else false).
  by destruct (ascii_dec a b).
Qed.

(** A header line is never one of the skipped table lines. *)
Lemma cat_match_not_markup (line : string) (m : Re.Match) :
  Re.match_ cat_pattern line = Some m → is_table_markup line = false.
Proof.
  unfold Re.match_, Re.match_at, cat_pattern. cbn [Re.outcomes].
  destruct (String.prefix "!colspan=" line) eqn:Hp; [|done]. intros _.
  destruct line as [|a line]; [done|].
  by apply prefix_head in Hp as <-.
Qed.

(** A line that starts with [|] is not a header. *)
Lemma bar_line_no_cat_match (line : string) :
  Str.startswith "|" line = true → Re.match_ cat_pattern line = None.
Proof.
  unfold Str.startswith. destruct line as [|a line]; [done|].
  by intros <-%prefix_head.
Qed.

Lemma append_topic_Some (categories : Categories) (cat t : string)
    (topics : list string) :
  categories !! cat = Some topics →
  append_topic categories cat t = Ok (<[cat := topics ++ [t]]> categories).
Proof. intros H. unfold append_topic. by rewrite (getitem_Some _ _ _ H). Qed.

(** The inner loop over the pieces of a [||] line. *)
Lemma append_pieces (pieces : list string) (categories : Categories)
    (cat : string) (topics : list string) :
  categories !! cat = Some topics →
  for_each (λ cats t,
      let t := Str.strip t in
      if negb (String.eqb t "") then append_topic cats cat t else Ok cats)
    pieces categories
  = Ok (<[cat := topics ++ filter (λ t, t ≠ "") (Str.strip <$> pieces)]>
          categories).
Proof.
  revert categories topics.
  induction pieces as [|t pieces IH]; intros categories topics Hcat.
  - simpl. rewrite app_nil_r. by rewrite insert_id.
  - cbn [for_each fmap list_fmap]. cbv zeta.
    destruct (String.eqb_spec (Str.strip t) "") as [He|Hne]; cbn [negb].
    + cbn [mbind result_bind]. rewrite filter_cons_False by (by intros ?).
      by apply IH.
    + rewrite (append_topic_Some _ _ _ _ Hcat). cbn [mbind result_bind].
      rewrite (IH _ (topics ++ [Str.strip t])) by apply lookup_insert_eq.
      rewrite insert_insert_eq, filter_cons_True by done.
      by rewrite <- app_assoc.
Qed.

Lemma extend_topics_nil (categories : Categories) (cur : option string) :
  extend_topics categories cur [] = categories.
Proof.
  unfold extend_topics. destruct (truthy cur); [|done]. simpl.
  destruct (categories !! default "" cur) eqn:H; [|done].
  rewrite app_nil_r. by apply insert_id.
Qed.

(** What one line does to the loop state: a header opens its category
    with an empty list; any other line adds its topics to the active
    category.  No line raises. *)
Lemma tier_line_spec (categories : Categories) (cur : option string)
    (line : string) :
  tier_inv (categories, cur) →
  tier_line (categories, cur) line
  = Ok (match header_name line with
        | Some c => (<[c := []]> categories, Some c)
        | None => (extend_topics categories cur (line_topics line), cur)
        end).
Proof.
  intros Hinv. unfold tier_line, header_name, line_topics. cbv zeta.
  destruct (is_table_markup (Str.strip line)) eqn:Hmarkup;
    [by rewrite extend_topics_nil|].
  destruct (Re.match_ cat_pattern (Str.strip line)) as [m|] eqn:Hm.
  { destruct (match_at_group _ _ _ _ cat_pattern_captures Hm) as [g Hg].
    unfold Re.group1_str. by rewrite Hg. }
  destruct (truthy cur) eqn:Hcur; cbn [andb];
    [|unfold extend_topics; by rewrite Hcur].
  destruct (Str.startswith "|" (Str.strip line)
            && negb (Str.startswith "{|" (Str.strip line)));
    [|by rewrite extend_topics_nil].
  destruct (String.eqb _ "" || _ || _); [by rewrite extend_topics_nil|].
  destruct cur as [c|]; [|done]. destruct (Hinv c eq_refl) as [topics Hc].
  simpl in Hc. unfold extend_topics. rewrite Hcur. simpl default. rewrite Hc.
  destruct (Str.contains "||" _).
  - by rewrite (append_pieces _ _ _ _ Hc).
  - by rewrite (append_topic_Some _ _ _ _ Hc).
Qed.

Lemma tier_line_inv (st st' : tier_state) (line : string) :
  tier_inv st → tier_line st line = Ok st' → tier_inv st'.
Proof.
  destruct st as [categories cur]. intros Hinv.
  rewrite tier_line_spec by done. intros [= <-].
  destruct (header_name line) as [c|]; intros c'; simpl.
  - intros [= <-]. rewrite lookup_insert_eq. eauto.
  - intros ->. destruct (Hinv c' eq_refl) as [topics Hc]. simpl in Hc.
    unfold extend_topics. destruct (truthy (Some c')); [|eauto]. simpl.
    rewrite Hc, lookup_insert_eq. eauto.
Qed.

(** The keys of the result are the categories opened by header lines. *)
Lemma tier_lines_dom (lines : list string) (st : tier_state) :
  tier_inv st →
  ∃ st', for_each tier_line lines st = Ok st' ∧ tier_inv st'
         ∧ dom st'.1 =@{gset string} dom st.1 ∪ list_to_set (omap header_name lines).
Proof.
  revert st. induction lines as [|line lines IH]; intros [categories cur] Hinv.
  - exists (categories, cur). simpl. split; [done|]. split; [done|]. set_solver.
  - cbn [for_each]. pose proof (tier_line_spec categories cur line Hinv) as Hline.
    rewrite Hline. cbn [mbind result_bind].
    pose proof (tier_line_inv _ _ line Hinv Hline) as Hinv'.
    destruct (IH _ Hinv') as (st' & -> & Hinv'' & Hdom).
    exists st'. split; [done|]. split; [done|]. rewrite Hdom.
    cbn [omap list_omap]. destruct (header_name line) as [c|]; simpl.
    + rewrite dom_insert_L. set_solver.
    + f_equal. unfold extend_topics. destruct (truthy cur); [|done].
      destruct (categories !! default "" cur) eqn:Hc; [|done].
      rewrite dom_insert_L. apply elem_of_dom_2 in Hc. set_solver.
Qed.

Lemma tier_inv_init : tier_inv (∅, None).
Proof. by intros c. Qed.

Lemma parse_tier_content_ok (content : string) :
  ∃ categories,
    parse_tier_content content = Ok categories
    ∧ dom categories
      =@{gset string} list_to_set (omap header_name (Str.split NL content)).
Proof.
  unfold parse_tier_content.
  destruct (tier_lines_dom (Str.split NL content) (∅, None) tier_inv_init)
    as (st & -> & _ & Hdom).
  exists st.1. split; [done|]. rewrite Hdom. simpl. set_solver.
Qed.

(** ** Sections of a page *)

Lemma elem_of_enumerate {A : Type} (l : list A) (i : nat) (x : A) :
  (i, x) ∈ enumerate l ↔ l !! i = Some x.
Proof.
  unfold enumerate. rewrite elem_of_lookup_imap. split.
  - by intros (i' & x' & [= <- <-] & H).
  - intros H. by exists i, x.
Qed.

Lemma tier_end_ok (wikitext : string) (tier_matches : list Re.Match)
    (i start : nat) :
  ∃ end_, tier_end wikitext tier_matches i start = Ok end_.
Proof.
  unfold tier_end. destruct (Nat.ltb_spec (i + 1) (length tier_matches)) as [Hlt|].
  - apply lookup_lt_is_Some in Hlt as [next Hnext]. unfold list_getitem.
    rewrite Hnext. by eexists.
  - destruct (Re.search _ _); by eexists.
Qed.

(** One iteration of [parse_wikitext]: it raises nothing, and stores
    the categories of its section if there are any. *)
Lemma parse_tier_spec (wikitext : string) (result_tiers : Tiers)
    (im : nat * Re.Match) :
  im ∈ enumerate (Re.finditer tier_pattern wikitext) →
  ∃ tier_name content categories,
    section_of wikitext (Re.finditer tier_pattern wikitext) im
    = Some (tier_name, content)
    ∧ parse_tier_content content = Ok categories
    ∧ parse_tier wikitext (Re.finditer tier_pattern wikitext) result_tiers im
      = Ok (if bool_decide (categories ≠ ∅)
            then <[tier_name := categories]> result_tiers
            else result_tiers).
Proof.
  destruct im as [i m]. intros Hin%elem_of_enumerate.
  destruct (finditer_group tier_pattern wikitext m tier_pattern_captures)
    as [tier_name Hg]; [by eapply list_elem_of_lookup_2|].
  destruct (tier_end_ok wikitext (Re.finditer tier_pattern wikitext) i (Re.m_end m))
    as [end_ Hend].
  destruct (parse_tier_content_ok (Str.slice (Re.m_end m) end_ wikitext))
    as (categories & Hcats & _).
  exists tier_name, (Str.slice (Re.m_end m) end_ wikitext), categories.
  unfold section_of, parse_tier, Re.group1_key. cbn [fst snd].
  rewrite Hg, Hend. cbn [mbind result_bind]. rewrite Hcats.
  cbn [mbind result_bind]. by destruct (bool_decide _).
Qed.

Lemma parse_wikitext_ok (wikitext trainer_name : string) :
  ∃ result_tiers,
    parse_wikitext wikitext trainer_name
    = Ok (mkTrainer trainer_name (Some result_tiers)).
Proof.
  unfold parse_wikitext.
  match goal with
  | |- context [for_each ?body ?l ?s] =>
      destruct (for_each_invariant body (λ _, True) l s)
        as (result_tiers & -> & _)
  end; [done| |by eexists].
  intros result_tiers im Hin _.
  destruct (parse_tier_spec wikitext result_tiers im Hin)
    as (? & ? & ? & _ & _ & ->). by eexists.
Qed.

(** C1. [parse_wikitext] returns a record for every page text and every
    trainer name, raising nothing; a page with no tier header gives the
    record with empty ["tiers"]; and a line that is neither a category
    header nor a [|] line is passed over, leaving the state of the
    category loop as it was. *)
Theorem parse_wikitext_never_raises :
  (∀ wikitext trainer_name,
     ∃ result_tiers,
       parse_wikitext wikitext trainer_name
       = Ok (mkTrainer trainer_name (Some result_tiers)))
  ∧ (∀ wikitext trainer_name,
       Re.finditer tier_pattern wikitext = [] →
       parse_wikitext wikitext trainer_name
       = Ok (mkTrainer trainer_name (Some ∅)))
  ∧ (∀ content, ∃ categories, parse_tier_content content = Ok categories)
  ∧ (∀ st line,
       Re.match_ cat_pattern (Str.strip line) = None →
       Str.startswith "|" (Str.strip line) = false →
       tier_line st line = Ok st).
Proof.
  split; [exact parse_wikitext_ok|]. split; [|split].
  - intros wikitext trainer_name Hnone. unfold parse_wikitext. by rewrite Hnone.
  - intros content. destruct (parse_tier_content_ok content) as (c & Hc & _).
    eauto.
  - intros [categories cur] line Hmatch Hbar. unfold tier_line.
    rewrite Hmatch, Hbar, andb_false_r. by destruct (is_table_markup _).
Qed.

Lemma parse_wikitext_never_raises_witness :
  parse_wikitext "no tier header here" "Acerola"
  = Ok (mkTrainer "Acerola" (Some ∅))
  ∧ tier_line ({[ "Food" := ["Curry"] ]}, Some "Food") "<!-- a comment -->"
    = Ok ({[ "Food" := ["Curry"] ]}, Some "Food").
Proof.
  destruct parse_wikitext_never_raises as (_ & Hempty & _ & Hskip).
  split; [by apply Hempty|by apply Hskip].
Defined.

(** C6. With a category active, the line [|Alpha||Beta||Gamma] adds
    exactly ["Alpha"], ["Beta"], ["Gamma"], in that order, at the end of
    that category's list; and in general a [|] line whose text holds
    [||] is split on it, each piece is stripped, and the non-empty
    pieces are added in order. *)
Theorem tier_line_splits_topics (categories : Categories) (cat : string)
    (topics : list string) :
  cat ≠ "" → categories !! cat = Some topics →
  tier_line (categories, Some cat) "|Alpha||Beta||Gamma"
  = Ok (<[cat := topics ++ ["Alpha"; "Beta"; "Gamma"]]> categories, Some cat)
  ∧ ∀ line raw,
      Str.startswith "|" (Str.strip line) = true →
      raw = Str.strip (Str.slice_from 1 (Str.strip line)) →
      Str.startswith "class=" raw = false →
      Str.startswith "style=" raw = false →
      Str.contains "||" raw = true →
      tier_line (categories, Some cat) line
      = Ok (<[cat := topics ++ filter (λ t, t ≠ "")
                                 (Str.strip <$> Str.split "||" raw)]>
              categories, Some cat).
Proof.
  intros Hne Hcat.
  assert (∀ line raw,
    Str.startswith "|" (Str.strip line) = true →
    raw = Str.strip (Str.slice_from 1 (Str.strip line)) →
    Str.startswith "class=" raw = false →
    Str.startswith "style=" raw = false →
    Str.contains "||" raw = true →
    tier_line (categories, Some cat) line
    = Ok (<[cat := topics ++ filter (λ t, t ≠ "")
                               (Str.strip <$> Str.split "||" raw)]>
            categories, Some cat)) as Hgen.
  { intros line raw Hbar -> Hclass Hstyle Hsplit.
    assert (header_name line = None) as Hhead.
    { unfold header_name. rewrite (bar_line_no_cat_match _ Hbar).
      by destruct (is_table_markup _). }
    assert (tier_inv (categories, Some cat)) as Hinv.
    { intros c [= <-]. simpl. eauto. }
    rewrite (tier_line_spec _ _ _ Hinv), Hhead. do 2 f_equal.
    unfold extend_topics, truthy. apply String.eqb_neq in Hne as ->.
    simpl negb. simpl default. rewrite Hcat. do 2 f_equal.
    unfold line_topics. rewrite Hbar, Hclass, Hstyle, Hsplit.
    destruct (is_table_markup (Str.strip line)) eqn:Hmarkup.
    { unfold is_table_markup in Hmarkup.
      destruct (String.eqb_spec (Str.strip line) "") as [He|_];
        [by rewrite He in Hsplit|].
      destruct (String.eqb_spec (Str.strip line) "|-") as [He|_];
        [by rewrite He in Hsplit|].
      destruct (String.eqb_spec (Str.strip line) "|}") as [He|_];
        [by rewrite He in Hsplit|].
      simpl in Hmarkup. destruct (Str.strip line) as [|a l]; [done|].
      apply prefix_head in Hbar. apply prefix_head in Hmarkup. congruence. }
    assert (Str.startswith "{|" (Str.strip line) = false) as ->.
    { destruct (Str.strip line) as [|a l]; [done|].
      apply prefix_head in Hbar as <-. reflexivity. }
    cbn [negb andb orb].
    destruct (String.eqb_spec (Str.strip (Str.slice_from 1 (Str.strip line))) "")
      as [He|_]; [by rewrite He in Hsplit|done]. }
  split; [|exact Hgen]. by apply (Hgen "|Alpha||Beta||Gamma" "Alpha||Beta||Gamma").
Qed.

Lemma tier_line_splits_topics_witness :
  tier_line ({[ "Food" := ["Curry"] ]}, Some "Food") "|Alpha||Beta||Gamma"
  = Ok ({[ "Food" := ["Curry"; "Alpha"; "Beta"; "Gamma"] ]}, Some "Food")
  ∧ tier_line ({[ "Food" := ["Curry"] ]}, Some "Food") "  | Tea || ||Cake "
    = Ok ({[ "Food" := ["Curry"; "Tea"; "Cake"] ]}, Some "Food").
Proof.
  destruct (tier_line_splits_topics {[ "Food" := ["Curry"] ]} "Food" ["Curry"])
    as [Hline Hgen]; [done|apply lookup_singleton_eq|].
  split.
  - rewrite Hline. by rewrite insert_singleton_eq.
  - rewrite (Hgen "  | Tea || ||Cake " "Tea || ||Cake") by reflexivity.
    by rewrite insert_singleton_eq.
Defined.

(** C7, as amended. A category header line whose label (the stripped
    text after the column-span cell) contains ["Pok"], in exactly this
    case, opens the category ["Pokemon"], whatever the rest of the label
    is. *)
Theorem tier_line_normalises_pokemon (categories : Categories)
    (cur : option string) (line : string) (cat_match : Re.Match)
    (label : string) :
  Re.match_ cat_pattern (Str.strip line) = Some cat_match →
  Re.m_group1 cat_match = Some label →
  Str.contains "Pok" (Str.strip label) = true →
  tier_line (categories, cur) line
  = Ok (<["Pokemon" := []]> categories, Some "Pokemon").
Proof.
  intros Hm Hg Hpok. unfold tier_line.
  rewrite (cat_match_not_markup _ _ Hm), Hm. unfold Re.group1_str.
  rewrite Hg. cbn [mbind result_bind]. by rewrite Hpok.
Qed.

Lemma tier_line_normalises_pokemon_witness :
  tier_line (∅, None) ("!colspan='2'|Pok" +:+ e_acute +:+ "mon")
  = Ok ({[ "Pokemon" := [] ]}, Some "Pokemon")
  ∧ tier_line ({[ "Pokemon" := ["Pikachu"] ]}, Some "Pokemon")
      " !colspan=3| Sync Pair Pokemon "
    = Ok ({[ "Pokemon" := [] ]}, Some "Pokemon").
Proof.
  split.
  - rewrite <- insert_empty.
    eapply tier_line_normalises_pokemon; [vm_compute; reflexivity|..];
      reflexivity.
  - rewrite <- (insert_singleton_eq "Pokemon" ["Pikachu"] []).
    eapply tier_line_normalises_pokemon; [vm_compute; reflexivity|..];
      reflexivity.
Defined.

(** C7, counterexample. The test is case-sensitive: the spellings
    ["POKEMON"] and ["pokemon"] do not contain ["Pok"], so a header with
    either label opens a category of that very name, and a section with
    the three spellings has three categories. *)
Lemma pokemon_spellings_kept_apart :
  tier_line (∅, None) "!colspan=2|POKEMON"
  = Ok ({[ "POKEMON" := [] ]}, Some "POKEMON")
  ∧ tier_line (∅, None) "!colspan=2|pokemon"
    = Ok ({[ "pokemon" := [] ]}, Some "pokemon")
  ∧ ∃ categories,
      parse_tier_content
        ("!colspan=2|Pokemon" +:+ NL +:+ "|Pikachu" +:+ NL +:+
         "!colspan=2|POKEMON" +:+ NL +:+ "|Eevee" +:+ NL +:+
         "!colspan=2|pokemon" +:+ NL +:+ "|Mew")
      = Ok categories
      ∧ categories !! "Pokemon" = Some ["Pikachu"]
      ∧ categories !! "POKEMON" = Some ["Eevee"]
      ∧ categories !! "pokemon" = Some ["Mew"]
      ∧ size categories = 3.
Proof.
  split; [vm_compute; reflexivity|]. split; [vm_compute; reflexivity|].
  eexists. split; [vm_compute; reflexivity|].
  split; [vm_compute; reflexivity|]. split; [vm_compute; reflexivity|].
  split; vm_compute; reflexivity.
Qed.

(** Lines that do not open category [c] while it is not the active
    one leave its list alone. *)
Lemma tier_lines_other (c : string) (lines : list string) (st : tier_state) :
  tier_inv st → st.2 ≠ Some c →
  (∀ line, line ∈ lines → header_name line ≠ Some c) →
  ∃ st', for_each tier_line lines st = Ok st' ∧ st'.1 !! c = st.1 !! c.
Proof.
  revert st. induction lines as [|line lines IH];
    intros [categories cur] Hinv Hcur Hlines; [by eexists|].
  simpl in Hcur. cbn [for_each]. pose proof (tier_line_spec categories cur line Hinv) as Hline.
  pose proof (tier_line_inv _ _ line Hinv Hline) as Hinv'.
  rewrite Hline. cbn [mbind result_bind].
  assert (header_name line ≠ Some c) as Hh by (apply Hlines; by left).
  destruct (IH _ Hinv') as (st' & -> & Hc).
  - by destruct (header_name line).
  - intros l Hl. apply Hlines. by right.
  - exists st'. split; [done|]. rewrite Hc.
    destruct (header_name line) as [c'|]; simpl.
    + apply lookup_insert_ne. congruence.
    + unfold extend_topics. destruct cur as [c'|]; [|done].
      destruct (truthy (Some c')); [|done]. simpl.
      destruct (categories !! c'); [|done]. apply lookup_insert_ne. congruence.
Qed.




(** * Further properties *)

(** ** Strings *)

Lemma string_app_cons (a : ascii) (s1 s2 : string) :
  String a s1 +:+ s2 = String a (s1 +:+ s2).
Proof. reflexivity. Qed.

Lemma string_app_nil_l (s : string) : "" +:+ s = s.
Proof. reflexivity. Qed.

Lemma string_length_app (s1 s2 : string) :
  String.length (s1 +:+ s2) = String.length s1 + String.length s2.
Proof.
  induction s1 as [|a s1 IH]; [done|].
  rewrite string_app_cons. simpl. by rewrite IH.
Qed.

Lemma prefix_cons (a b : ascii) (p s : string) :
  String.prefix (String a p) (String b s) = true ↔ a = b ∧ String.prefix p s = true.
Proof.
  change (String.prefix (String a p) (String b s))
    with (if ascii_dec a b then String.prefix p s else false).
  destruct (ascii_dec a b); naive_solver.
Qed.

Lemma prefix_nil (s : string) : String.prefix "" s = true.
Proof. by destruct s. Qed.

Lemma substring_all (s : string) : String.substring 0 (String.length s) s = s.
Proof. induction s as [|a s IH]; simpl; [done|]. by rewrite IH. Qed.

(** A string that starts with [l] is [l] followed by the rest. *)
Lemma prefix_split (l s : string) :
  String.prefix l s = true →
  s = l +:+ String.substring (String.length l) (String.length s - String.length l) s.
Proof.
  revert s. induction l as [|a l IH]; intros s Hp.
  - simpl. by rewrite Nat.sub_0_r, substring_all.
  - destruct s as [|b s]; [done|]. apply prefix_cons in Hp as [<- Hp].
    rewrite string_app_cons. simpl. f_equal. by apply IH.
Qed.

Lemma substring_app_length (l r : string) :
  String.substring 0 (String.length l) (l +:+ r) = l.
Proof.
  induction l as [|a l IH]; [by destruct r|].
  rewrite string_app_cons. simpl. by rewrite IH.
Qed.

Lemma consumed_app (l r : string) : Re.consumed (l +:+ r) r = l.
Proof.
  unfold Re.consumed. rewrite string_length_app.
  replace (String.length l + String.length r - String.length r)
    with (String.length l) by lia.
  apply substring_app_length.
Qed.

(** ** Groups of the patterns *)

Lemma outcomes_no_group (r : Re.regex) (s : string) (cap : option string)
    (o : Re.outcome) :
  no_group r → o ∈ Re.outcomes r s cap → o.2 = cap.
Proof.
  revert s cap o. induction r as [l|p|p|p|r1 IH1 r2 IH2|r1 IH1 r2 IH2|r IH];
    intros s cap o Hr Hin; simpl in Hr; try done; simpl in Hin.
  - destruct (String.prefix l s); [|by apply elem_of_nil in Hin].
    by apply list_elem_of_singleton in Hin as ->.
  - by apply list_elem_of_fmap in Hin as (rest & -> & _).
  - destruct s as [|c s]; [by apply elem_of_nil in Hin|].
    destruct (p c); [|by apply elem_of_nil in Hin].
    by apply list_elem_of_fmap in Hin as (rest & -> & _).
  - destruct s as [|c s]; [by apply list_elem_of_singleton in Hin as ->|].
    destruct (p c).
    + by apply elem_of_cons in Hin as [->| ->%list_elem_of_singleton].
    + by apply list_elem_of_singleton in Hin as ->.
  - apply andb_True in Hr as [Hr1 Hr2].
    apply list_elem_of_bind in Hin as (o1 & Hin2 & Hin1).
    rewrite (IH2 _ _ _ Hr2 Hin2). eauto.
  - apply andb_True in Hr as [Hr1 Hr2].
    apply elem_of_app in Hin as [Hin|Hin]; eauto.
Qed.

(** A literal in the group captures that literal. *)
Lemma outcomes_group_lit (l s : string) (cap : option string) (o : Re.outcome) :
  o ∈ Re.outcomes (Re.Grp (Re.Lit l)) s cap → o.2 = Some l.
Proof.
  simpl. destruct (String.prefix l s) eqn:Hp; [|by intros ?%elem_of_nil].
  rewrite list_fmap_singleton. intros ->%list_elem_of_singleton. simpl.
  rewrite (prefix_split l s Hp) at 1. by rewrite consumed_app.
Qed.

(** Group 1 of a match of [tier_pattern] is one of the three labels. *)
Lemma tier_pattern_group (s : string) (cap : option string) (o : Re.outcome) :
  o ∈ Re.outcomes tier_pattern s cap → ∃ t, t ∈ tier_names ∧ o.2 = Some t.
Proof.
  unfold tier_pattern. cbn [Re.outcomes].
  intros (o1 & Hin & _)%list_elem_of_bind.
  apply list_elem_of_bind in Hin as (o2 & Hin & _).
  apply list_elem_of_bind in Hin as (o3 & Hin & Hgrp).
  assert (o.2 = o3.2) as ->.
  { by apply (outcomes_no_group (Re.Seq (Re.Star Str.isspace) (Re.Lit "===")) o3.1). }
  apply list_elem_of_fmap in Hgrp as (o4 & -> & Halt). simpl.
  assert (∀ l, o4 ∈ Re.outcomes (Re.Lit l) o2.1 o2.2 →
               Re.consumed o2.1 o4.1 = l) as Hlit.
  { intros l Hl.
    assert ((o4.1, Some (Re.consumed o2.1 o4.1)) ∈
            Re.outcomes (Re.Grp (Re.Lit l)) o2.1 o2.2) as Hg.
    { cbn [Re.outcomes]. apply list_elem_of_fmap. by exists o4. }
    apply outcomes_group_lit in Hg. by simplify_eq/=. }
  apply elem_of_app in Halt as [Hl|Halt];
    [|apply elem_of_app in Halt as [Hl|Hl]];
    apply Hlit in Hl; rewrite Hl; eexists; (split; [|done]);
    unfold tier_names; set_solver.
Qed.

Lemma finditer_match_at (r : Re.regex) (s : string) (m : Re.Match) :
  m ∈ Re.finditer r s → ∃ pos s', Re.match_at r pos s' = Some m.
Proof.
  unfold Re.finditer. generalize 0 at 1. generalize 0.
  induction s as [|c s IH]; intros skip pos; simpl.
  - destruct skip; [|by intros ?%elem_of_nil].
    destruct (Re.match_at r pos "") as [m'|] eqn:Hm; simpl;
      [|by intros ?%elem_of_nil].
    intros ->%list_elem_of_singleton. eauto.
  - destruct skip as [|k]; [|by apply IH].
    destruct (Re.match_at r pos (String c s)) as [m'|] eqn:Hm; [|by apply IH].
    intros [->|Hin]%elem_of_cons; [eauto|by eapply IH].
Qed.

Lemma finditer_tier_names (wikitext : string) (m : Re.Match) :
  m ∈ Re.finditer tier_pattern wikitext →
  ∃ t, t ∈ tier_names ∧ Re.m_group1 m = Some t.
Proof.
  intros (pos & s & Hm)%finditer_match_at. unfold Re.match_at in Hm.
  destruct (Re.outcomes tier_pattern s None) as [|o os] eqn:Ho; [done|].
  injection Hm as <-. simpl. apply (tier_pattern_group s None).
  rewrite Ho. by left.
Qed.

(** ** Shape of the parser's result *)

(** X1. The tiers of a parsed record are keyed by the three tier labels
    only, and no tier is stored with an empty category mapping. *)
Theorem parse_wikitext_tiers_shape (wikitext trainer_name : string) :
  ∃ result_tiers,
    parse_wikitext wikitext trainer_name
    = Ok (mkTrainer trainer_name (Some result_tiers))
    ∧ ∀ tier_name categories,
        result_tiers !! tier_name = Some categories →
        tier_name ∈ tier_names ∧ categories ≠ ∅.
Proof.
  unfold parse_wikitext.
  match goal with
  | |- context [for_each ?body ?l ?s] =>
      destruct (for_each_invariant body
        (λ t : Tiers, ∀ tier_name categories,
           t !! tier_name = Some categories →
           tier_name ∈ tier_names ∧ categories ≠ ∅) l s)
        as (result_tiers & -> & Hshape)
  end; [done| |by eexists].
  intros result_tiers im Hin Hshape.
  destruct (parse_tier_spec wikitext result_tiers im Hin)
    as (tier_name & content & categories & Hsec & _ & ->).
  eexists; split; [done|]. case_bool_decide as Hne; [|done].
  intros tier_name' categories'.
  destruct (decide (tier_name = tier_name')) as [<-|Hother];
    [|by rewrite lookup_insert_ne; auto].
  rewrite lookup_insert_eq. intros [= <-]. split; [|done].
  destruct im as [i m]. apply elem_of_enumerate, list_elem_of_lookup_2 in Hin.
  destruct (finditer_tier_names _ _ Hin) as (t & Ht & Hg).
  unfold section_of in Hsec. simpl in Hsec. rewrite Hg in Hsec.
  destruct (tier_end _ _ _ _); by simplify_eq.
Qed.

(** X2. The categories of a section are exactly those opened by its
    header lines, whatever the other lines hold. *)
Theorem parse_tier_content_categories (content : string) :
  ∃ categories,
    parse_tier_content content = Ok categories
    ∧ ∀ c, is_Some (categories !! c)
           ↔ ∃ line, line ∈ Str.split NL content ∧ header_name line = Some c.
Proof.
  destruct (parse_tier_content_ok content) as (categories & Hc & Hdom).
  exists categories. split; [done|]. intros c.
  rewrite <- (elem_of_dom (D := gset string)), Hdom, elem_of_list_to_set.
  by rewrite list_elem_of_omap.
Qed.

(** ** [strip] *)

Lemma lstrip_head (s : string) :
  Str.lstrip s = "" ∨ ∃ c s', Str.lstrip s = String c s' ∧ Str.isspace c = false.
Proof.
  induction s as [|c s IH]; [by left|]. simpl.
  destruct (Str.isspace c) eqn:Hc; [done|]. right. eauto.
Qed.

Lemma rstrip_idemp (s : string) : Str.rstrip (Str.rstrip s) = Str.rstrip s.
Proof.
  induction s as [|c s IH]; [done|]. simpl.
  destruct (Str.isspace c && String.eqb (Str.rstrip s) "") eqn:Hc; [done|].
  simpl. by rewrite IH, Hc.
Qed.

Lemma strip_idemp (s : string) : Str.strip (Str.strip s) = Str.strip s.
Proof.
  unfold Str.strip. destruct (lstrip_head s) as [->|(c & s' & -> & Hc)]; [done|].
  simpl. rewrite Hc. simpl. rewrite Hc. simpl. by rewrite rstrip_idemp, Hc.
Qed.

(** ** Topics of a category *)

(** Every topic a line contributes is non-empty and stripped. *)
Lemma line_topics_shape (line t : string) :
  t ∈ line_topics line → t ≠ "" ∧ Str.strip t = t.
Proof.
  unfold line_topics. destruct (is_table_markup _); [by intros ?%elem_of_nil|].
  destruct (_ && _); [|by intros ?%elem_of_nil].
  destruct (String.eqb_spec (Str.strip (Str.slice_from 1 (Str.strip line))) "")
    as [|Hraw]; [by intros ?%elem_of_nil|].
  cbn [orb]. destruct (_ || _); [by intros ?%elem_of_nil|].
  destruct (Str.contains "||" _).
  - intros [Ht Hin]%list_elem_of_filter. split; [done|].
    apply list_elem_of_fmap in Hin as (piece & -> & _). apply strip_idemp.
  - intros ->%list_elem_of_singleton. split; [done|]. apply strip_idemp.
Qed.

(** Topic lines under an active category add their topics in order. *)
Lemma tier_lines_topics (lines : list string) (categories : Categories)
    (c : string) (topics : list string) :
  c ≠ "" → categories !! c = Some topics →
  (∀ line, line ∈ lines → header_name line = None) →
  for_each tier_line lines (categories, Some c)
  = Ok (<[c := topics ++ concat (line_topics <$> lines)]> categories, Some c).
Proof.
  intros Hc. revert categories topics.
  induction lines as [|line lines IH]; intros categories topics Hcat Hlines.
  - simpl. by rewrite app_nil_r, insert_id.
  - cbn [for_each]. rewrite tier_line_spec.
    2:{ intros c' [= <-]. simpl. eauto. }
    rewrite (Hlines line) by left. cbn [mbind result_bind].
    unfold extend_topics, truthy. apply String.eqb_neq in Hc as Hc'.
    rewrite Hc'. simpl negb. simpl default. rewrite Hcat.
    rewrite (IH _ (topics ++ line_topics line)).
    + rewrite insert_insert_eq, fmap_cons. simpl concat.
      by rewrite <- app_assoc.
    + apply lookup_insert_eq.
    + intros l Hl. apply Hlines. by right.
Qed.

(** X3. A category holds the topics of the lines between its last
    header and the next header, in order: an earlier list under the same
    name is discarded, and lines under later headers do not reach it. *)
Theorem parse_tier_content_topics (content : string)
    (lines1 lines2 lines3 : list string) (header c : string) :
  c ≠ "" →
  Str.split NL content = lines1 ++ header :: lines2 ++ lines3 →
  header_name header = Some c →
  (∀ line, line ∈ lines2 → header_name line = None) →
  match lines3 with [] => True | next :: _ => is_Some (header_name next) end →
  (∀ line, line ∈ lines3 → header_name line ≠ Some c) →
  ∃ categories,
    parse_tier_content content = Ok categories
    ∧ categories !! c = Some (concat (line_topics <$> lines2)).
Proof.
  intros Hc Hsplit Hheader Hlines2 Hnext Hother.
  unfold parse_tier_content. rewrite Hsplit, for_each_app.
  destruct (tier_lines_dom lines1 (∅, None) tier_inv_init)
    as ([categories cur] & -> & Hinv & _).
  cbn [mbind result_bind for_each].
  rewrite (tier_line_spec _ _ _ Hinv), Hheader. cbn [mbind result_bind].
  rewrite for_each_app.
  rewrite (tier_lines_topics lines2 _ c []) by (done || apply lookup_insert_eq).
  cbn [mbind result_bind]. rewrite insert_insert_eq, app_nil_l.
  set (topics := concat (line_topics <$> lines2)).
  destruct lines3 as [|next lines3].
  { simpl. eexists; split; [done|]. apply lookup_insert_eq. }
  destruct Hnext as [c' Hc']. cbn [for_each]. rewrite tier_line_spec, Hc'.
  2:{ intros c'' [= <-]. simpl. rewrite lookup_insert_eq. eauto. }
  cbn [mbind result_bind].
  assert (c' ≠ c) as Hne.
  { intros ->. by apply (Hother next); [left|]. }
  destruct (tier_lines_other c lines3 (<[c' := []]> (<[c := topics]> categories), Some c'))
    as (st & -> & Hst).
  - intros c'' [= <-]. simpl. rewrite lookup_insert_eq. eauto.
  - simpl. congruence.
  - intros l Hl. apply Hother. by right.
  - exists st.1. split; [done|]. rewrite Hst. simpl.
    by rewrite lookup_insert_ne, lookup_insert_eq.
Qed.

Lemma parse_tier_content_topics_witness :
  ∃ categories,
    parse_tier_content
      ("!colspan=2|Food" +:+ NL +:+ "|Stale" +:+ NL +:+
       "!colspan=2|Food" +:+ NL +:+ "|Curry||Tea" +:+ NL +:+ "|-" +:+ NL +:+
       "| Cake " +:+ NL +:+ "!colspan=2|Drinks" +:+ NL +:+ "|Water")
    = Ok categories
    ∧ categories !! "Food" = Some ["Curry"; "Tea"; "Cake"].
Proof.
  apply (parse_tier_content_topics _ ["!colspan=2|Food"; "|Stale"]
    ["|Curry||Tea"; "|-"; "| Cake "] ["!colspan=2|Drinks"; "|Water"]
    "!colspan=2|Food" "Food"); [done|reflexivity|reflexivity| | |].
  - intros line Hin.
    repeat (apply elem_of_cons in Hin as [->|Hin]; [reflexivity|]).
    by apply elem_of_nil in Hin.
  - by eexists.
  - intros line Hin.
    repeat (apply elem_of_cons in Hin as [->|Hin]; [by vm_compute|]).
    by apply elem_of_nil in Hin.
Defined.

(** ** Lines of a text *)

Lemma prefix_NL (c : ascii) (s : string) :
  String.prefix NL (String c s) = bool_decide (c = "010"%char).
Proof.
  case_bool_decide as Hc.
  - subst c. apply prefix_cons. split; [done|apply prefix_nil].
  - apply not_true_is_false. intros [? _]%prefix_cons. done.
Qed.

Lemma split_go_NL_cons (acc : string) (c : ascii) (s : string) :
  Str.split_go NL 0 acc (String c s)
  = if bool_decide (c = "010"%char)
    then String.rev acc :: Str.split_go NL 0 "" s
    else Str.split_go NL 0 (String c acc) s.
Proof. cbn [Str.split_go]. by rewrite prefix_NL. Qed.

Lemma split_go_NL_app (acc a b : string) :
  Str.split_go NL 0 acc (a +:+ NL +:+ b)
  = Str.split_go NL 0 acc a ++ Str.split_go NL 0 "" b.
Proof.
  revert acc. induction a as [|c a IH]; intros acc.
  - rewrite string_app_nil_l. unfold NL at 2. rewrite string_app_cons.
    by rewrite split_go_NL_cons, bool_decide_eq_true_2.
  - rewrite string_app_cons, !split_go_NL_cons.
    case_bool_decide; [|apply IH]. by rewrite IH.
Qed.

(** The lines of two texts joined by a newline are the lines of the one
    followed by the lines of the other. *)
Lemma split_NL_app (a b : string) :
  Str.split NL (a +:+ NL +:+ b) = Str.split NL a ++ Str.split NL b.
Proof. apply split_go_NL_app. Qed.

(** X4. Text before the first category header of a section has no
    effect: its topic lines are dropped. *)
Theorem parse_tier_content_preamble (preamble content : string) :
  (∀ line, line ∈ Str.split NL preamble → header_name line = None) →
  parse_tier_content (preamble +:+ NL +:+ content) = parse_tier_content content.
Proof.
  intros Hpre. unfold parse_tier_content.
  rewrite split_NL_app, for_each_app, for_each_skip; [done|].
  intros line Hin. rewrite (tier_line_spec _ _ _ tier_inv_init), (Hpre _ Hin).
  done.
Qed.

Lemma parse_tier_content_preamble_witness :
  parse_tier_content
    ("|Lost" +:+ NL +:+ "|Also||lost" +:+ NL +:+ "!colspan=2|Food" +:+ NL +:+ "|Curry")
  = parse_tier_content ("!colspan=2|Food" +:+ NL +:+ "|Curry").
Proof.
  apply (parse_tier_content_preamble ("|Lost" +:+ NL +:+ "|Also||lost")).
  intros line Hin.
  change (Str.split NL ("|Lost" +:+ NL +:+ "|Also||lost"))
    with ["|Lost"; "|Also||lost"] in Hin.
  repeat (apply elem_of_cons in Hin as [->|Hin]; [reflexivity|]).
  by apply elem_of_nil in Hin.
Defined.

(** ** Entries *)

Lemma clean_entries_insert (categories : Categories) (c : string)
    (topics : list string) :
  clean_entries categories →
  (∀ t, t ∈ topics → t ≠ "" ∧ Str.strip t = t) →
  clean_entries (<[c := topics]> categories).
Proof.
  intros Hclean Htopics c' topics' t.
  destruct (decide (c = c')) as [<-|Hne].
  - rewrite lookup_insert_eq. intros [= <-]. auto.
  - rewrite lookup_insert_ne by done. apply Hclean.
Qed.

Lemma tier_lines_clean (lines : list string) (st : tier_state) :
  tier_inv st → clean_entries st.1 →
  ∃ st', for_each tier_line lines st = Ok st' ∧ clean_entries st'.1.
Proof.
  intros Hinv Hclean.
  destruct (for_each_invariant tier_line
    (λ st, tier_inv st ∧ clean_entries st.1) lines st) as (st' & Hst & _ & Hc);
    [done| |by eauto].
  clear. intros [categories cur] line _ [Hinv Hclean].
  pose proof (tier_line_spec categories cur line Hinv) as Hline.
  eexists; split; [done|]. split; [by eapply tier_line_inv|].
  destruct (header_name line) as [c|]; simpl.
  - apply clean_entries_insert; [done|]. by intros t ?%elem_of_nil.
  - unfold extend_topics. destruct (truthy cur); [|done].
    destruct (categories !! default "" cur) as [topics|] eqn:Hc; [|done].
    apply clean_entries_insert; [done|].
    intros t [Ht|Ht]%elem_of_app; [by eapply Hclean|by eapply line_topics_shape].
Qed.

(** X5. No entry of a parsed record is empty, and none has white space
    at either end. *)
Theorem parse_wikitext_entries_clean (wikitext trainer_name : string) :
  ∃ result_tiers,
    parse_wikitext wikitext trainer_name
    = Ok (mkTrainer trainer_name (Some result_tiers))
    ∧ ∀ tier_name categories cat_name topics t,
        result_tiers !! tier_name = Some categories →
        categories !! cat_name = Some topics → t ∈ topics →
        t ≠ "" ∧ Str.strip t = t.
Proof.
  unfold parse_wikitext.
  match goal with
  | |- context [for_each ?body ?l ?s] =>
      destruct (for_each_invariant body
        (λ t : Tiers, ∀ tier_name categories,
           t !! tier_name = Some categories → clean_entries categories) l s)
        as (result_tiers & -> & Hclean)
  end; [done| |].
  - intros result_tiers im Hin Hclean.
    destruct (parse_tier_spec wikitext result_tiers im Hin)
      as (tier_name & content & categories & _ & Hcats & ->).
    eexists; split; [done|]. case_bool_decide; [|done].
    intros tier_name' categories'.
    destruct (decide (tier_name = tier_name')) as [<-|Hother];
      [|rewrite lookup_insert_ne by done; apply Hclean].
    rewrite lookup_insert_eq. intros [= <-].
    unfold parse_tier_content in Hcats.
    destruct (tier_lines_clean (Str.split NL content) (∅, None))
      as (st & Hst & Hc); [apply tier_inv_init|by intros c topics t|].
    rewrite Hst in Hcats. by simplify_eq/=.
  - eexists; split; [done|]. intros tier_name categories cat_name topics t Ht.
    by apply (Hclean _ _ Ht).
Qed.

(** ** Order and grouping of the change records *)

Lemma names_dom {V : Type} (d : gmap string V) :
  list_to_set (keys d) =@{gset string} dom d.
Proof. apply set_eq. intros k. by rewrite elem_of_names, elem_of_dom. Qed.

(** A loop that only appends to its list. *)
Lemma for_each_collect {A B : Type} (body : list B → A → result (list B))
    (Q : A → list B → Prop) (l : list A) (s : list B) :
  (∀ s x, x ∈ l → ∃ ys, body s x = Ok (s ++ ys) ∧ Q x ys) →
  ∃ yss, for_each body l s = Ok (s ++ concat yss) ∧ Forall2 Q l yss.
Proof.
  revert s. induction l as [|x l IH]; intros s Hbody.
  - exists []. simpl. by rewrite app_nil_r.
  - destruct (Hbody s x) as (ys & Hx & HQ); [by left|].
    destruct (IH (s ++ ys)) as (yss & Hl & HF).
    { intros s' y Hy. apply Hbody. by right. }
    exists (ys :: yss). cbn [for_each]. rewrite Hx. cbn [mbind result_bind].
    rewrite Hl. simpl. rewrite <- app_assoc. by split; [|constructor].
Qed.

Lemma sorted_set_NoDup (s : gset string) : NoDup (sorted_set s).
Proof.
  unfold sorted_set, Str.sorted. rewrite merge_sort_Permutation.
  apply NoDup_elements.
Qed.

Lemma sorted_set_sorted (s : gset string) : Sorted String.le (sorted_set s).
Proof. apply (Sorted_merge_sort String.le). Qed.

Lemma StronglySorted_sublist {A : Type} (R : relation A) (l1 l2 : list A) :
  l1 `sublist_of` l2 → StronglySorted R l2 → StronglySorted R l1.
Proof.
  induction 1 as [|x l1 l2 Hsub IH|x l1 l2 Hsub IH]; [done|..];
    intros [HF Hs]%StronglySorted_cons; [|auto].
  apply StronglySorted_cons. split; [|auto].
  eapply Forall_forall. intros y Hy. eapply Forall_forall in HF; [done|].
  by eapply elem_of_sublist.
Qed.

Lemma removed_trainer_names (l : list string) :
  change_trainer <$> (removed_trainer <$> l) = l.
Proof. induction l as [|x l IH]; [done|]. simpl. f_equal. exact IH. Qed.

(** The result of [compare_data], loop by loop. *)
Lemma compare_data_groups (old_data new_data : Dataset) :
  ∃ news mods,
    compare_data old_data new_data
    = Ok (news ++ (removed_trainer <$> sorted_set (dom old_data ∖ dom new_data))
          ++ mods)
    ∧ change_trainer <$> news = sorted_set (dom new_data ∖ dom old_data)
    ∧ Forall is_new news
    ∧ change_trainer <$> mods `sublist_of` sorted_set (dom old_data ∩ dom new_data)
    ∧ Forall is_modified mods
    ∧ Forall (λ c, ∃ rec, new_data !! change_trainer c = Some rec
                          ∧ c = new_trainer (change_trainer c)
                                  (new_summary (get_tiers rec))) news.
Proof.
  unfold compare_data. rewrite !names_dom.
  destruct (for_each_collect (new_trainer_step new_data)
    (λ x ys, ∃ rec, new_data !! x = Some rec
                    ∧ ys = [new_trainer x (new_summary (get_tiers rec))])
    (sorted_set (dom new_data ∖ dom old_data)) []) as (yss1 & -> & HF1).
  { intros s x [Hn _]%elem_of_sorted_set%elem_of_difference.
    apply elem_of_dom in Hn as [rec Hrec]. unfold new_trainer_step.
    rewrite (getitem_Some _ _ _ Hrec). cbn [mbind result_bind]. eauto. }
  cbn [mbind result_bind app].
  destruct (for_each_collect removed_trainer_step
    (λ x ys, ys = [removed_trainer x])
    (sorted_set (dom old_data ∖ dom new_data)) (concat yss1)) as (yss2 & -> & HF2).
  { intros s x _. unfold removed_trainer_step. eauto. }
  cbn [mbind result_bind].
  destruct (for_each_collect (modified_trainer_step old_data new_data)
    (λ x ys, ys = [] ∨ ∃ d, ys = [modified_trainer x d])
    (sorted_set (dom old_data ∩ dom new_data)) (concat yss1 ++ concat yss2))
    as (yss3 & -> & HF3).
  { intros s x [Ho Hn]%elem_of_sorted_set%elem_of_intersection.
    apply elem_of_dom in Ho as [o Ho]. apply elem_of_dom in Hn as [n Hn].
    unfold modified_trainer_step.
    rewrite (getitem_Some _ _ _ Ho), (getitem_Some _ _ _ Hn).
    cbn [mbind result_bind].
    destruct (String.eqb _ _); [exists []; rewrite app_nil_r; eauto|].
    destruct (nonempty _); [eauto|exists []; rewrite app_nil_r; eauto]. }
  exists (concat yss1), (concat yss3).
  assert (concat yss2 = removed_trainer <$> sorted_set (dom old_data ∖ dom new_data))
    as ->.
  { clear -HF2. induction HF2 as [|x ys l yss -> _ IH]; [done|]. simpl.
    f_equal. exact IH. }
  split; [by rewrite <- app_assoc|].
  split; [|split; [|split; [|split]]].
  - clear -HF1. induction HF1 as [|x ys l yss (rec & _ & ->) _ IH]; [done|].
    simpl. f_equal. exact IH.
  - clear -HF1. induction HF1 as [|x ys l yss (rec & _ & ->) _ IH]; [done|].
    simpl. by constructor.
  - clear -HF3. induction HF3 as [|x ys l yss [->|[d ->]] _ IH]; [done|..]; simpl.
    + by apply sublist_cons.
    + by apply sublist_skip.
  - clear -HF3. induction HF3 as [|x ys l yss [->|[d ->]] _ IH]; [done|..]; simpl.
    + done.
    + by constructor.
  - clear -HF1. induction HF1 as [|x ys l yss (rec & Hrec & ->) _ IH]; [done|].
    simpl. constructor; [|done]. simpl. eauto.
Qed.

(** X6. The change records come in three groups, in this order: the
    new trainers, one record for each name only in the new dataset, in
    sorted order of the names; the removed trainers, likewise for the
    names only in the old dataset; and the modified trainers, for some of
    the names of both datasets, again in sorted order. *)
Theorem compare_data_grouped (old_data new_data : Dataset) :
  ∃ news rems mods,
    compare_data old_data new_data = Ok (news ++ rems ++ mods)
    ∧ Forall is_new news
    ∧ change_trainer <$> news = sorted_set (dom new_data ∖ dom old_data)
    ∧ rems = removed_trainer <$> sorted_set (dom old_data ∖ dom new_data)
    ∧ Forall is_modified mods
    ∧ change_trainer <$> mods `sublist_of` sorted_set (dom old_data ∩ dom new_data)
    ∧ Sorted String.le (change_trainer <$> news)
    ∧ Sorted String.le (change_trainer <$> rems)
    ∧ StronglySorted String.le (change_trainer <$> mods).
Proof.
  destruct (compare_data_groups old_data new_data)
    as (news & mods & Hc & Hnews & Hnew & Hmods & Hmod & _).
  exists news, (removed_trainer <$> sorted_set (dom old_data ∖ dom new_data)), mods.
  repeat split; try done.
  - rewrite Hnews. apply sorted_set_sorted.
  - rewrite removed_trainer_names. apply sorted_set_sorted.
  - eapply StronglySorted_sublist; [done|].
    apply Sorted_StronglySorted; [apply _|apply sorted_set_sorted].
Qed.

(** X7. No trainer gets more than one change record. *)
Theorem compare_data_one_record_each (old_data new_data : Dataset) :
  ∃ changes,
    compare_data old_data new_data = Ok changes
    ∧ NoDup (change_trainer <$> changes).
Proof.
  destruct (compare_data_groups old_data new_data)
    as (news & mods & -> & Hnews & _ & Hmods & _ & _).
  eexists; split; [done|]. rewrite !fmap_app, Hnews, removed_trainer_names.
  apply NoDup_app. split; [apply sorted_set_NoDup|]. split.
  - intros x [Hn Ho]%elem_of_sorted_set%elem_of_difference
      [[Ho' Hn']%elem_of_sorted_set%elem_of_difference|Hin]%elem_of_app; [done|].
    eapply elem_of_sublist in Hin; [|done].
    apply elem_of_sorted_set, elem_of_intersection in Hin as [? ?]. done.
  - apply NoDup_app. split; [apply sorted_set_NoDup|]. split.
    + intros x [Ho Hn]%elem_of_sorted_set%elem_of_difference Hin.
      eapply elem_of_sublist in Hin; [|done].
      apply elem_of_sorted_set, elem_of_intersection in Hin as [? ?]. done.
    + eapply sublist_NoDup; [apply sorted_set_NoDup|done].
Qed.

(** X8. Compared with an empty old dataset, every trainer is reported
    new, in sorted order of the names, with the count of its tiers and
    topics, and nothing else is reported; compared with an empty new
    dataset, every trainer is reported removed. *)
Theorem compare_data_against_empty (data : Dataset) :
  (∃ changes,
     compare_data ∅ data = Ok changes
     ∧ change_trainer <$> changes = sorted_set (dom data)
     ∧ ∀ c, c ∈ changes →
            ∃ rec, data !! change_trainer c = Some rec
                   ∧ c = new_trainer (change_trainer c)
                           (new_summary (get_tiers rec)))
  ∧ compare_data data ∅ = Ok (removed_trainer <$> sorted_set (dom data)).
Proof.
  split.
  - destruct (compare_data_groups ∅ data)
      as (news & mods & -> & Hnews & _ & Hmods & _ & Hrecs).
    replace (dom data ∖ dom (∅ : Dataset)) with (dom data) in Hnews
      by set_solver.
    replace (dom (∅ : Dataset) ∩ dom data) with (∅ : gset string) in Hmods
      by set_solver.
    replace (dom (∅ : Dataset) ∖ dom data) with (∅ : gset string)
      by set_solver.
    rewrite sorted_set_empty in Hmods.
    apply sublist_nil_r, fmap_nil_inv in Hmods as ->.
    rewrite sorted_set_empty. simpl. rewrite app_nil_r.
    exists news. split; [done|]. split; [done|]. by apply Forall_forall.
  - destruct (compare_data_groups data ∅)
      as (news & mods & -> & Hnews & _ & Hmods & _ & _).
    replace (dom (∅ : Dataset) ∖ dom data) with (∅ : gset string) in Hnews
      by set_solver.
    replace (dom data ∩ dom (∅ : Dataset)) with (∅ : gset string) in Hmods
      by set_solver.
    replace (dom data ∖ dom (∅ : Dataset)) with (dom data) by set_solver.
    rewrite sorted_set_empty in Hnews, Hmods.
    apply fmap_nil_inv in Hnews as ->.
    apply sublist_nil_r, fmap_nil_inv in Hmods as ->.
    by rewrite app_nil_r.
Qed.

(** X9. Swapping the two datasets swaps new and removed: a trainer is
    reported new by the one comparison exactly when it is reported
    removed by the other. *)
Theorem compare_data_symmetry (data1 data2 : Dataset) :
  ∃ changes12 changes21,
    compare_data data1 data2 = Ok changes12
    ∧ compare_data data2 data1 = Ok changes21
    ∧ ∀ trainer,
        (∃ details, new_trainer trainer details ∈ changes12)
        ↔ removed_trainer trainer ∈ changes21.
Proof.
  destruct (compare_data_groups data1 data2)
    as (news & mods & -> & Hnews & Hnew & _ & Hmod & _).
  destruct (compare_data_groups data2 data1)
    as (news' & mods' & -> & _ & Hnew' & _ & Hmod' & _).
  do 2 eexists. split; [done|]. split; [done|]. intros trainer.
  split.
  - intros (details & Hin). rewrite !elem_of_app in Hin. rewrite !elem_of_app.
    destruct Hin as [Hin|[Hin|Hin]].
    + right; left. apply list_elem_of_fmap. exists trainer. split; [done|].
      rewrite <- Hnews. apply list_elem_of_fmap. by eexists (new_trainer _ _).
    + by apply list_elem_of_fmap in Hin as (? & ? & _).
    + by apply (proj1 (Forall_forall _ _) Hmod) in Hin.
  - rewrite !elem_of_app. intros [Hin|[Hin|Hin]].
    + by apply (proj1 (Forall_forall _ _) Hnew') in Hin.
    + apply list_elem_of_fmap in Hin as (? & [= <-] & Hin).
      rewrite <- Hnews in Hin. apply list_elem_of_fmap in Hin as (c & -> & Hc).
      apply (proj1 (Forall_forall _ _) Hnew) in Hc as Hisnew. destruct c; try done.
      eexists. rewrite !elem_of_app. by left.
    + by apply (proj1 (Forall_forall _ _) Hmod') in Hin.
Qed.

(** ** [json.dumps] is injective *)

Lemma string_app_assoc (s1 s2 s3 : string) :
  (s1 +:+ s2) +:+ s3 = s1 +:+ s2 +:+ s3.
Proof.
  induction s1 as [|a s1 IH]; [done|]. rewrite !string_app_cons. by rewrite IH.
Qed.

Lemma unescape_escape_char (c : ascii) (rest : string) :
  unescape_char (Json.escape_char c +:+ rest) = Some (c, rest).
Proof. destruct c as [[] [] [] [] [] [] [] []]; reflexivity. Qed.

Lemma unescape_quote (rest : string) : unescape_char (Json.quote +:+ rest) = None.
Proof. reflexivity. Qed.

(** An escaped string is delimited by the quote that follows it. *)
Lemma escape_delimited (s1 s2 r1 r2 : string) :
  Json.escape s1 +:+ Json.quote +:+ r1 = Json.escape s2 +:+ Json.quote +:+ r2 →
  s1 = s2 ∧ r1 = r2.
Proof.
  revert s2. induction s1 as [|c1 s1 IH]; intros [|c2 s2] Heq; simpl in Heq.
  - split; [done|]. by simplify_eq.
  - apply (f_equal unescape_char) in Heq.
    by rewrite string_app_assoc, unescape_escape_char in Heq.
  - apply (f_equal unescape_char) in Heq.
    by rewrite string_app_assoc, unescape_escape_char in Heq.
  - apply (f_equal unescape_char) in Heq.
    rewrite !string_app_assoc, !unescape_escape_char in Heq.
    injection Heq as -> Heq. by destruct (IH _ Heq) as [-> ->].
Qed.

Lemma dumps_str_self_delimiting : self_delimiting Json.dumps_str.
Proof.
  intros s1 s2 r1 r2. unfold Json.dumps_str. rewrite !string_app_assoc.
  unfold Json.quote at 1 3. rewrite !string_app_cons, !string_app_nil_l.
  intros [= Heq]. by apply escape_delimited.
Qed.

Lemma dumps_str_quote : starts_with_quote Json.dumps_str.
Proof. intros s. by eexists. Qed.

Lemma join_cons {A : Type} (enc : A → string) (x : A) (l : list A) (r : string) :
  Str.join ", " (enc <$> (x :: l)) +:+ r
  = enc x +:+ match l with
              | [] => r
              | _ :: _ => ", " +:+ Str.join ", " (enc <$> l) +:+ r
              end.
Proof.
  destruct l as [|y l]; [done|]. unfold Str.join. rewrite !fmap_cons.
  cbn [String.concat]. by rewrite !string_app_assoc.
Qed.

(** A comma-separated sequence of self-delimiting items that start with
    a quote is delimited by its closing bracket. *)
Lemma join_delimited {A : Type} (enc : A → string) (close : ascii)
    (l1 l2 : list A) (r1 r2 : string) :
  self_delimiting enc → starts_with_quote enc →
  close ≠ "034"%char → close ≠ ","%char →
  Str.join ", " (enc <$> l1) +:+ String close r1
  = Str.join ", " (enc <$> l2) +:+ String close r2 →
  l1 = l2 ∧ r1 = r2.
Proof.
  intros Hsd Hq Hclose Hcomma. revert l2.
  induction l1 as [|x l1 IH]; intros [|y l2].
  - by intros [= ->].
  - rewrite join_cons. destruct (Hq y) as [rest ->].
    rewrite string_app_cons. by intros [= ? _].
  - rewrite join_cons. destruct (Hq x) as [rest ->].
    rewrite string_app_cons. by intros [= ? _].
  - rewrite !join_cons. intros [-> Heq]%Hsd.
    destruct l1 as [|x' l1], l2 as [|y' l2].
    + by injection Heq as ->.
    + rewrite string_app_cons in Heq. by injection Heq as ? _.
    + rewrite string_app_cons in Heq. by injection Heq as ? _.
    + apply (inj (String.app ", ")) in Heq. by destruct (IH _ Heq) as [-> ->].
Qed.

Lemma dumps_list_self_delimiting : self_delimiting Json.dumps_list.
Proof.
  intros l1 l2 r1 r2. unfold Json.dumps_list.
  rewrite !string_app_cons, !string_app_nil_l, !string_app_assoc.
  rewrite !string_app_cons, !string_app_nil_l.
  intros [= Heq].
  by eapply join_delimited in Heq;
    [|apply dumps_str_self_delimiting|apply dumps_str_quote|..].
Qed.

Lemma sorted_items_inj {V : Type} (d1 d2 : gmap string V) :
  Json.sorted_items d1 = Json.sorted_items d2 → d1 = d2.
Proof.
  intros Heq. apply map_to_list_inj.
  rewrite <- (merge_sort_Permutation Json.key_le (map_to_list d1)).
  rewrite <- (merge_sort_Permutation Json.key_le (map_to_list d2)).
  unfold Json.sorted_items in Heq. by rewrite Heq.
Qed.

Lemma dumps_dict_self_delimiting {V : Type} (dumps_value : V → string) :
  self_delimiting dumps_value → self_delimiting (Json.dumps_dict dumps_value).
Proof.
  intros Hsd d1 d2 r1 r2. unfold Json.dumps_dict.
  rewrite !string_app_cons, !string_app_nil_l, !string_app_assoc.
  rewrite !string_app_cons, !string_app_nil_l.
  intros [= Hjoin]. eapply join_delimited in Hjoin as [Hitems ->]; [| | |done..].
  - split; [|done]. by apply sorted_items_inj.
  - intros [k1 v1] [k2 v2] s1 s2. simpl. rewrite !string_app_assoc.
    intros [-> Heq]%dumps_str_self_delimiting.
    apply (inj (String.app ": ")) in Heq. by apply Hsd in Heq as [-> ->].
  - intros [k v]. simpl. destruct (dumps_str_quote k) as [rest ->].
    rewrite string_app_cons. by eexists.
Qed.

(** [json.dumps] with sorted keys tells any two tier mappings apart. *)
Lemma dumps_inj (tiers1 tiers2 : Tiers) :
  Json.dumps tiers1 = Json.dumps tiers2 → tiers1 = tiers2.
Proof.
  intros Heq.
  pose proof (dumps_dict_self_delimiting _
    (dumps_dict_self_delimiting _ dumps_list_self_delimiting)) as Hsd.
  destruct (Hsd tiers1 tiers2 "" "") as [-> _]; [|done].
  unfold Json.dumps in Heq. by rewrite Heq.
Qed.

(** ** When a trainer is reported modified *)

Lemma foldl_collect {A B : Type} (f : list B → A → list B) (l : list A)
    (s : list B) :
  (∀ s x, f s x = s ++ f [] x) → foldl f s l = s ++ concat (f [] <$> l).
Proof.
  intros Hf. revert s. induction l as [|x l IH]; intros s; simpl.
  - by rewrite app_nil_r.
  - by rewrite IH, Hf, <- app_assoc.
Qed.

Lemma category_step_app tier_name (old_cats new_cats : Categories) details
    cat_name :
  category_step tier_name old_cats new_cats details cat_name
  = details ++ category_step tier_name old_cats new_cats [] cat_name.
Proof.
  unfold category_step. destruct (nonempty _), (nonempty _); simpl;
    by rewrite <- ?app_assoc, ?app_nil_r.
Qed.

Lemma tier_step_app (old_tiers new_tiers : Tiers) details tier_name :
  tier_step old_tiers new_tiers details tier_name
  = details ++ tier_step old_tiers new_tiers [] tier_name.
Proof.
  unfold tier_step. rewrite !(foldl_collect _ _ _ (category_step_app _ _ _)).
  done.
Qed.

Lemma sorted_set_nil_inv (s : gset string) : sorted_set s = [] → s = ∅.
Proof.
  intros Hs. apply set_eq. intros x. rewrite <- elem_of_sorted_set, Hs.
  set_solver.
Qed.

Lemma difference_empty_eq (X Y : gset string) : Y ∖ X = ∅ → X ∖ Y = ∅ → X = Y.
Proof.
  intros HY HX. apply set_eq. intros x. split; intros Hx.
  - destruct (decide (x ∈ Y)) as [|Hn]; [done|].
    assert (x ∈ X ∖ Y) as Hd by (by apply elem_of_difference).
    rewrite HX in Hd. by apply not_elem_of_empty in Hd.
  - destruct (decide (x ∈ X)) as [|Hn]; [done|].
    assert (x ∈ Y ∖ X) as Hd by (by apply elem_of_difference).
    rewrite HY in Hd. by apply not_elem_of_empty in Hd.
Qed.

Lemma category_step_nil_inv tier_name (old_cats new_cats : Categories) cat_name :
  category_step tier_name old_cats new_cats [] cat_name = [] →
  list_to_set (get_or_nil old_cats cat_name)
  =@{gset string} list_to_set (get_or_nil new_cats cat_name).
Proof.
  unfold category_step.
  set (old_topics := list_to_set (get_or_nil old_cats cat_name) : gset string).
  set (new_topics := list_to_set (get_or_nil new_cats cat_name) : gset string).
  destruct (sorted_set (new_topics ∖ old_topics)) as [|a added] eqn:Hadded;
    simpl; [|by destruct (nonempty _)].
  destruct (sorted_set (old_topics ∖ new_topics)) as [|r removed] eqn:Hremoved;
    simpl; [|done].
  intros _. apply sorted_set_nil_inv in Hadded, Hremoved.
  by apply difference_empty_eq.
Qed.

Lemma concat_nil_inv {A : Type} (ls : list (list A)) (l : list A) :
  concat ls = [] → l ∈ ls → l = [].
Proof.
  induction ls as [|l' ls IH]; simpl; [by intros _ ?%elem_of_nil|].
  intros [-> Hls]%app_eq_nil [->|Hin]%elem_of_cons; auto.
Qed.

(** No detail line means no difference between the entry sets. *)
Lemma trainer_details_nil_inv (old_tiers new_tiers : Tiers) :
  trainer_details old_tiers new_tiers = [] →
  set_equal_topics old_tiers new_tiers.
Proof.
  unfold trainer_details. rewrite (foldl_collect _ _ _ (tier_step_app _ _)).
  intros Hnil tier_name cat_name. unfold topics_of, get_or_empty.
  destruct (decide (tier_name ∈
    (list_to_set (keys old_tiers ++ keys new_tiers) : gset string))) as [Hin|Hout].
  - assert (tier_step old_tiers new_tiers [] tier_name = []) as Htier.
    { apply (concat_nil_inv _ _ Hnil), list_elem_of_fmap.
      exists tier_name. by rewrite elem_of_sorted_set. }
    unfold tier_step in Htier.
    rewrite (foldl_collect _ _ _ (category_step_app _ _ _)) in Htier.
    simpl in Htier. unfold get_or_empty in Htier.
    set (old_cats := default ∅ (old_tiers !! tier_name)) in *.
    set (new_cats := default ∅ (new_tiers !! tier_name)) in *.
    destruct (decide (cat_name ∈
      (list_to_set (keys old_cats ++ keys new_cats) : gset string))) as [Hc|Hc].
    + apply (category_step_nil_inv tier_name).
      apply (concat_nil_inv _ _ Htier), list_elem_of_fmap.
      exists cat_name. by rewrite elem_of_sorted_set.
    + rewrite elem_of_list_to_set, elem_of_app, !elem_of_keys in Hc.
      unfold get_or_nil.
      destruct (old_cats !! cat_name) eqn:?, (new_cats !! cat_name) eqn:?;
        naive_solver.
  - rewrite elem_of_list_to_set, elem_of_app, !elem_of_keys in Hout.
    destruct (old_tiers !! tier_name) eqn:?, (new_tiers !! tier_name) eqn:?;
      naive_solver.
Qed.

(** A trainer of both datasets whose tiers differ under [json.dumps]
    and who has a detail line gets its record. *)
Lemma compare_data_modified_complete (old_data new_data : Dataset)
    (trainer : string) (o n : Trainer) :
  old_data !! trainer = Some o → new_data !! trainer = Some n →
  Json.dumps (get_tiers o) ≠ Json.dumps (get_tiers n) →
  trainer_details (get_tiers o) (get_tiers n) ≠ [] →
  ∃ changes,
    compare_data old_data new_data = Ok changes
    ∧ modified_trainer trainer
        (Str.join "; " (trainer_details (get_tiers o) (get_tiers n))) ∈ changes.
Proof.
  intros Ho Hn Hdumps Hdetails. unfold compare_data.
  destruct (for_each_invariant (new_trainer_step new_data) (λ _, True)
    (sorted_set (list_to_set (keys new_data) ∖ list_to_set (keys old_data))) [])
    as (changes1 & -> & _); [done| |].
  { intros changes t [Hin _]%elem_of_sorted_set%elem_of_difference _.
    apply elem_of_names in Hin as [rec Hrec]. unfold new_trainer_step.
    rewrite (getitem_Some _ _ _ Hrec). by eexists. }
  cbn [mbind result_bind].
  destruct (for_each_invariant removed_trainer_step (λ _, True)
    (sorted_set (list_to_set (keys old_data) ∖ list_to_set (keys new_data)))
    changes1) as (changes2 & -> & _); [done|by eexists|].
  cbn [mbind result_bind].
  set (record := modified_trainer trainer _).
  destruct (for_each_collect (modified_trainer_step old_data new_data)
    (λ x ys, x = trainer → ys = [record])
    (sorted_set (list_to_set (keys old_data) ∩ list_to_set (keys new_data)))
    changes2) as (yss & -> & HF).
  { intros s x [Hxo Hxn]%elem_of_sorted_set%elem_of_intersection.
    apply elem_of_names in Hxo as [o' Ho']. apply elem_of_names in Hxn as [n' Hn'].
    unfold modified_trainer_step.
    rewrite (getitem_Some _ _ _ Ho'), (getitem_Some _ _ _ Hn').
    cbn [mbind result_bind].
    destruct (decide (x = trainer)) as [->|Hx].
    - simplify_eq. apply String.eqb_neq in Hdumps as ->.
      destruct (trainer_details _ _) eqn:Hd; [done|]. cbn [nonempty].
      eexists; split; [done|]. intros _. subst record. by rewrite ?Hd.
    - destruct (String.eqb _ _); [exists []; by rewrite app_nil_r|].
      destruct (nonempty _); [by eexists|exists []; by rewrite app_nil_r]. }
  eexists; split; [done|]. apply elem_of_app. right.
  assert (trainer ∈ sorted_set
    (list_to_set (keys old_data) ∩ list_to_set (keys new_data))) as Hin.
  { rewrite elem_of_sorted_set, elem_of_intersection, !elem_of_names. eauto. }
  clear -HF Hin. induction HF as [|x ys l yss Hx _ IH]; [by apply elem_of_nil in Hin|].
  simpl. apply elem_of_app. apply elem_of_cons in Hin as [<-|Hin].
  - left. rewrite Hx by done. by left.
  - right. auto.
Qed.

Lemma set_equal_topics_sym (tiers1 tiers2 : Tiers) :
  set_equal_topics tiers1 tiers2 → set_equal_topics tiers2 tiers1.
Proof. intros H tier_name cat_name. by rewrite H. Qed.

(** The modified records of the result, exactly. *)
Lemma compare_data_modified_spec (old_data new_data : Dataset) :
  ∃ changes,
    compare_data old_data new_data = Ok changes
    ∧ ∀ trainer details,
        modified_trainer trainer details ∈ changes
        ↔ ∃ o n,
            old_data !! trainer = Some o ∧ new_data !! trainer = Some n
            ∧ ¬ set_equal_topics (get_tiers o) (get_tiers n)
            ∧ details
              = Str.join "; " (trainer_details (get_tiers o) (get_tiers n)).
Proof.
  destruct (compare_data_Forall
    (λ c, ∀ trainer details, c = modified_trainer trainer details →
       ∃ o n,
         old_data !! trainer = Some o ∧ new_data !! trainer = Some n
         ∧ ¬ set_equal_topics (get_tiers o) (get_tiers n)
         ∧ details = Str.join "; " (trainer_details (get_tiers o) (get_tiers n)))
    old_data new_data) as (changes & Hc & HF); [done|done| |].
  { intros t o n Ho Hn _ Hdetails trainer details [= <- <-].
    exists o, n. repeat split; try done.
    intros Heq. by apply Hdetails, trainer_details_set_equal. }
  exists changes. split; [done|]. intros trainer details. split.
  - intros Hin. by apply (proj1 (Forall_forall _ _) HF _ Hin).
  - intros (o & n & Ho & Hn & Hdiff & ->).
    destruct (compare_data_modified_complete old_data new_data trainer o n)
      as (changes' & Hc' & Hin); try done.
    + intros Heq. apply Hdiff. apply dumps_inj in Heq. by rewrite Heq.
    + intros Hnil. by apply Hdiff, trainer_details_nil_inv.
    + rewrite Hc in Hc'. by injection Hc' as <-.
Qed.

(** X10. A trainer of both datasets is reported modified exactly when
    some category's entries differ as sets between its old and new
    record (a missing tier or category counting as empty); the record
    then carries the detail lines joined by ["; "]. *)
Theorem compare_data_modified_iff (old_data new_data : Dataset)
    (trainer : string) (o n : Trainer) :
  old_data !! trainer = Some o → new_data !! trainer = Some n →
  ∃ changes,
    compare_data old_data new_data = Ok changes
    ∧ ((∃ details, modified_trainer trainer details ∈ changes)
       ↔ ¬ set_equal_topics (get_tiers o) (get_tiers n))
    ∧ ∀ details,
        modified_trainer trainer details ∈ changes →
        details = Str.join "; " (trainer_details (get_tiers o) (get_tiers n)).
Proof.
  intros Ho Hn.
  destruct (compare_data_modified_spec old_data new_data) as (changes & Hc & Hspec).
  exists changes. split; [done|]. split; [split|].
  - intros (details & (o' & n' & ? & ? & ? & _)%Hspec). by simplify_eq.
  - intros Hdiff. eexists. apply Hspec. by exists o, n.
  - intros details (o' & n' & ? & ? & _ & ->)%Hspec. by simplify_eq.
Qed.

Lemma compare_data_modified_iff_witness :
  ∃ changes,
    compare_data (one_trainer "A" ["X"; "Y"]) (one_trainer "A" ["Y"; "Z"])
    = Ok changes
    ∧ modified_trainer "A" "+[Interesting/Pokemon]: Z; -[Interesting/Pokemon]: X"
      ∈ changes.
Proof.
  destruct (compare_data_modified_iff
    (one_trainer "A" ["X"; "Y"]) (one_trainer "A" ["Y"; "Z"]) "A" _ _
    (one_trainer_lookup _ _) (one_trainer_lookup _ _))
    as (changes & Hc & [_ Hmod] & Hdetails).
  exists changes. split; [exact Hc|].
  destruct Hmod as [details Hin].
  - intros Heq. specialize (Heq "Interesting" "Pokemon").
    apply (f_equal (λ s : gset string, bool_decide ("X" ∈ s))) in Heq.
    by vm_compute in Heq.
  - by rewrite (Hdetails _ Hin) in Hin.
Defined.

(** X11. Swapping the two datasets keeps the modified trainers: a
    trainer is reported modified by the one comparison exactly when it is
    by the other. *)
Theorem compare_data_modified_symmetry (data1 data2 : Dataset) :
  ∃ changes12 changes21,
    compare_data data1 data2 = Ok changes12
    ∧ compare_data data2 data1 = Ok changes21
    ∧ ∀ trainer,
        (∃ details, modified_trainer trainer details ∈ changes12)
        ↔ (∃ details, modified_trainer trainer details ∈ changes21).
Proof.
  destruct (compare_data_modified_spec data1 data2) as (changes12 & Hc12 & H12).
  destruct (compare_data_modified_spec data2 data1) as (changes21 & Hc21 & H21).
  exists changes12, changes21. split; [done|]. split; [done|].
  intros trainer. split.
  - intros (details & (o & n & Ho & Hn & Hdiff & _)%H12).
    eexists. apply H21. exists n, o. repeat split; try done.
    intros Heq. by apply Hdiff, set_equal_topics_sym.
  - intros (details & (o & n & Ho & Hn & Hdiff & _)%H21).
    eexists. apply H12. exists n, o. repeat split; try done.
    intros Heq. by apply Hdiff, set_equal_topics_sym.
Qed.

(** X12. The test that lets [compare_data] skip a trainer, equality of
    the two [json.dumps] texts, holds exactly when the old and the new
    tiers are the same mapping, order of the entries included. *)
Theorem dumps_equal_iff (old_tiers new_tiers : Tiers) :
  String.eqb (Json.dumps old_tiers) (Json.dumps new_tiers) = true
  ↔ old_tiers = new_tiers.
Proof.
  rewrite String.eqb_eq. split; [apply dumps_inj|by intros ->].
Qed.

(** ** The data document *)

Lemma setitem_fresh {V : Type} (d : list (string * V)) (k : string) (v : V) :
  k ∉ d.*1 → setitem d k v = d ++ [(k, v)].
Proof.
  induction d as [|[k' v'] d IH]; [done|]. simpl.
  intros [Hne Hk]%not_elem_of_cons.
  destruct (String.eqb_spec k' k) as [->|_]; [done|]. by rewrite IH.
Qed.

Lemma nonempty_or_nil {A : Type} (l : list A) :
  (if nonempty l then l else []) = l.
Proof. by destruct l. Qed.

(** The loop of [save_data] that adds the trainers to the document. *)
Lemma save_data_loop (new_data : Dataset) (l : list string)
    (v0 : OutputValue) (out : Output) :
  NoDup l → (∀ x, x ∈ l → is_Some (new_data !! x)) →
  (∀ x, x ∈ l → x ∉ out.*1) → "_metadata" ∉ out.*1 →
  for_each (λ output name,
      rec ← getitem new_data name;
      Ok (setitem output name (OutTrainer rec)))
    l (("_metadata", v0) :: out)
  = Ok (("_metadata",
         match new_data !! "_metadata" with
         | Some rec => if decide ("_metadata" ∈ l) then OutTrainer rec else v0
         | None => v0
         end)
        :: out
        ++ omap (λ trainer,
                   rec ← new_data !! trainer; Some (trainer, OutTrainer rec))
             (filter (λ x, x ≠ "_metadata") l)).
Proof.
  revert v0 out. induction l as [|x l IH]; intros v0 out Hdup Hdom Hfresh Hmeta.
  - simpl. rewrite app_nil_r. by destruct (new_data !! "_metadata").
  - apply NoDup_cons in Hdup as [Hx Hdup].
    destruct (Hdom x) as [rec Hrec]; [by left|].
    cbn [for_each]. rewrite (getitem_Some _ _ _ Hrec). cbn [mbind result_bind].
    destruct (decide (x = "_metadata")) as [->|Hne].
    + simpl setitem. rewrite IH; [|done|set_solver|set_solver|done].
      rewrite Hrec, filter_cons_False by naive_solver.
      rewrite (decide_True (P := "_metadata" ∈ "_metadata" :: l)) by left.
      by destruct (decide _).
    + cbn [setitem]. destruct (String.eqb_spec "_metadata" x) as [|_]; [done|].
      rewrite setitem_fresh by (apply Hfresh; by left).
      rewrite IH; [|done|set_solver| |].
      * rewrite filter_cons_True by done. cbn [omap list_omap].
        rewrite Hrec. simpl. rewrite <- app_assoc. do 2 f_equal.
        destruct (new_data !! "_metadata"); [|done].
        destruct (decide ("_metadata" ∈ l)).
        -- by rewrite decide_True by (by right).
        -- rewrite decide_False; [done|]. by intros [?|?]%elem_of_cons.
      * intros y Hy. rewrite fmap_app, elem_of_app. simpl.
        intros [?|Heq%list_elem_of_singleton]; [|by subst].
        by apply (Hfresh y); [right|].
      * rewrite fmap_app, elem_of_app. simpl.
        by intros [?|?%list_elem_of_singleton].
Qed.

Lemma sorted_keys_NoDup {V : Type} (d : gmap string V) : NoDup (Str.sorted (keys d)).
Proof.
  unfold Str.sorted. rewrite merge_sort_Permutation. apply NoDup_fst_map_to_list.
Qed.

(** The document [save_data] writes, whatever the dataset. *)
Lemma save_data_file now (new_data : Dataset) changes changelog errors :
  save_data now new_data changes changelog errors
  = Ok (mkSaved
          (("_metadata",
            match new_data !! "_metadata" with
            | Some rec => OutTrainer rec
            | None => OutMetadata (run_metadata now new_data errors)
            end)
           :: filter (λ kv, kv.1 ≠ "_metadata") (trainer_entries new_data))
          (next_changelog now new_data changes changelog)).
Proof.
  unfold save_data. rewrite save_data_loop;
    [|apply sorted_keys_NoDup| |by intros x _ ?%elem_of_nil|by intros ?%elem_of_nil].
  2:{ intros x Hx. by apply elem_of_sorted, elem_of_keys in Hx. }
  cbn [mbind result_bind]. rewrite nonempty_or_nil. unfold next_changelog.
  do 2 f_equal. f_equal.
  - destruct (new_data !! "_metadata") eqn:Hm; [|done].
    rewrite decide_True; [done|]. apply elem_of_sorted, elem_of_keys. eauto.
  - rewrite app_nil_l. unfold trainer_entries.
    induction (Str.sorted (keys new_data)) as [|x l IH]; [done|].
    destruct (decide (x = "_metadata")) as [->|Hne].
    + rewrite filter_cons_False by naive_solver. cbn [omap list_omap].
      destruct (new_data !! "_metadata"); simpl; [|done].
      by rewrite filter_cons_False by naive_solver.
    + rewrite filter_cons_True by done. cbn [omap list_omap].
      destruct (new_data !! x); simpl; [|done].
      rewrite filter_cons_True by done. by f_equal.
Qed.

Lemma trainer_entries_keys (new_data : Dataset) :
  (trainer_entries new_data).*1 = Str.sorted (keys new_data).
Proof.
  unfold trainer_entries.
  assert (∀ x, x ∈ Str.sorted (keys new_data) → is_Some (new_data !! x)) as Hdom.
  { intros x Hx. by apply elem_of_sorted, elem_of_keys in Hx. }
  induction (Str.sorted (keys new_data)) as [|x l IH]; [done|].
  cbn [omap list_omap]. destruct (Hdom x) as [rec ->]; [by left|]. simpl.
  f_equal. apply IH. intros y Hy. apply Hdom. by right.
Qed.

Lemma trainer_entries_values (new_data : Dataset) (k : string) (v : OutputValue) :
  (k, v) ∈ trainer_entries new_data →
  ∃ rec, new_data !! k = Some rec ∧ v = OutTrainer rec.
Proof.
  unfold trainer_entries. intros (x & _ & Hx)%list_elem_of_omap.
  destruct (new_data !! x) as [rec|] eqn:Hrec; simplify_eq/=. eauto.
Qed.

Lemma filter_all {A : Type} (P : A → Prop) `{∀ x, Decision (P x)} (l : list A) :
  (∀ x, x ∈ l → P x) → filter P l = l.
Proof.
  induction l as [|x l IH]; intros HP; [done|].
  rewrite filter_cons_True by (apply HP; by left). f_equal. apply IH.
  intros y Hy. apply HP. by right.
Qed.

Lemma trainer_entries_no_metadata (new_data : Dataset) :
  new_data !! "_metadata" = None →
  filter (λ kv, kv.1 ≠ "_metadata") (trainer_entries new_data)
  = trainer_entries new_data.
Proof.
  intros Hnone. apply filter_all. intros [k v] Hkv.
  apply trainer_entries_values in Hkv as (rec & Hrec & _). simpl.
  intros ->. congruence.
Qed.

(** X13. When no trainer is called ["_metadata"], the data document
    starts with the metadata record (time stamp, number of trainers,
    total number of topics, the list of failed names) and goes on with
    every trainer of the dataset, once each, in sorted order of the
    names. *)
Theorem save_data_metadata_first now (new_data : Dataset) changes changelog
    errors :
  new_data !! "_metadata" = None →
  ∃ saved,
    save_data now new_data changes changelog errors = Ok saved
    ∧ data_file saved
      = ("_metadata", OutMetadata (run_metadata now new_data errors))
        :: trainer_entries new_data
    ∧ (trainer_entries new_data).*1 = Str.sorted (keys new_data)
    ∧ ∀ k v, (k, v) ∈ trainer_entries new_data →
             ∃ rec, new_data !! k = Some rec ∧ v = OutTrainer rec.
Proof.
  intros Hnone. rewrite save_data_file, Hnone. eexists; split; [done|].
  cbn [data_file]. rewrite trainer_entries_no_metadata by done.
  split; [done|]. split; [apply trainer_entries_keys|].
  apply trainer_entries_values.
Qed.

Lemma save_data_metadata_first_witness :
  ∃ saved,
    save_data "2024-01-01 00:00 UTC" (one_trainer "B" ["X"] ∪ one_trainer "A" [])
      [] (mkChangelog []) ["C"]
    = Ok saved
    ∧ (data_file saved).*1 = ["_metadata"; "A"; "B"].
Proof.
  destruct (save_data_metadata_first "2024-01-01 00:00 UTC"
    (one_trainer "B" ["X"] ∪ one_trainer "A" []) [] (mkChangelog []) ["C"])
    as (saved & Hs & Hfile & Hkeys & _); [by vm_compute|].
  exists saved. split; [exact Hs|]. rewrite Hfile, fmap_cons, Hkeys.
  by vm_compute.
Defined.

(** X14. A trainer called ["_metadata"] takes the place of the metadata
    record: the document then starts with that trainer's record and
    holds no metadata at all. *)
Theorem save_data_metadata_overwritten now (new_data : Dataset) changes
    changelog errors (rec : Trainer) :
  new_data !! "_metadata" = Some rec →
  ∃ saved,
    save_data now new_data changes changelog errors = Ok saved
    ∧ head (data_file saved) = Some ("_metadata", OutTrainer rec)
    ∧ ∀ k v, (k, v) ∈ data_file saved → ∃ t, v = OutTrainer t.
Proof.
  intros Hrec. rewrite save_data_file, Hrec. eexists; split; [done|].
  cbn [data_file]. split; [done|].
  intros k v [[= _ ->]|[_ Hin]%list_elem_of_filter]%elem_of_cons; [eauto|].
  apply trainer_entries_values in Hin as (t & _ & ->). eauto.
Qed.

Lemma save_data_metadata_overwritten_witness :
  ∃ saved,
    save_data "2024-01-01 00:00 UTC" {[ "_metadata" := mkTrainer "x" None ]}
      [] (mkChangelog []) []
    = Ok saved
    ∧ data_file saved = [("_metadata", OutTrainer (mkTrainer "x" None))].
Proof.
  destruct (save_data_metadata_overwritten "2024-01-01 00:00 UTC"
    {[ "_metadata" := mkTrainer "x" None ]} [] (mkChangelog []) []
    (mkTrainer "x" None)) as (saved & Hs & Hhead & _);
    [apply lookup_singleton_eq|].
  exists saved. split; [exact Hs|].
  rewrite save_data_file in Hs. injection Hs as <-. by vm_compute.
Defined.

(** X15. Reading the data file back after [save_data] gives the
    trainers that were saved, in sorted order and without the metadata
    record; only a trainer called ["_metadata"] is not read back. *)
Theorem load_after_save now (new_data : Dataset) changes changelog errors :
  ∃ saved,
    save_data now new_data changes changelog errors = Ok saved
    ∧ load_existing_data (Some (data_file saved))
      = filter (λ kv, kv.1 ≠ "_metadata") (trainer_entries new_data)
    ∧ (new_data !! "_metadata" = None →
       load_existing_data (Some (data_file saved)) = trainer_entries new_data).
Proof.
  rewrite save_data_file. eexists; split; [done|].
  cbn [data_file load_existing_data].
  rewrite filter_cons_False by naive_solver.
  rewrite (filter_all _ (filter _ _))
    by (by intros kv [? _]%list_elem_of_filter).
  split; [done|]. intros Hnone. by apply trainer_entries_no_metadata.
Qed.

(** ** The changelog over any runs *)

Lemma save_runs_cons (r : Run) (runs : list Run) (changelog : Changelog) :
  save_runs (r :: runs) changelog
  = save_runs runs
      (next_changelog (run_now r) (run_data r) (run_changes r) changelog).
Proof.
  unfold save_runs. cbn [for_each].
  destruct (save_data_changelog (run_now r) (run_data r) (run_changes r)
    changelog (run_errors r)) as [output ->]. done.
Qed.

Lemma next_changelog_run (r : Run) (changelog : Changelog) :
  next_changelog (run_now r) (run_data r) (run_changes r) changelog
  = if has_changes r
    then mkChangelog (take 50 (run_entry r :: updates changelog))
    else changelog.
Proof. done. Qed.

(** X16. After any runs the stored history is the old one with the
    entries of the runs that had changes put in front, newest first, and
    cut to 50; when no run had changes it is the old history as it was,
    whatever its length. *)
Theorem save_runs_history (runs : list Run) (changelog : Changelog) :
  save_runs runs changelog
  = Ok match filter has_changes runs with
       | [] => changelog
       | changed =>
           mkChangelog
             (take 50 (reverse (run_entry <$> changed) ++ updates changelog))
       end.
Proof.
  revert changelog. induction runs as [|r runs IH]; intros changelog; [done|].
  rewrite save_runs_cons, next_changelog_run, IH.
  destruct (has_changes r) eqn:Hr.
  - rewrite filter_cons_True by (by rewrite Hr). f_equal. cbn [updates].
    destruct (filter has_changes runs) as [|r' changed].
    + reflexivity.
    + rewrite take_app_take, (fmap_cons _ r), (reverse_cons _ (run_entry r)).
      by rewrite <- app_assoc.
  - rewrite filter_cons_False; [done|]. rewrite Hr. by intros [].
Qed.

(** X17. A history of at most 50 entries stays one of at most 50
    entries through any runs. *)
Theorem save_runs_bounded (runs : list Run) (changelog : Changelog) :
  length (updates changelog) ≤ 50 →
  ∃ stored,
    save_runs runs changelog = Ok stored ∧ length (updates stored) ≤ 50.
Proof.
  revert changelog. induction runs as [|r runs IH]; intros changelog Hlen.
  - by exists changelog.
  - rewrite save_runs_cons. apply IH. rewrite next_changelog_run.
    destruct (has_changes r); [|done]. cbn [updates]. rewrite length_take. lia.
Qed.

Lemma save_runs_bounded_witness :
  ∃ stored,
    save_runs (sample_run <$> seq 0 70) (mkChangelog []) = Ok stored
    ∧ length (updates stored) ≤ 50.
Proof. apply save_runs_bounded. simpl. lia. Defined.

(** ** Requests with retry *)

Section api_request_facts.
Context {J : Type} (get : nat → GetResult J).

Lemma first_accepted_seq_Some (a n i : nat) (d : J) :
  first_accepted get (seq a n) = Some (i, d)
  ↔ a ≤ i < a + n ∧ accepted (get i) = Some d
    ∧ ∀ j, a ≤ j < i → accepted (get j) = None.
Proof.
  revert a. induction n as [|n IH]; intros a; simpl.
  - split; [done|lia].
  - destruct (accepted (get a)) as [d'|] eqn:Ha.
    + split.
      * intros [= <- <-]. split; [lia|]. split; [done|]. lia.
      * intros (Hi & Hd & Hfirst). destruct (decide (i = a)) as [->|Hne].
        { congruence. }
        rewrite Hfirst in Ha by lia. done.
    + rewrite IH. split.
      * intros (Hi & Hd & Hfirst). split; [lia|]. split; [done|].
        intros j Hj. destruct (decide (j = a)) as [->|]; [done|].
        apply Hfirst. lia.
      * intros (Hi & Hd & Hfirst). destruct (decide (i = a)) as [->|Hne].
        { congruence. }
        split; [lia|]. split; [done|]. intros j Hj. apply Hfirst. lia.
Qed.

Lemma first_accepted_seq_None (a n : nat) :
  first_accepted get (seq a n) = None
  ↔ ∀ j, a ≤ j < a + n → accepted (get j) = None.
Proof.
  revert a. induction n as [|n IH]; intros a; simpl.
  - split; [lia|done].
  - destruct (accepted (get a)) as [d'|] eqn:Ha.
    + split; [done|]. intros Hnone. rewrite Hnone in Ha by lia. done.
    + rewrite IH. split.
      * intros Hnone j Hj. destruct (decide (j = a)) as [->|]; [done|].
        apply Hnone. lia.
      * intros Hnone j Hj. apply Hnone. lia.
Qed.

(** One failed attempt: a request, and a pause unless it was the last. *)
Lemma api_request_loop_failed (retries a : nat) (rest : list nat) (w : Effects) :
  accepted (get a) = None →
  ∃ w1,
    api_request_loop get retries (a :: rest) w
    = api_request_loop get retries rest w1
    ∧ requests w1 = S (requests w)
    ∧ sleeps w1 = sleeps w ++ (if a <? retries - 1 then [delay a] else []).
Proof.
  intros Ha. cbn [api_request_loop]. unfold accepted in Ha. unfold backoff, delay.
  destruct (get a) as [|resp].
  - eexists; split; [done|]. destruct (a <? retries - 1); simpl;
      by rewrite ?app_nil_r.
  - destruct (status_code resp =? 200); simpl in *.
    + destruct (Str.contains "json" _); simpl in *.
      * rewrite Ha. eexists; split; [done|].
        destruct (a <? retries - 1); simpl; by rewrite ?app_nil_r.
      * eexists; split; [done|].
        destruct (a <? retries - 1); simpl; by rewrite ?app_nil_r.
    + eexists; split; [done|].
      destruct (a <? retries - 1); simpl; by rewrite ?app_nil_r.
Qed.

Lemma api_request_loop_spec (retries n a : nat) (w : Effects) :
  a + n = retries →
  ∃ w',
    api_request_loop get retries (seq a n) w
    = (snd <$> first_accepted get (seq a n), w')
    ∧ requests w'
      = requests w
        + match first_accepted get (seq a n) with
          | Some (i, _) => i - a + 1
          | None => n
          end
    ∧ sleeps w'
      = sleeps w
        ++ (delay <$> seq a match first_accepted get (seq a n) with
                            | Some (i, _) => i - a
                            | None => n - 1
                            end).
Proof.
  revert a w. induction n as [|n IH]; intros a w Hretries.
  - exists w. simpl. split; [done|]. split; [lia|by rewrite app_nil_r].
  - cbn [seq first_accepted]. destruct (accepted (get a)) as [d|] eqn:Ha.
    + exists (request w). split.
      * cbn [api_request_loop]. unfold accepted in Ha.
        destruct (get a) as [|resp]; [done|].
        destruct (status_code resp =? 200); [|done].
        destruct (Str.contains "json" _); [|done]. simpl in *. by rewrite Ha.
      * simpl. split; [lia|]. by rewrite Nat.sub_diag, app_nil_r.
    + destruct (api_request_loop_failed retries a (seq (S a) n) w Ha)
        as (w1 & -> & Hreq & Hsleep).
      destruct (IH (S a) w1) as (w' & -> & Hreq' & Hsleep'); [lia|].
      exists w'. split; [done|]. rewrite Hreq', Hsleep', Hreq, Hsleep.
      destruct (first_accepted get (seq (S a) n)) as [[i d]|] eqn:Hfirst.
      * apply first_accepted_seq_Some in Hfirst as (Hi & _ & _).
        split; [lia|]. rewrite (proj2 (Nat.ltb_lt a (retries - 1))) by lia.
        rewrite <- app_assoc. f_equal.
        replace (i - a) with (S (i - S a)) by lia. done.
      * split; [lia|]. rewrite <- app_assoc. f_equal.
        destruct n as [|n].
        -- rewrite (proj2 (Nat.ltb_ge a (retries - 1))) by lia. done.
        -- rewrite (proj2 (Nat.ltb_lt a (retries - 1))) by lia.
           simpl. by rewrite Nat.sub_0_r.
Qed.

End api_request_facts.

(** X18. [api_request] returns the decoded body of the first attempt
    that is answered with status 200, a JSON content type and a body
    that decodes, having sent as many requests as that attempt's rank
    and none after it; when none of the [retries] attempts is so
    answered it returns [None], having sent [retries] requests.  So the
    value returned is [None] exactly when no attempt is so answered or
    the first that is has the body [null]: that one is returned at once,
    without another attempt. *)
Theorem api_request_first_accepted (get : nat → GetResult JSON)
    (retries : nat) :
  (∀ i d, i < retries → accepted (get i) = Some d →
          (∀ j, j < i → accepted (get j) = None) →
          returned_value (api_request get retries).1 = d
          ∧ requests (api_request get retries).2 = i + 1)
  ∧ ((∀ i, i < retries → accepted (get i) = None) →
     returned_value (api_request get retries).1 = JNull
     ∧ requests (api_request get retries).2 = retries)
  ∧ (returned_value (api_request get retries).1 = JNull
     ↔ (∀ i, i < retries → accepted (get i) = None)
       ∨ ∃ i, i < retries ∧ accepted (get i) = Some JNull
              ∧ ∀ j, j < i → accepted (get j) = None).
Proof.
  unfold api_request.
  destruct (api_request_loop_spec get retries retries 0 (mkEffects [] 0 0))
    as (w' & -> & Hreq & _); [done|]. cbn [fst snd requests] in *.
  destruct (first_accepted get (seq 0 retries)) as [[i d]|] eqn:Hfirst.
  - pose proof Hfirst as (Hi & Hd & Hnone)%first_accepted_seq_Some.
    assert (∀ i' d', i' < retries → accepted (get i') = Some d' →
                     (∀ j, j < i' → accepted (get j) = None) →
                     i' = i ∧ d' = d) as Hsame.
    { intros i' d' Hi' Hd' Hnone'.
      assert (first_accepted get (seq 0 retries) = Some (i', d')) as Hfirst'.
      { apply first_accepted_seq_Some. split; [lia|]. split; [done|].
        intros j Hj. apply Hnone'. lia. }
      rewrite Hfirst in Hfirst'. by injection Hfirst' as -> ->. }
    unfold returned_value. simpl.
    split; [|split].
    + intros i' d' Hi' Hd' Hnone'.
      destruct (Hsame i' d' Hi' Hd' Hnone') as [-> ->]. split; [done|lia].
    + intros Hall. rewrite Hall in Hd by lia. done.
    + split.
      * intros ->. right. exists i. split; [lia|]. split; [done|].
        intros j Hj. apply Hnone. lia.
      * intros [Hall|(i' & Hi' & Hd' & Hnone')].
        { rewrite Hall in Hd by lia. done. }
        by destruct (Hsame i' JNull Hi' Hd' Hnone') as [_ <-].
  - pose proof Hfirst as Hnone. rewrite first_accepted_seq_None in Hnone.
    unfold returned_value. simpl.
    split; [|split].
    + intros i d Hi Hd _. rewrite Hnone in Hd by lia. done.
    + intros _. split; [done|lia].
    + split; [|done]. intros _. left. intros i Hi. apply Hnone. lia.
Qed.

(** A body that decodes to [null] is returned after one request. *)
Example api_request_null_body :
  returned_value
    (api_request
       (λ _, GetReturns (mkResponse 200 (Some "application/json") (Some JNull)))
       MAX_RETRIES).1 = JNull
  ∧ requests
      (api_request
         (λ _, GetReturns (mkResponse 200 (Some "application/json") (Some JNull)))
         MAX_RETRIES).2 = 1.
Proof. split; vm_compute; reflexivity. Qed.

Lemma sum_delay (m : nat) :
  2 * sum_list (delay <$> seq 0 m) = RETRY_DELAY * m * (m + 1).
Proof.
  induction m as [|m IH]; [done|].
  rewrite seq_S, fmap_app, sum_list_with_app.
  change (sum_list (delay <$> [0 + m])) with (delay m + 0).
  unfold delay at 2. unfold RETRY_DELAY in *. nia.
Qed.

(** X19. The pauses of [api_request] are 5, 10, 15, ... seconds: one
    after each request but the last one sent, so none after the last
    attempt allowed; in all they take at most [5 * retries * (retries - 1)
    / 2] seconds, which is 15 for the default of 3 retries. *)
Theorem api_request_backoff {J : Type} (get : nat → GetResult J)
    (retries : nat) :
  sleeps (api_request get retries).2
  = (λ i, RETRY_DELAY * (i + 1))
    <$> seq 0 (requests (api_request get retries).2 - 1)
  ∧ requests (api_request get retries).2 ≤ retries
  ∧ 2 * sum_list (sleeps (api_request get retries).2)
    ≤ RETRY_DELAY * retries * (retries - 1)
  ∧ sum_list (sleeps (api_request get MAX_RETRIES).2) ≤ 15.
Proof.
  assert (∀ retries,
    sleeps (api_request get retries).2
    = delay <$> seq 0 (requests (api_request get retries).2 - 1)
    ∧ requests (api_request get retries).2 ≤ retries) as Hgen.
  { clear retries. intros retries. unfold api_request.
    destruct (api_request_loop_spec get retries retries 0 (mkEffects [] 0 0))
      as (w' & -> & Hreq & Hsleep); [done|]. cbn [fst snd requests sleeps] in *.
    rewrite Hreq, Hsleep. simpl.
    destruct (first_accepted get (seq 0 retries)) as [[i d]|] eqn:Hfirst.
    - apply first_accepted_seq_Some in Hfirst as (Hi & _ & _).
      split; [|lia]. do 2 f_equal. lia.
    - split; [|lia]. done. }
  assert (∀ retries,
    2 * sum_list (sleeps (api_request get retries).2)
    ≤ RETRY_DELAY * retries * (retries - 1)) as Hsum.
  { clear retries. intros retries. destruct (Hgen retries) as [-> Hle].
    rewrite sum_delay. unfold RETRY_DELAY. nia. }
  destruct (Hgen retries) as [Hsleeps Hle].
  split; [exact Hsleeps|]. split; [done|]. split; [apply Hsum|].
  specialize (Hsum MAX_RETRIES). unfold MAX_RETRIES, RETRY_DELAY in *. lia.
Qed.

(** ** The list of trainers to scrape *)

Lemma hardcoded_not_skipped : Forall (λ t, t ∉ skip_names) HARDCODED_TRAINERS.
Proof. refine (bool_decide_unpack _ _). by vm_compute. Qed.

Lemma hardcoded_NoDup : NoDup HARDCODED_TRAINERS.
Proof. refine (bool_decide_unpack _ _). by vm_compute. Qed.

Lemma elem_of_all_trainers (wiki_trainers : list string) (t : string) :
  t ∈ all_trainers wiki_trainers
  ↔ (t ∈ HARDCODED_TRAINERS ∨ t ∈ wiki_trainers) ∧ t ∉ skip_names.
Proof.
  unfold all_trainers.
  rewrite list_elem_of_filter, elem_of_sorted_set, elem_of_list_to_set, elem_of_app.
  tauto.
Qed.

Lemma all_trainers_NoDup (wiki_trainers : list string) :
  NoDup (all_trainers wiki_trainers).
Proof. apply NoDup_filter, sorted_set_NoDup. Qed.

(** X20. The list of trainers a run scrapes holds the hard-coded names
    and the discovered ones, except ["Expeditions"], ["Lodge Exchange"]
    and ["Redecorate"]; it is sorted and without repetition; and it
    always holds all 50 hard-coded names, whatever was discovered. *)
Theorem all_trainers_spec (wiki_trainers : list string) :
  (∀ t, t ∈ all_trainers wiki_trainers
        ↔ (t ∈ HARDCODED_TRAINERS ∨ t ∈ wiki_trainers) ∧ t ∉ skip_names)
  ∧ NoDup (all_trainers wiki_trainers)
  ∧ StronglySorted String.le (all_trainers wiki_trainers)
  ∧ (∀ t, t ∈ HARDCODED_TRAINERS → t ∈ all_trainers wiki_trainers)
  ∧ 50 ≤ length (all_trainers wiki_trainers).
Proof.
  split; [apply elem_of_all_trainers|]. split; [apply all_trainers_NoDup|].
  split; [|split].
  - unfold all_trainers. eapply StronglySorted_sublist; [apply sublist_filter|].
    apply Sorted_StronglySorted; [apply _|apply sorted_set_sorted].
  - intros t Ht. apply elem_of_all_trainers. split; [by left|].
    by apply (proj1 (Forall_forall _ _) hardcoded_not_skipped).
  - change 50 with (length HARDCODED_TRAINERS).
    apply submseteq_length, NoDup_submseteq; [apply hardcoded_NoDup|].
    intros t Ht. apply elem_of_all_trainers. split; [by left|].
    by apply (proj1 (Forall_forall _ _) hardcoded_not_skipped).
Qed.

(** ** Loops of the run *)

Lemma for_each_run_invariant {S A : Type} (body : S → A → outcome S)
    (P : S → Prop) (l : list A) (s s' : S) :
  P s →
  (∀ s x s', x ∈ l → P s → body s x = Done s' → P s') →
  for_each_run body l s = Done s' → P s'.
Proof.
  revert s. induction l as [|x l IH]; intros s HP Hstep; simpl.
  - by intros [= <-].
  - destruct (body s x) as [s1|u] eqn:Hx; [|done]. simpl.
    apply IH; [by eapply Hstep; [left|..]|].
    intros s2 y s3 Hy. apply Hstep. by right.
Qed.

Lemma for_each_run_total {S A : Type} (body : S → A → outcome S)
    (P : S → Prop) (l : list A) (s : S) :
  P s →
  (∀ s x, x ∈ l → P s → ∃ s', body s x = Done s' ∧ P s') →
  ∃ s', for_each_run body l s = Done s' ∧ P s'.
Proof.
  revert s. induction l as [|x l IH]; intros s HP Hstep; simpl; [eauto|].
  destruct (Hstep s x) as (s1 & -> & HP1); [by left|done|]. simpl.
  apply IH; [done|]. intros s2 y Hy. apply Hstep. by right.
Qed.

(** ** Discovery *)

(** One member: a name is appended exactly for a dict whose title is a
    string that passes the tests. *)
Lemma discover_member_spec (wiki_trainers wiki_trainers' : list string)
    (member : JSON) :
  discover_member wiki_trainers member = Done wiki_trainers' →
  ∀ name,
    name ∈ wiki_trainers'
    ↔ name ∈ wiki_trainers
      ∨ ((0 < String.length name < 50)
         ∧ ∃ title,
             member_title member title
             ∧ Str.startswith "Trainer Lodge/" title = true
             ∧ (title ∉ SKIP_PAGES)
             ∧ name = str_replace "Trainer Lodge/" "" title).
Proof.
  unfold discover_member, member_title.
  destruct member as [| | | | |fields]; try done. cbn [json_get mbind outcome_bind].
  destruct (fields !! "title") as [title|] eqn:Htitle; cbn [from_option id].
  - destruct title as [| | |title| |]; try done.
    destruct (Str.startswith _ title) eqn:Hstart; cbn [andb].
    2:{ intros [= <-] name. split; [by left|]. intros [Hin|[_ Hnew]]; [done|].
        destruct Hnew as (t & (f & [= <-] & Ht) & Hs & _).
        rewrite Htitle in Ht. injection Ht as <-. congruence. }
    case_bool_decide as Hskip; cbn [negb].
    { intros [= <-] name. split; [by left|]. intros [Hin|[_ Hnew]]; [done|].
      destruct Hnew as (t & (f & [= <-] & Ht) & _ & Hs & _).
      rewrite Htitle in Ht. injection Ht as <-. done. }
    destruct (Nat.ltb_spec 0 (String.length (str_replace "Trainer Lodge/" "" title)))
      as [Hpos|Hpos]; cbn [andb].
    2:{ intros [= <-] name. split; [by left|]. intros [Hin|[Hlen Hnew]]; [done|].
        destruct Hnew as (t & (f & [= <-] & Ht) & _ & _ & ->).
        rewrite Htitle in Ht. injection Ht as <-. lia. }
    destruct (Nat.ltb_spec (String.length (str_replace "Trainer Lodge/" "" title)) 50)
      as [Hlt|Hlt].
    2:{ intros [= <-] name. split; [by left|]. intros [Hin|[Hlen Hnew]]; [done|].
        destruct Hnew as (t & (f & [= <-] & Ht) & _ & _ & ->).
        rewrite Htitle in Ht. injection Ht as <-. lia. }
    intros [= <-] name. rewrite elem_of_app, list_elem_of_singleton. split.
    + intros [Hin| ->]; [by left|]. right. split; [lia|]. exists title.
      split; [by exists fields|]. done.
    + intros [Hin|[_ Hnew]]; [by left|]. right.
      destruct Hnew as (t & (f & [= <-] & Ht) & _ & _ & ->).
      rewrite Htitle in Ht. by injection Ht as <-.
  - intros [= <-] name. split; [by left|]. intros [Hin|[_ Hnew]]; [done|].
    destruct Hnew as (t & (f & [= <-] & Ht) & _).
    rewrite Htitle in Ht. done.
Qed.

(** The loop over the members. *)
Lemma discover_loop_spec (members : list JSON)
    (wiki_trainers wiki_trainers' : list string) :
  for_each_run discover_member members wiki_trainers = Done wiki_trainers' →
  ∀ name,
    name ∈ wiki_trainers'
    ↔ name ∈ wiki_trainers
      ∨ ((0 < String.length name < 50)
         ∧ ∃ member title,
             member ∈ members
             ∧ member_title member title
             ∧ Str.startswith "Trainer Lodge/" title = true
             ∧ (title ∉ SKIP_PAGES)
             ∧ name = str_replace "Trainer Lodge/" "" title).
Proof.
  revert wiki_trainers. induction members as [|member members IH];
    intros wiki_trainers; cbn [for_each_run].
  - intros [= <-] name. split; [by left|].
    intros [Hin|(_ & member & title & []%elem_of_nil & _)]. done.
  - destruct (discover_member wiki_trainers member) as [wiki_trainers1|] eqn:Hm;
      [|done].
    cbn [mbind outcome_bind]. intros Hloop name.
    rewrite (IH _ Hloop name), (discover_member_spec _ _ _ Hm name). split.
    + intros [[Hin|(Hlen & title & Hnew)]|(Hlen & m & title & Hin & Hnew)].
      * by left.
      * right. split; [done|]. exists member, title. split; [by left|done].
      * right. split; [done|]. exists m, title. split; [by right|done].
    + intros [Hin|(Hlen & m & title & [->|Hin]%elem_of_cons & Hnew)].
      * by left; left.
      * left; right. split; [done|]. by exists title.
      * right. split; [done|]. by exists m, title.
Qed.

(** X21. The names [discover_trainers] returns are exactly these: for
    each member of the listing that is a dict whose title is a string
    starting with ["Trainer Lodge/"] and is not one of the four pages of
    [SKIP_PAGES], what is left of the title once ["Trainer Lodge/"] is
    taken out of it, when that is non-empty and shorter than 50
    characters. *)
Theorem discover_trainers_names (data : option JSON) (names : list string) :
  discover_trainers data = Done names →
  ∀ name,
    name ∈ names
    ↔ (0 < String.length name < 50)
      ∧ ∃ listing members member title,
          data = Some listing
          ∧ category_members listing = Done members
          ∧ member ∈ members
          ∧ member_title member title
          ∧ Str.startswith "Trainer Lodge/" title = true
          ∧ (title ∉ SKIP_PAGES)
          ∧ name = str_replace "Trainer Lodge/" "" title.
Proof.
  unfold discover_trainers, category_members.
  destruct data as [listing|].
  2:{ intros [= <-] name. split; [by intros ?%elem_of_nil|].
      by intros (_ & ? & ? & ? & ? & ? & _). }
  destruct (json_truthy listing) eqn:Htruthy; cbn [negb].
  - destruct (json_get listing "query" _) as [query|] eqn:Hquery; [|done].
    cbn [mbind outcome_bind].
    destruct (json_get query "categorymembers" _) as [members|] eqn:Hmembers;
      [|done].
    cbn [mbind outcome_bind].
    destruct (json_iter members) as [items|] eqn:Hitems; [|done].
    cbn [mbind outcome_bind]. intros Hloop name.
    rewrite (discover_loop_spec _ _ _ Hloop name). split.
    + intros [[]%elem_of_nil|(Hlen & member & title & Hin & Hnew)].
      split; [done|]. exists listing, items, member, title.
      rewrite Hquery. cbn [mbind outcome_bind]. rewrite Hmembers.
      cbn [mbind outcome_bind]. done.
    + intros (Hlen & listing' & items' & member & title & [= <-] & Hm & Hin & Hnew).
      right. split; [done|]. exists member, title. split; [|done].
      rewrite Hquery in Hm. cbn [mbind outcome_bind] in Hm.
      rewrite Hmembers in Hm. cbn [mbind outcome_bind] in Hm.
      rewrite Hitems in Hm. by injection Hm as ->.
  - intros [= <-] name. split; [by intros ?%elem_of_nil|].
    intros (_ & listing' & items & member & title & [= <-] & Hm & Hin & _).
    destruct listing as [|b|n|t|l|fields]; try done.
    cbn [json_truthy] in Htruthy. apply negb_false_iff, Nat.eqb_eq in Htruthy.
    apply map_size_empty_iff in Htruthy as ->.
    cbn [json_get mbind outcome_bind] in Hm. rewrite lookup_empty in Hm.
    cbn [from_option id json_get mbind outcome_bind] in Hm.
    rewrite lookup_empty in Hm. cbn [from_option id json_iter] in Hm.
    injection Hm as <-. by apply elem_of_nil in Hin.
Qed.

Lemma discover_trainers_names_witness :
  discover_trainers
    (Some (category_listing
             ["Trainer Lodge/Expeditions"; "Trainer Lodge/Iris";
              "Category:Other"; "Trainer Lodge/"; "Trainer Lodge/Ball Guy"]))
  = Done ["Iris"; "Ball Guy"]
  ∧ ∀ name, name ∈ ["Iris"; "Ball Guy"] → 0 < (String.length name) < 50.
Proof.
  assert (discover_trainers
    (Some (category_listing
             ["Trainer Lodge/Expeditions"; "Trainer Lodge/Iris";
              "Category:Other"; "Trainer Lodge/"; "Trainer Lodge/Ball Guy"]))
    = Done ["Iris"; "Ball Guy"]) as Hd by (by vm_compute).
  split; [exact Hd|]. intros name Hin.
  by destruct (proj1 (discover_trainers_names _ _ Hd name) Hin) as [Hlen _].
Defined.

(** X22. A category listing of the expected shape, an object whose
    ["query"]["categorymembers"] is a list of objects with string titles,
    is read without any exception. *)
Theorem discover_trainers_well_formed (fields query : gmap string JSON)
    (members : list JSON) :
  fields !! "query" = Some (JObj query) →
  query !! "categorymembers" = Some (JArr members) →
  Forall member_ok members →
  ∃ names, discover_trainers (Some (JObj fields)) = Done names.
Proof.
  intros Hquery Hmembers Hok. unfold discover_trainers.
  destruct (json_truthy (JObj fields)); simpl; [|by eexists].
  rewrite Hquery. simpl. rewrite Hmembers. simpl.
  destruct (for_each_run_total discover_member (λ _, True) members [])
    as (names & Hnames & _); [done| |by eexists].
  intros names member Hin _.
  apply (proj1 (Forall_forall _ _) Hok) in Hin as (mfields & -> & Htitle).
  unfold discover_member. simpl.
  destruct (mfields !! "title") as [title|] eqn:Ht; simpl.
  - destruct (Htitle _ eq_refl) as [t ->].
    destruct (_ && _); [destruct (_ && _)|]; by eexists.
  - by eexists.
Qed.

Lemma discover_trainers_well_formed_witness :
  ∃ names,
    discover_trainers
      (Some (category_listing ["Trainer Lodge/Iris"; "Trainer Lodge"]))
    = Done names.
Proof.
  eapply discover_trainers_well_formed;
    [apply lookup_singleton_eq|apply lookup_singleton_eq|].
  repeat constructor; eexists; (split; [done|]);
    intros title [_ <-]%lookup_singleton_Some; by eexists.
Defined.

(** ** The scraping loop *)

(** What one iteration does to the state depends on the answer and the
    name only. *)
Lemma scrape_trainer_state (data : option JSON) (new_data : Dataset)
    (errors : list string) (name : string) :
  scrape_trainer data (new_data, errors) name
  = match scrape_result data name with
    | Done (Some rec) => Done (<[name := rec]> new_data, errors)
    | Done None => Done (new_data, errors ++ [name])
    | Crash u => Crash u
    end.
Proof.
  unfold scrape_result, scrape_trainer.
  destruct data as [data|]; [|done].
  destruct (json_truthy data); simpl; [|done].
  destruct (json_in "error" data) as [[]|]; simpl; [| |done].
  { destruct data; simpl; try done.
    destruct (json_get _ "info" _); simpl; done. }
  destruct (response_wikitext data) as [[| | |wikitext| |]|]; try done.
  destruct (parse_wikitext_ok wikitext name) as [result_tiers ->]. simpl.
  destruct (0 <? size result_tiers); simpl; [|done].
  by rewrite lookup_insert_eq.
Qed.

Lemma scrape_result_record (data : option JSON) (name : string) (rec : Trainer) :
  scrape_result data name = Done (Some rec) →
  ∃ wikitext result_tiers,
    parse_wikitext wikitext name = Ok rec
    ∧ rec = mkTrainer name (Some result_tiers) ∧ result_tiers ≠ ∅.
Proof.
  unfold scrape_result, scrape_trainer.
  destruct data as [data|]; [|done].
  destruct (json_truthy data); simpl; [|done].
  destruct (json_in "error" data) as [[]|]; simpl; [| |done].
  { destruct data; simpl; try done.
    destruct (json_get _ "info" _); simpl; done. }
  destruct (response_wikitext data) as [[| | |wikitext| |]|]; try done.
  destruct (parse_wikitext_ok wikitext name) as [result_tiers Hparse].
  rewrite Hparse. simpl.
  destruct (Nat.ltb_spec 0 (size result_tiers)) as [Hsize|]; simpl; [|done].
  rewrite lookup_insert_eq. intros [= <-]. exists wikitext, result_tiers.
  split; [done|]. split; [done|]. intros ->.
  rewrite map_size_empty in Hsize. lia.
Qed.

(** The scraping loop over names without repetition. *)
Lemma scrape_loop_spec (fetch : string → option JSON) (l : list string)
    (new_data new_data' : Dataset) (errors errors' : list string) :
  NoDup l → (∀ x, x ∈ l → new_data !! x = None) →
  for_each_run (λ st name, scrape_trainer (fetch name) st name) l
    (new_data, errors) = Done (new_data', errors') →
  errors' = errors ++ filter (λ x, scrape_failed (fetch x) x) l
  ∧ (∀ x, x ∈ l → scrape_result (fetch x) x = Done (new_data' !! x))
  ∧ (∀ x, x ∉ l → new_data' !! x = new_data !! x).
Proof.
  revert new_data errors.
  induction l as [|x l IH]; intros new_data errors Hdup Hfresh;
    cbn [for_each_run].
  - intros [= <- <-]. rewrite app_nil_r. split; [done|]. split; [|done].
    by intros x ?%elem_of_nil.
  - apply NoDup_cons in Hdup as [Hx Hdup]. rewrite scrape_trainer_state.
    unfold scrape_failed.
    destruct (scrape_result (fetch x) x) as [[rec|]|] eqn:Hres;
      cbn [mbind outcome_bind]; [| |done].
    + intros Hloop. apply IH in Hloop as (-> & Hin & Hout); [|done|].
      2:{ intros y Hy. rewrite lookup_insert_ne by set_solver.
          apply Hfresh. by right. }
      rewrite filter_cons_False by (rewrite Hres; naive_solver).
      split; [done|]. split.
      * intros y [->|Hy]%elem_of_cons; [|by apply Hin].
        by rewrite Hres, (Hout _ Hx), lookup_insert_eq.
      * intros y [Hne Hy]%not_elem_of_cons.
        by rewrite (Hout _ Hy), lookup_insert_ne.
    + intros Hloop. apply IH in Hloop as (-> & Hin & Hout); [|done|].
      2:{ intros y Hy. apply Hfresh. by right. }
      rewrite filter_cons_True by (by rewrite Hres).
      split; [by rewrite <- app_assoc|]. split.
      * intros y [->|Hy]%elem_of_cons; [|by apply Hin].
        rewrite Hres, (Hout _ Hx), Hfresh; [done|by left].
      * intros y [Hne Hy]%not_elem_of_cons. by apply Hout.
Qed.

(** ** The run as a whole *)

Lemma filter_ext_in {A : Type} (P Q : A → Prop) `{∀ x, Decision (P x)}
    `{∀ x, Decision (Q x)} (l : list A) :
  (∀ x, x ∈ l → P x ↔ Q x) → filter P l = filter Q l.
Proof.
  induction l as [|x l IH]; intros HPQ; [done|].
  rewrite !filter_cons, IH by (intros y Hy; apply HPQ; by right).
  assert (P x ↔ Q x) as Hx by (apply HPQ; by left).
  destruct (decide (P x)), (decide (Q x)); tauto.
Qed.

Lemma length_filter_complement {A : Type} (P : A → Prop)
    `{∀ x, Decision (P x)} (l : list A) :
  length (filter P l) + length (filter (λ x, ¬ P x) l) = length l.
Proof.
  rewrite <- length_app. apply Permutation_length, filter_app_complement.
Qed.

(** The saving step on the changelog as loaded: the data document is
    the one of [save_data_file]; the changelog is read only when there
    are changes. *)
Lemma save_data_doc_spec now (new_data : Dataset) changes doc errors :
  save_data_doc now new_data changes doc errors
  = match (if nonempty changes
           then match updates_list doc with
                | Done stored =>
                    Done (LogUpdates (next_changelog now new_data changes stored))
                | Crash u => Crash u
                end
           else Done doc) with
    | Done changelog =>
        Done (("_metadata",
               match new_data !! "_metadata" with
               | Some rec => OutTrainer rec
               | None => OutMetadata (run_metadata now new_data errors)
               end)
              :: filter (λ kv, kv.1 ≠ "_metadata") (trainer_entries new_data),
              changelog)
    | Crash u => Crash u
    end.
Proof.
  pose proof (save_data_file now new_data [] (mkChangelog []) errors) as Hfile.
  revert Hfile. unfold save_data, save_data_doc.
  destruct (for_each _ _ _) as [output|e]; [|done].
  cbn [mbind result_bind uncaught outcome_bind]. intros [= ->].
  unfold next_changelog. destruct (nonempty changes); [|reflexivity].
  destruct (updates_list doc) as [stored|u]; reflexivity.
Qed.

(** On a changelog of the expected shape the saving step of [main] is
    [save_data]. *)
Lemma save_data_doc_updates now (new_data : Dataset) changes changelog errors :
  save_data_doc now new_data changes (LogUpdates changelog) errors
  = match save_data now new_data changes changelog errors with
    | Ok saved => Done (data_file saved, LogUpdates (changelog_file saved))
    | Raise e => Crash (UncaughtFrom e)
    end.
Proof.
  rewrite save_data_doc_spec, save_data_file. cbn [updates_list].
  unfold next_changelog. by destruct (nonempty changes).
Qed.

(** The parts of a run that ends normally. *)
Lemma main_Done (w : World) (r : RunResult) :
  main w = Done r →
  ∃ wiki_trainers,
    discover_trainers (api_request (category_answers w) MAX_RETRIES).1
    = Done wiki_trainers
    ∧ for_each_run
        (λ st name,
           scrape_trainer (api_request (page_answers w name) MAX_RETRIES).1
             st name)
        (all_trainers wiki_trainers) (∅, [])
      = Done (run_new_data r, run_errors_list r)
    ∧ compare_data (existing_dataset (load_existing_data (stored_data w)))
        (run_new_data r)
      = Ok (run_changes_list r)
    ∧ save_data_doc (clock w) (run_new_data r) (run_changes_list r)
        (load_changelog (stored_changelog w)) (run_errors_list r)
      = Done (run_data_file r, run_changelog_file r)
    ∧ exit_code r
      = if length (all_trainers wiki_trainers) <? 2 * length (run_errors_list r)
        then 1 else 0.
Proof.
  unfold main.
  destruct (discover_trainers _) as [wiki_trainers|]; [|done].
  cbn [mbind outcome_bind].
  destruct (for_each_run _ _ _) as [[new_data errors]|] eqn:Hloop; [|done].
  cbn [mbind outcome_bind].
  destruct (compare_data _ new_data) as [changes|] eqn:Hchanges; [|done].
  cbn [uncaught mbind outcome_bind].
  destruct (save_data_doc _ _ _ _ _) as [[output changelog]|] eqn:Hsaved;
    [|done].
  cbn [mbind outcome_bind]. intros [= <-]. by exists wiki_trainers.
Qed.

(** A run from its parts: what [main] returns once discovery, scraping
    and comparison have returned, by what the saving step does. *)
Lemma main_intro (w : World) (wiki_trainers : list string)
    (new_data : Dataset) (errors : list string) (changes : list Change) :
  discover_trainers (api_request (category_answers w) MAX_RETRIES).1
  = Done wiki_trainers →
  for_each_run
    (λ st name,
       scrape_trainer (api_request (page_answers w name) MAX_RETRIES).1 st name)
    (all_trainers wiki_trainers) (∅, [])
  = Done (new_data, errors) →
  compare_data (existing_dataset (load_existing_data (stored_data w))) new_data
  = Ok changes →
  main w
  = match save_data_doc (clock w) new_data changes
            (load_changelog (stored_changelog w)) errors with
    | Done saved =>
        Done (mkRunResult saved.1 saved.2 new_data errors changes
                (if length (all_trainers wiki_trainers) <? 2 * length errors
                 then 1 else 0))
    | Crash u => Crash u
    end.
Proof.
  intros Hwiki Hloop Hchanges. unfold main. rewrite Hwiki.
  cbn [mbind outcome_bind]. rewrite Hloop. cbn [mbind outcome_bind].
  rewrite Hchanges. reflexivity.
Qed.

(** X23. In a run that ends normally every trainer of the list is
    either stored in the new dataset or filed under [errors], never
    both: [errors] holds, in the order of the list, exactly the trainers
    that are not stored, and nothing else is stored. *)
Theorem main_partition (w : World) (r : RunResult) :
  main w = Done r →
  ∃ wiki_trainers,
    discover_trainers (api_request (category_answers w) MAX_RETRIES).1
    = Done wiki_trainers
    ∧ run_errors_list r
      = filter (λ name, name ∉ dom (run_new_data r)) (all_trainers wiki_trainers)
    ∧ (∀ name, name ∈ dom (run_new_data r) → name ∈ all_trainers wiki_trainers)
    ∧ size (run_new_data r) + length (run_errors_list r)
      = length (all_trainers wiki_trainers).
Proof.
  intros (wiki_trainers & Hwiki & Hloop & _)%main_Done.
  exists wiki_trainers. split; [done|].
  apply scrape_loop_spec in Hloop as (Herrors & Hin & Hout);
    [|apply all_trainers_NoDup|done].
  assert (∀ name, name ∈ dom (run_new_data r) → name ∈ all_trainers wiki_trainers)
    as Hdom.
  { intros name [rec Hrec]%elem_of_dom.
    destruct (decide (name ∈ all_trainers wiki_trainers)) as [|Hn]; [done|].
    by rewrite (Hout _ Hn) in Hrec. }
  assert (run_errors_list r
    = filter (λ name, name ∉ dom (run_new_data r)) (all_trainers wiki_trainers))
    as Herr.
  { rewrite Herrors, app_nil_l. apply filter_ext_in. intros name Hname.
    unfold scrape_failed. rewrite (Hin _ Hname), not_elem_of_dom.
    by destruct (run_new_data r !! name). }
  split; [done|]. split; [done|]. rewrite Herr.
  set (l := all_trainers wiki_trainers) in *.
  rewrite <- (length_filter_complement (λ name, name ∈ dom (run_new_data r)) l).
  f_equal. rewrite <- size_dom.
  assert (dom (run_new_data r)
    = list_to_set (filter (λ name, name ∈ dom (run_new_data r)) l)) as Hset.
  { apply set_eq. intros name.
    rewrite elem_of_list_to_set, list_elem_of_filter. naive_solver. }
  rewrite Hset at 1. apply size_list_to_set, NoDup_filter, all_trainers_NoDup.
Qed.

Lemma sample_world_runs : ∃ r, main sample_world = Done r.
Proof. vm_compute. eexists. reflexivity. Qed.

(** A test on the result of the sample run, settled by evaluation. *)
Lemma sample_world_result (P : RunResult → bool) (r : RunResult) :
  main sample_world = Done r →
  match main sample_world with Done r => P r | Crash _ => false end = true →
  P r = true.
Proof. intros ->. intros HP. exact HP. Qed.

Lemma main_partition_witness :
  ∃ r wiki_trainers,
    main sample_world = Done r
    ∧ run_errors_list r
      = filter (λ name, name ∉ dom (run_new_data r)) (all_trainers wiki_trainers)
    ∧ size (run_new_data r) + length (run_errors_list r)
      = length (all_trainers wiki_trainers).
Proof.
  destruct sample_world_runs as [r Hr].
  destruct (main_partition sample_world r Hr) as (wiki & _ & Herr & _ & Hsize).
  exists r, wiki. exact (conj Hr (conj Herr Hsize)).
Defined.

(** X24. Every record a run stores carries the name it is stored under,
    is the parse of a page text, and has at least one tier: a page that
    parses to no tier is filed under [errors] instead. *)
Theorem main_records (w : World) (r : RunResult) (name : string) (rec : Trainer) :
  main w = Done r → run_new_data r !! name = Some rec →
  ∃ wikitext result_tiers,
    parse_wikitext wikitext name = Ok rec
    ∧ rec = mkTrainer name (Some result_tiers)
    ∧ result_tiers ≠ ∅.
Proof.
  intros (wiki_trainers & _ & Hloop & _)%main_Done Hrec.
  apply scrape_loop_spec in Hloop as (_ & Hin & Hout);
    [|apply all_trainers_NoDup|done].
  destruct (decide (name ∈ all_trainers wiki_trainers)) as [Hname|Hname];
    [|by rewrite (Hout _ Hname) in Hrec].
  specialize (Hin _ Hname). rewrite Hrec in Hin.
  by apply scrape_result_record in Hin.
Qed.

Lemma main_records_witness :
  ∃ r wikitext result_tiers,
    main sample_world = Done r
    ∧ parse_wikitext wikitext "Iris"
      = Ok (mkTrainer "Iris" (Some result_tiers))
    ∧ run_new_data r !! "Iris" = Some (mkTrainer "Iris" (Some result_tiers))
    ∧ result_tiers ≠ ∅.
Proof.
  destruct sample_world_runs as [r Hr].
  assert (is_Some (run_new_data r !! "Iris")) as [rec Hrec].
  { apply (bool_decide_unpack (is_Some (run_new_data r !! "Iris"))).
    apply Is_true_true.
    apply (sample_world_result
             (λ r, bool_decide (is_Some (run_new_data r !! "Iris"))) r Hr).
    vm_compute. reflexivity. }
  destruct (main_records sample_world r "Iris" rec Hr Hrec)
    as (wikitext & result_tiers & Hparse & -> & Hne).
  exists r, wikitext, result_tiers.
  exact (conj Hr (conj Hparse (conj Hrec Hne))).
Defined.

(** ** Runs against an unreachable wiki, and repeated runs *)

Lemma api_request_none {J : Type} (get : nat → GetResult J) (retries : nat) :
  (∀ i, i < retries → accepted (get i) = None) →
  (api_request get retries).1 = None.
Proof.
  intros Hnone. unfold api_request.
  destruct (api_request_loop_spec get retries retries 0 (mkEffects [] 0 0))
    as (w' & -> & _); [lia|].
  assert (first_accepted get (seq 0 retries) = None) as ->; [|done].
  apply first_accepted_seq_None. intros j Hj. apply Hnone. lia.
Qed.

Lemma scrape_loop_none (fetch : string → option JSON) (l : list string)
    (new_data : Dataset) (errors : list string) :
  (∀ x, x ∈ l → fetch x = None) →
  for_each_run (λ st name, scrape_trainer (fetch name) st name) l
    (new_data, errors) = Done (new_data, errors ++ l).
Proof.
  revert errors. induction l as [|x l IH]; intros errors Hnone;
    cbn [for_each_run].
  - by rewrite app_nil_r.
  - rewrite (Hnone x) by (by left). cbn [scrape_trainer mbind outcome_bind].
    rewrite IH by (intros y Hy; apply Hnone; by right).
    by rewrite <- app_assoc.
Qed.

Lemma compare_data_all_removed (data : Dataset) :
  compare_data data ∅ = Ok (removed_trainer <$> sorted_set (dom data)).
Proof.
  destruct (compare_data_groups data ∅)
    as (news & mods & -> & Hnews & _ & Hmods & _ & _).
  replace (dom (∅ : Dataset) ∖ dom data) with (∅ : gset string) in Hnews
    by set_solver.
  replace (dom data ∩ dom (∅ : Dataset)) with (∅ : gset string) in Hmods
    by set_solver.
  replace (dom data ∖ dom (∅ : Dataset)) with (dom data) by set_solver.
  rewrite sorted_set_empty in Hnews, Hmods.
  apply fmap_nil_inv in Hnews as ->.
  apply sublist_nil_r, fmap_nil_inv in Hmods as ->.
  by rewrite app_nil_l, app_nil_r.
Qed.

Lemma compare_data_unchanged (data : Dataset) : compare_data data data = Ok [].
Proof.
  destruct (compare_data_Forall (λ _, False) data data) as (changes & -> & HF).
  - intros t details Hnone [r Hr]. congruence.
  - intros t [r Hr] Hnone. congruence.
  - intros t o n Ho Hn Hdumps _. by simplify_eq.
  - destruct changes as [|c changes]; [done|].
    by apply Forall_cons in HF as [[] _].
Qed.

Lemma all_trainers_length (wiki_trainers : list string) :
  50 ≤ length (all_trainers wiki_trainers).
Proof.
  change 50 with (length HARDCODED_TRAINERS).
  apply submseteq_length, NoDup_submseteq; [apply hardcoded_NoDup|].
  intros t Ht. apply elem_of_all_trainers. split; [by left|].
  by apply (proj1 (Forall_forall _ _) hardcoded_not_skipped).
Qed.

Lemma existing_dataset_entries (new_data : Dataset) :
  existing_dataset (trainer_entries new_data) = new_data.
Proof.
  apply map_eq. intros k. apply option_eq. intros rec.
  unfold existing_dataset. rewrite <- elem_of_list_to_map.
  2:{ rewrite <- list_fmap_compose.
      change (NoDup (trainer_entries new_data).*1).
      rewrite trainer_entries_keys. apply sorted_keys_NoDup. }
  rewrite list_elem_of_fmap. split.
  - intros ([k' v] & [= -> ->] & Hin). simpl.
    by apply trainer_entries_values in Hin as (rec' & Hrec & ->).
  - intros Hrec. exists (k, OutTrainer rec). split; [done|].
    unfold trainer_entries. apply list_elem_of_omap. exists k. split.
    + apply elem_of_sorted, elem_of_keys. eauto.
    + by rewrite Hrec.
Qed.

(** X25. When the wiki answers no request acceptably and the stored
    changelog is absent, unreadable or a dict with a list under
    ["updates"], the run ends normally, and it saves before it gives up:
    the data document is replaced by one that holds only the metadata
    record, with every trainer of the hard-coded list under [errors];
    every trainer that was stored is reported removed and the changelog
    is written accordingly; only then the exit code is 1. *)
Theorem main_site_down (w : World) (changelog : Changelog) :
  (∀ i, i < MAX_RETRIES → accepted (category_answers w i) = None) →
  (∀ name i, i < MAX_RETRIES → accepted (page_answers w name i) = None) →
  load_changelog (stored_changelog w) = LogUpdates changelog →
  ∃ r,
    main w = Done r
    ∧ run_new_data r = ∅
    ∧ run_errors_list r = all_trainers []
    ∧ run_changes_list r
      = removed_trainer
        <$> sorted_set
              (dom (existing_dataset (load_existing_data (stored_data w))))
    ∧ run_data_file r
      = [("_metadata",
          OutMetadata
            (mkMetadata (clock w) 0 0 "pokemon-masters-ex-game.fandom.com"
               "2.0" (all_trainers [])))]
    ∧ run_changelog_file r
      = LogUpdates
          (next_changelog (clock w) ∅ (run_changes_list r) changelog)
    ∧ exit_code r = 1.
Proof.
  intros Hcategory Hpages Hlog.
  assert (discover_trainers (api_request (category_answers w) MAX_RETRIES).1
          = Done []) as Hwiki by (by rewrite api_request_none).
  pose proof (scrape_loop_none
    (λ name, (api_request (page_answers w name) MAX_RETRIES).1)
    (all_trainers []) ∅ []) as Hloop.
  rewrite app_nil_l in Hloop.
  specialize (Hloop (λ x _, api_request_none _ _ (Hpages x))).
  rewrite (main_intro w [] ∅ (all_trainers []) _ Hwiki Hloop
             (compare_data_all_removed _)).
  rewrite save_data_doc_spec, Hlog. cbn [updates_list].
  pose proof (all_trainers_length []) as Hlen. revert Hlen.
  generalize (all_trainers []). intros errs Hlen.
  assert ((length errs <? 2 * length errs) = true) as Hexit
    by (apply Nat.ltb_lt; lia).
  destruct (nonempty _) eqn:Hchanges.
  - eexists. split; [reflexivity|]. cbn [run_new_data run_errors_list
      run_changes_list run_data_file run_changelog_file exit_code fst snd].
    rewrite Hexit.
    split; [reflexivity|]. split; [reflexivity|]. split; [reflexivity|].
    split; [reflexivity|]. split; [reflexivity|]. reflexivity.
  - eexists. split; [reflexivity|]. cbn [run_new_data run_errors_list
      run_changes_list run_data_file run_changelog_file exit_code fst snd].
    rewrite Hexit. unfold next_changelog. rewrite Hchanges.
    split; [reflexivity|]. split; [reflexivity|]. split; [reflexivity|].
    split; [reflexivity|]. split; [reflexivity|]. reflexivity.
Qed.

Lemma main_site_down_witness :
  ∃ r,
    main (dead_world (Some (trainer_entries (one_trainer "Iris" ["Curry"])))
            None "2024-01-02 00:00 UTC") = Done r
    ∧ run_changes_list r = [removed_trainer "Iris"]
    ∧ length (run_data_file r) = 1
    ∧ exit_code r = 1.
Proof.
  destruct (main_site_down
    (dead_world (Some (trainer_entries (one_trainer "Iris" ["Curry"])))
       None "2024-01-02 00:00 UTC") (mkChangelog []))
    as (r & Hr & _ & _ & Hchanges & Hfile & _ & Hexit);
    [intros; reflexivity..|reflexivity|].
  exists r. split; [exact Hr|]. split.
  - rewrite Hchanges. vm_compute. reflexivity.
  - rewrite Hfile. split; [reflexivity|exact Hexit].
Defined.

(** X26. A second run over the documents the first run wrote, with the
    wiki answering as before, stores the same dataset and the same
    errors, reports no change and leaves the changelog as it is; the
    data document differs at most in its metadata record.  This needs
    that no stored trainer is called ["_metadata"]: that one is not read
    back. *)
Theorem main_rerun (w : World) (r : RunResult) (now : string) :
  main w = Done r → run_new_data r !! "_metadata" = None →
  ∃ r',
    main (next_world w r now) = Done r'
    ∧ run_new_data r' = run_new_data r
    ∧ run_errors_list r' = run_errors_list r
    ∧ run_changes_list r' = []
    ∧ run_changelog_file r' = run_changelog_file r
    ∧ tail (run_data_file r') = tail (run_data_file r)
    ∧ exit_code r' = exit_code r.
Proof.
  intros (wiki_trainers & Hwiki & Hloop & _ & Hsave & Hexit)%main_Done Hmeta.
  rewrite save_data_doc_spec in Hsave.
  assert (run_data_file r
          = ("_metadata",
             OutMetadata (run_metadata (clock w) (run_new_data r)
                            (run_errors_list r)))
            :: trainer_entries (run_new_data r)) as Hfile.
  { rewrite Hmeta, trainer_entries_no_metadata in Hsave by done.
    destruct (if nonempty (run_changes_list r) then _ else _); [|done].
    by injection Hsave as <- _. }
  assert (compare_data
            (existing_dataset
               (load_existing_data (stored_data (next_world w r now))))
            (run_new_data r) = Ok []) as Hcmp.
  { cbn [next_world stored_data load_existing_data]. rewrite Hfile.
    rewrite filter_cons_False by naive_solver.
    rewrite trainer_entries_no_metadata by done.
    rewrite existing_dataset_entries. apply compare_data_unchanged. }
  rewrite (main_intro (next_world w r now) wiki_trainers (run_new_data r)
             (run_errors_list r) [] Hwiki Hloop Hcmp).
  rewrite save_data_doc_spec. cbn [nonempty].
  eexists. split; [reflexivity|].
  cbn [run_new_data run_errors_list run_changes_list run_data_file
       run_changelog_file exit_code fst snd next_world stored_changelog
       load_changelog].
  split; [reflexivity|]. split; [reflexivity|]. split; [reflexivity|].
  split; [reflexivity|]. split; [|by rewrite Hexit].
  rewrite Hfile. cbn [tail]. by apply trainer_entries_no_metadata.
Qed.

Lemma main_rerun_witness :
  ∃ r r',
    main sample_world = Done r
    ∧ main (next_world sample_world r "2024-01-02 00:00 UTC") = Done r'
    ∧ run_changes_list r' = []
    ∧ run_changelog_file r' = run_changelog_file r.
Proof.
  destruct sample_world_runs as [r Hr].
  assert (run_new_data r !! "_metadata" = None) as Hmeta.
  { apply eq_None_not_Some.
    apply (proj1 (bool_decide_eq_false
                    (is_Some (run_new_data r !! "_metadata")))).
    apply negb_true_iff.
    apply (sample_world_result
             (λ r, negb (bool_decide (is_Some (run_new_data r !! "_metadata"))))
             r Hr).
    vm_compute. reflexivity. }
  destruct (main_rerun sample_world r "2024-01-02 00:00 UTC" Hr Hmeta)
    as (r' & Hr' & _ & _ & Hchanges & Hlog & _).
  exists r, r'. exact (conj Hr (conj Hr' (conj Hchanges Hlog))).
Defined.

(** ** A stored changelog of another shape *)

Lemma existing_dataset_nonempty (existing_data : Output) :
  existing_data ≠ [] → dom (existing_dataset existing_data) ≠ ∅.
Proof.
  destruct existing_data as [|[k v] rest]; [done|]. intros _ Hempty.
  assert (k ∈ dom (existing_dataset ((k, v) :: rest))) as Hk.
  { unfold existing_dataset. cbn [fmap list_fmap list_to_map foldr fst snd].
    set_solver. }
  rewrite Hempty in Hk. set_solver.
Qed.

(** X27. When the stored changelog is not a dict with a list under
    ["updates"], a run can end normally only without changes, and then
    writes the changelog back as it found it; a run with changes ends
    with the exception that [changelog["updates"].insert] raises.  So a
    run against a wiki that answers no request, with some trainer
    stored, ends with that exception. *)
Theorem main_changelog_malformed (w : World) (u : Uncaught) :
  updates_list (load_changelog (stored_changelog w)) = Crash u →
  (∀ r, main w = Done r →
        run_changes_list r = []
        ∧ run_changelog_file r = load_changelog (stored_changelog w))
  ∧ ((∀ i, i < MAX_RETRIES → accepted (category_answers w i) = None) →
     (∀ name i, i < MAX_RETRIES → accepted (page_answers w name i) = None) →
     load_existing_data (stored_data w) ≠ [] →
     main w = Crash u).
Proof.
  intros Hlog. split.
  - intros r (_ & _ & _ & _ & Hsave & _)%main_Done.
    rewrite save_data_doc_spec, Hlog in Hsave.
    destruct (run_changes_list r) as [|c changes]; [|done].
    cbn [nonempty] in Hsave. by injection Hsave as _ <-.
  - intros Hcategory Hpages Hstored.
    assert (discover_trainers (api_request (category_answers w) MAX_RETRIES).1
            = Done []) as Hwiki by (by rewrite api_request_none).
    pose proof (scrape_loop_none
      (λ name, (api_request (page_answers w name) MAX_RETRIES).1)
      (all_trainers []) ∅ []) as Hloop.
    rewrite app_nil_l in Hloop.
    specialize (Hloop (λ x _, api_request_none _ _ (Hpages x))).
    rewrite (main_intro w [] ∅ (all_trainers []) _ Hwiki Hloop
               (compare_data_all_removed _)).
    rewrite save_data_doc_spec, Hlog.
    destruct (sorted_set (dom (existing_dataset
      (load_existing_data (stored_data w))))) as [|name names] eqn:Hnames.
    + apply sorted_set_nil_inv in Hnames.
      destruct (existing_dataset_nonempty _ Hstored Hnames).
    + reflexivity.
Qed.

Lemma main_changelog_malformed_witness :
  main dead_world_no_updates = Crash (UncaughtFrom (KeyError "updates")).
Proof.
  destruct (main_changelog_malformed dead_world_no_updates
              (UncaughtFrom (KeyError "updates")) eq_refl) as [_ Hcrash].
  apply Hcrash.
  - intros i _. reflexivity.
  - intros name i _. reflexivity.
  - vm_compute. discriminate.
Defined.
